(** * OneSignal Website SDK: cross-origin frames, alternate origins and
      the environment classifier

    A shallow embedding of
    - [src/managers/SdkEnvironment.ts]        (module [SdkEnvironment]),
    - [src/managers/AltOriginManager.ts]      (module [AltOriginManager]),
    - [src/modules/frames/ProxyFrameHost.ts]  (module [ProxyFrameHost]),
    - [src/modules/frames/ProxyFrame.ts]      (module [ProxyFrame]),
    - the subscription modal                  (module [SubscriptionModal]),
    - the bell launcher's [resize]            (module [Launcher]),
    - the build tool's cleaning and file names (module [BuildTool]),
    together with the parts of the browser they run against (URL objects,
    the document's iframes, promises, timers) and the Postmam channel.

    Definitions come first, one module per source class; the theorems
    follow in the second half of the file. *)

From Stdlib Require Import String Ascii Bool Arith NArith List Lia DecimalString.
From stdpp Require Import gmap strings list fin_maps.

#[local] Set Warnings "-register-all".

Local Open Scope string_scope.
Local Open Scope list_scope.
Local Open Scope stdpp_scope.

(* ===================================================================== *)
(** * JavaScript strings *)
(* ===================================================================== *)

Module JsString.

(** [s.indexOf(sub) !== -1]: [sub] occurs somewhere in [s]. *)
Fixpoint includes (sub s : string) : bool :=
  String.prefix sub s ||
  match s with
  | EmptyString => false
  | String _ rest => includes sub rest
  end.

(** [s.endsWith(suffix)]: some tail of [s] is [suffix]. *)
Fixpoint endsWith (s suffix : string) : bool :=
  String.eqb s suffix ||
  match s with
  | EmptyString => false
  | String _ rest => endsWith rest suffix
  end.

(** [parts.join(sep)] *)
Definition join (sep : string) (parts : list string) : string :=
  String.concat sep parts.

(** No [":"] in the string. *)
Fixpoint colonFree (s : string) : bool :=
  match s with
  | EmptyString => true
  | String c rest => negb (Ascii.eqb c ":"%char) && colonFree rest
  end.

(** The code of a character lies between two bounds. *)
Definition between (lo hi : nat) (c : ascii) : bool :=
  Nat.leb lo (nat_of_ascii c) && Nat.leb (nat_of_ascii c) hi.

Definition isUpper (c : ascii) : bool := between 65 90 c.    (* A-Z *)
Definition isLower (c : ascii) : bool := between 97 122 c.   (* a-z *)
Definition isDigit (c : ascii) : bool := between 48 57 c.    (* 0-9 *)

(** ASCII lower-casing of a character and of a string. *)
Definition lowerChar (c : ascii) : ascii :=
  if isUpper c then ascii_of_nat (nat_of_ascii c + 32) else c.

Fixpoint asciiLower (s : string) : string :=
  match s with
  | EmptyString => EmptyString
  | String c rest => String (lowerChar c) (asciiLower rest)
  end.

(** Every character of the string passes the test. *)
Fixpoint all (test : ascii -> bool) (s : string) : bool :=
  match s with
  | EmptyString => true
  | String c rest => test c && all test rest
  end.

(** The characters of the string that pass the test. *)
Fixpoint keep (test : ascii -> bool) (s : string) : string :=
  match s with
  | EmptyString => EmptyString
  | String c rest => if test c then String c (keep test rest) else keep test rest
  end.

(** The longest prefix whose characters pass the test. *)
Fixpoint takeWhile (test : ascii -> bool) (s : string) : string :=
  match s with
  | EmptyString => EmptyString
  | String c rest => if test c then String c (takeWhile test rest) else EmptyString
  end.

End JsString.

(* ===================================================================== *)
(** * The URL object, as far as the SDK uses it *)
(* ===================================================================== *)

Module Url.

Record URL := mkURL {
  protocol : string;   (* "https:" *)
  hostname : string;
  port     : string;   (* "" for the scheme's default port *)
  pathname : string    (* always starts with "/" *)
}.

(** [url.host]: the hostname, followed by [":"] and the port when the port
    is not the default one. *)
Definition host (u : URL) : string :=
  if String.eqb (port u) "" then hostname u
  else hostname u +:+ ":" +:+ port u.

(** *** The host setter

    [url.host = h] runs the URL parser of the URL Standard on [h], starting
    in its host state, on the URL itself. The SDK's URLs are https URLs,
    whose scheme is special. *)

(** ASCII tab and newline, which the parser removes from its input. *)
Definition isTabOrNewline (c : ascii) : bool :=
  Ascii.eqb c "009"%char || Ascii.eqb c "010"%char || Ascii.eqb c "013"%char.

(** The characters at which the host state ends the host, besides the end
    of the input: the setter ignores them and what follows. *)
Definition endsHost (c : ascii) : bool :=
  Ascii.eqb c "/"%char || Ascii.eqb c "?"%char || Ascii.eqb c "#"%char ||
  Ascii.eqb c "\"%char.

(** The host state: the host runs up to the first [":"] outside square
    brackets, after which the port follows, or up to a character that ends
    it. The buffer is returned with the text after the colon, if any. *)
Fixpoint hostState (insideBrackets : bool) (input : string) : string * option string :=
  match input with
  | EmptyString => (EmptyString, None)
  | String c rest =>
      if Ascii.eqb c ":"%char && negb insideBrackets then (EmptyString, Some rest)
      else if endsHost c then (EmptyString, None)
      else
        let inside := if Ascii.eqb c "["%char then true
                      else if Ascii.eqb c "]"%char then false
                      else insideBrackets in
        let '(buffer, after) := hostState inside rest in
        (String c buffer, after)
  end.

(** The forbidden domain code points: the C0 controls, space, DEL and
    [# % / : < > ? @ [ \ ] ^ |]. *)
Definition forbiddenDomainCodePoint (c : ascii) : bool :=
  JsString.between 0 32 c || Ascii.eqb c "127"%char ||
  existsb (Ascii.eqb c)
    ["#"; "%"; "/"; ":"; "<"; ">"; "?"; "@"; "["; "\"; "]"; "^"; "|"]%char.

(** The host parser on an ASCII domain: the domain is lower-cased; an
    empty host and a host with a forbidden code point are failures
    ([None]). The parser's other steps (percent-decoding, the IDNA mapping
    of non-ASCII text and of labels that start with [xn--], IPv4 numbers
    and IPv6 literals in brackets) are not modelled: this is the parser on
    domains of plain ASCII labels, see [plainLabel]. *)
Definition parseHost (buffer : string) : option string :=
  if String.eqb buffer "" then None
  else if negb (JsString.all (fun c => negb (forbiddenDomainCodePoint c)) buffer) then None
  else Some (JsString.asciiLower buffer).

(** The number written by a string of digits, and a number written out. *)
Definition portValue (digits : string) : N :=
  match NilEmpty.uint_of_string digits with
  | Some d => N.of_uint d
  | None => 0%N
  end.

Definition portText (p : N) : string := NilEmpty.string_of_uint (N.to_uint p).

(** The default port of a special scheme. *)
Definition defaultPort (protocol : string) : option N :=
  if String.eqb protocol "https:" then Some 443%N
  else if String.eqb protocol "http:" then Some 80%N
  else if String.eqb protocol "wss:" then Some 443%N
  else if String.eqb protocol "ws:" then Some 80%N
  else if String.eqb protocol "ftp:" then Some 21%N
  else None.

Definition isDefaultPort (protocol : string) (p : N) : bool :=
  match defaultPort protocol with
  | Some d => N.eqb d p
  | None => false
  end.

Definition withHostname (u : URL) (name : string) : URL :=
  {| protocol := protocol u; hostname := name; port := port u; pathname := pathname u |}.

Definition withPort (u : URL) (p : string) : URL :=
  {| protocol := protocol u; hostname := hostname u; port := p; pathname := pathname u |}.

(** The port state, entered after the colon: the digits that follow are
    the port, and in a setter anything else ends it. No digits, or a
    number above 65535, leave the port as it was; the scheme's default
    port is stored as no port. *)
Definition portState (u : URL) (rest : string) : URL :=
  let digits := JsString.takeWhile JsString.isDigit rest in
  if String.eqb digits "" then u
  else
    let p := portValue digits in
    if N.ltb 65535 p then u
    else withPort u (if isDefaultPort (protocol u) p then "" else portText p).

(** [url.host = h]. A host that fails to parse leaves the URL unchanged;
    a value without a port leaves the port as it was. *)
Definition set_host (u : URL) (h : string) : URL :=
  let '(buffer, after) := hostState false (JsString.keep (fun c => negb (isTabOrNewline c)) h) in
  match parseHost buffer with
  | None => u
  | Some name =>
      match after with
      | Some rest => portState (withHostname u name) rest
      | None => withHostname u name
      end
  end.

(** A plain host label: letters, digits and hyphens, at least one, not
    starting with [xn--]. On such labels the host parser is ASCII
    lower-casing. *)
Definition isLabelChar (c : ascii) : bool :=
  JsString.isUpper c || JsString.isLower c || JsString.isDigit c || Ascii.eqb c "-"%char.

Definition plainLabel (s : string) : bool :=
  negb (String.eqb s "") && JsString.all isLabelChar s &&
  negb (String.prefix "xn--" (JsString.asciiLower s)).

(** [url.pathname = p]: the path of an https URL always starts with a
    slash, so [''] gives ["/"] and ['webPushIframe'] gives
    ["/webPushIframe"]. *)
Definition set_pathname (u : URL) (p : string) : URL :=
  {| protocol := protocol u; hostname := hostname u; port := port u;
     pathname := if String.prefix "/" p then p else "/" +:+ p |}.

(** [url.toString()] *)
Definition toString (u : URL) : string :=
  protocol u +:+ "//" +:+ host u +:+ pathname u.

(** [url.origin] *)
Definition origin (u : URL) : string :=
  protocol u +:+ "//" +:+ host u.

End Url.

(* ===================================================================== *)
(** * SdkEnvironment *)
(* ===================================================================== *)

Module SdkEnvironment.

Inductive BuildEnvironmentKind := Development | Staging | Production.

Definition BuildEnvironmentKind_eqb (a b : BuildEnvironmentKind) : bool :=
  match a, b with
  | Development, Development | Staging, Staging | Production, Production => true
  | _, _ => false
  end.

(** Modelled from the spec: the enum [models/WindowEnvironmentKind] is
    imported by [SdkEnvironment.ts] but its declaration is not among the
    sources. The members are the ones [getWindowEnv] returns; they are the
    six roles of the spec's closed role set (Host, ProxyFrame,
    SubscriptionPopup, CustomEmbeddedFrame, ServiceWorkerBackground,
    Unknown). *)
Inductive WindowEnvironmentKind :=
| ServiceWorker
| Host
| OneSignalSubscriptionPopup
| OneSignalProxyFrame
| CustomIframe
| Unknown.

(** The global [location] of a window. *)
Record Location := mkLocation {
  href : string;
  loc_pathname : string;
  search : string;
  loc_hostname : string
}.

(** The global [window]: whether it is its own [top], and its location. *)
Record Window := mkWindow {
  isTop : bool;               (* window === window.top *)
  location : Location
}.

(** The global [self] of a worker: whether [self.registration] is defined. *)
Record Self := mkSelf {
  hasRegistration : bool      (* typeof self.registration !== "undefined" *)
}.

(** Everything the classifier reads from its execution context: the
    globals [window] and [self] (absent when [typeof] gives "undefined")
    and the build constants [__DEV__] and [__STAGING__]. *)
Record Context := mkContext {
  window : option Window;
  self : option Self;
  dev_defined : bool;         (* typeof __DEV__ !== "undefined" *)
  staging_defined : bool      (* typeof __STAGING__ !== "undefined" *)
}.

Definition getBuildEnv (ctx : Context) : BuildEnvironmentKind :=
  if dev_defined ctx then Development
  else if staging_defined ctx then Staging
  else Production.

(** The condition of the popup branch. JavaScript's [&&] binds tighter than
    [||], so the source's condition reads
    [A || ((B && C) && (D || E || (F && G)))]. *)
Definition isPopupLocation (ctx : Context) (l : Location) : bool :=
  JsString.includes "initOneSignal" (href l) ||
  ((String.eqb (loc_pathname l) "/subscribe" && String.eqb (search l) "") &&
   (JsString.endsWith (loc_hostname l) ".onesignal.com" ||
    JsString.endsWith (loc_hostname l) ".os.tc" ||
    (JsString.includes ".localhost" (loc_hostname l) &&
     BuildEnvironmentKind_eqb (getBuildEnv ctx) Development))).

Definition getWindowEnv (ctx : Context) : WindowEnvironmentKind :=
  match window ctx with
  | None =>
      match self ctx with
      | Some s => if hasRegistration s then ServiceWorker else Unknown
      | None => Unknown
      end
  | Some w =>
      if isTop w then
        if isPopupLocation ctx (location w)
        then OneSignalSubscriptionPopup
        else Host
      else if String.eqb (loc_pathname (location w)) "/webPushIframe" ||
              String.eqb (loc_pathname (location w)) "/webPushModal"
      then OneSignalProxyFrame
      else CustomIframe
  end.

(** ** The classifier as a program over the globals

    [getWindowEnv] above is the value the source computes from what it
    reads. Below the source is written out again, expression by expression
    and in its order of evaluation, as a program that runs against the
    globals of its execution context: reading a global that is not defined
    throws, and a program can assign the globals. *)

(** [ReferenceError: name is not defined] *)
Inductive ReferenceError := NotDefined (name : string).

(** How a program ends: with a value, or with an exception thrown. *)
Inductive Completion (A : Type) : Type :=
| Normal (value : A)
| Abrupt (error : ReferenceError).

Arguments Normal {A} value.
Arguments Abrupt {A} error.

(** A program takes the globals and leaves a completion and the globals. *)
Definition Program (A : Type) : Type := Context -> Completion A * Context.

Definition ret {A : Type} (a : A) : Program A := fun globals => (Normal a, globals).

Definition bind {A B : Type} (m : Program A) (k : A -> Program B) : Program B :=
  fun globals =>
    match m globals with
    | (Normal a, globals') => k a globals'
    | (Abrupt e, globals') => (Abrupt e, globals')
    end.

Notation "'let!' x ':=' m 'in' k" := (bind m (fun x => k))
  (at level 10, x name, m at level 100, k at level 200, only parsing).

(** [typeof name !== "undefined"]: asking for the type of an identifier
    that is not defined does not throw. *)
Definition typeofDefined {A : Type} (global : Context -> option A) : Program bool :=
  fun globals =>
    (Normal (match global globals with Some _ => true | None => false end), globals).

(** The value of the global [name]; a ReferenceError when it is not
    defined. *)
Definition readGlobal {A : Type} (name : string) (global : Context -> option A)
  : Program A :=
  fun globals =>
    match global globals with
    | Some v => (Normal v, globals)
    | None => (Abrupt (NotDefined name), globals)
    end.

(** The global [location], which is the window's. *)
Definition readLocation : Program Location :=
  readGlobal "location" (fun globals => option_map location (window globals)).

(** [typeof __DEV__ !== "undefined"] and [typeof __STAGING__ !== "undefined"] *)
Definition typeofDEV : Program bool := fun globals => (Normal (dev_defined globals), globals).
Definition typeofSTAGING : Program bool :=
  fun globals => (Normal (staging_defined globals), globals).

(** Assignment of the globals, as a test harness does between two calls. *)
Definition assignGlobals (ctx : Context) : Program unit := fun _ => (Normal tt, ctx).

(** [a && b] and [a || b]: the right operand is evaluated only when the
    left one does not decide. *)
Definition and_ (a b : Program bool) : Program bool :=
  let! x := a in if x then b else ret false.

Definition or_ (a b : Program bool) : Program bool :=
  let! x := a in if x then ret true else b.

(** [SdkEnvironment.getBuildEnv()], as a program. *)
Definition getBuildEnv_st : Program BuildEnvironmentKind :=
  let! dev := typeofDEV in
  if dev then ret Development
  else
    let! staging := typeofSTAGING in
    if staging then ret Staging else ret Production.

(** [SdkEnvironment.getWindowEnv()], as a program. *)
Definition getWindowEnv_st : Program WindowEnvironmentKind :=
  let! hasWindow := typeofDefined window in
  if negb hasWindow then
    let! worker :=
      and_ (typeofDefined self)
           (let! s := readGlobal "self" self in ret (hasRegistration s)) in
    if worker then ret ServiceWorker else ret Unknown
  else
    let! top := (let! w := readGlobal "window" window in ret (isTop w)) in
    if top then
      let! popup :=
        or_ (let! l := readLocation in ret (JsString.includes "initOneSignal" (href l)))
            (and_
               (and_ (let! l := readLocation in ret (String.eqb (loc_pathname l) "/subscribe"))
                     (let! l := readLocation in ret (String.eqb (search l) "")))
               (or_
                  (or_ (let! l := readLocation in
                        ret (JsString.endsWith (loc_hostname l) ".onesignal.com"))
                       (let! l := readLocation in
                        ret (JsString.endsWith (loc_hostname l) ".os.tc")))
                  (and_ (let! l := readLocation in
                         ret (JsString.includes ".localhost" (loc_hostname l)))
                        (let! buildEnv := getBuildEnv_st in
                         ret (BuildEnvironmentKind_eqb buildEnv Development))))) in
      if popup then ret OneSignalSubscriptionPopup else ret Host
    else
      let! frame :=
        or_ (let! l := readLocation in ret (String.eqb (loc_pathname l) "/webPushIframe"))
            (let! l := readLocation in ret (String.eqb (loc_pathname l) "/webPushModal")) in
      if frame then ret OneSignalProxyFrame else ret CustomIframe.

(** A process in which the harness assigns the globals between calls of
    the classifier: how the calls complete, in order. *)
Inductive ProcessStep :=
| SetGlobals (ctx : Context)
| CallGetWindowEnv.

Fixpoint runProcess (globals : Context) (steps : list ProcessStep)
  : list (Completion WindowEnvironmentKind) :=
  match steps with
  | [] => []
  | SetGlobals ctx :: rest => runProcess (snd (assignGlobals ctx globals)) rest
  | CallGetWindowEnv :: rest =>
      let '(completion, globals') := getWindowEnv_st globals in
      completion :: runProcess globals' rest
  end.

(** In the spec's words, for comparison with [runProcess]: an uncached
    classifier answers each call with the role of the globals in force
    when the call is made. *)
Fixpoint rolesInForce (globals : Context) (steps : list ProcessStep)
  : list WindowEnvironmentKind :=
  match steps with
  | [] => []
  | SetGlobals ctx :: rest => rolesInForce ctx rest
  | CallGetWindowEnv :: rest => getWindowEnv globals :: rolesInForce globals rest
  end.

(** The closed role set. *)
Definition roles : list WindowEnvironmentKind :=
  [Host; OneSignalProxyFrame; OneSignalSubscriptionPopup; CustomIframe;
   ServiceWorker; Unknown].


(** A context of each role. *)
Definition contextOf (r : WindowEnvironmentKind) : Context :=
  let loc p := mkLocation "https://example.com/" p "" "example.com" in
  match r with
  | ServiceWorker => mkContext None (Some (mkSelf true)) false false
  | Unknown => mkContext None None false false
  | Host => mkContext (Some (mkWindow true (loc "/"))) None false false
  | OneSignalSubscriptionPopup =>
      mkContext (Some (mkWindow true
        (mkLocation "https://acme.os.tc/subscribe" "/subscribe" "" "acme.os.tc")))
        None false false
  | OneSignalProxyFrame =>
      mkContext (Some (mkWindow false (loc "/webPushIframe"))) None false false
  | CustomIframe => mkContext (Some (mkWindow false (loc "/"))) None false false
  end.

Definition getBuildEnvPrefix (buildEnv : BuildEnvironmentKind) : string :=
  match buildEnv with
  | Development => "Dev-"
  | Staging => "Staging-"
  | Production => ""
  end.

(** [new URL('https://localhost:3001/api/v1/')] and its siblings. *)
Definition getOneSignalApiUrl (buildEnv : BuildEnvironmentKind) : Url.URL :=
  match buildEnv with
  | Development => Url.mkURL "https:" "localhost" "3001" "/api/v1/"
  | Staging => Url.mkURL "https:" "onesignal-staging.pw" "" "/api/v1/"
  | Production => Url.mkURL "https:" "onesignal.com" "" "/api/v1"
  end.

End SdkEnvironment.

(* ===================================================================== *)
(** * AltOriginManager *)
(* ===================================================================== *)

Module AltOriginManager.

Import SdkEnvironment.

(** The fields of [AppConfig] the manager reads. *)
Record AppConfig := mkAppConfig {
  subdomain : string;
  useLegacyDomain : bool
}.

(** [AltOriginManager.getCanonicalSubscriptionUrl(config, buildEnv)]. *)
Definition getCanonicalSubscriptionUrl (config : AppConfig)
    (buildEnv : BuildEnvironmentKind) : Url.URL :=
  let url := getOneSignalApiUrl buildEnv in
  let url := Url.set_pathname url "" in
  let url := Url.set_host url (JsString.join "." [subdomain config; Url.host url]) in
  if negb (useLegacyDomain config) && BuildEnvironmentKind_eqb buildEnv Production
  then Url.set_host url (JsString.join "." [subdomain config; "os.tc"])
  else url.

(** The default argument [buildEnv = SdkEnvironment.getBuildEnv()]. *)
Definition getCanonicalSubscriptionUrl_default (ctx : Context) (config : AppConfig)
  : Url.URL :=
  getCanonicalSubscriptionUrl config (getBuildEnv ctx).

Definition getOneSignalProxyIframeUrl (ctx : Context) (config : AppConfig) : Url.URL :=
  Url.set_pathname (getCanonicalSubscriptionUrl_default ctx config) "webPushIframe".

Definition getOneSignalSubscriptionPopupUrl (ctx : Context) (config : AppConfig) : Url.URL :=
  Url.set_pathname (getCanonicalSubscriptionUrl_default ctx config) "subscribe".

(** The candidate hosts this source derives for a configuration: the one
    canonical URL's host. *)
Definition candidateHosts (config : AppConfig) (buildEnv : BuildEnvironmentKind)
  : list string :=
  [Url.host (getCanonicalSubscriptionUrl config buildEnv)].

(** The derivation in the spec's words, for comparison with
    [candidateHosts]: the legacy-domain candidate
    [{subdomain}.{environment-api-host}] when legacy is enabled, followed by
    the short-domain candidate [{subdomain}.os.tc], always; the port is the
    environment's. *)
Definition candidateHosts_spec (config : AppConfig) (buildEnv : BuildEnvironmentKind)
  : list string :=
  let api := getOneSignalApiUrl buildEnv in
  (if useLegacyDomain config
   then [Url.host (Url.set_host api (JsString.join "." [subdomain config; Url.host api]))]
   else [])
  ++ [Url.host (Url.set_host api (JsString.join "." [subdomain config; "os.tc"]))].

(** ** Discovery *)

(** Modelled from the spec: the CandidateOrigin of section 3, its position
    in the configured order and its host. *)
Record CandidateOrigin := mkCandidate {
  priority : nat;
  cand_host : string
}.

(** Modelled from the spec: how the probe of one candidate (load the
    frame, then ask [isSubscribed], under the discovery-level timeout) has
    settled: resolved, rejected or timed out. *)
Inductive ProbeOutcome :=
| Reported (subscribed : bool)
| ProbeRejected
| ProbeTimedOut.

Definition reportsTrue (o : ProbeOutcome) : bool :=
  match o with
  | Reported true => true
  | _ => false
  end.

(** Modelled from the spec: the one fatal error, a configuration with zero
    candidates. *)
Inductive DiscoveryError := NoCandidates.

(** Modelled from the spec: the DiscoveryResult of section 3, the selected
    candidate, with the candidates whose controllers were disposed. *)
Record DiscoveryResult := mkDiscoveryResult {
  selected : CandidateOrigin;
  disposed : list CandidateOrigin
}.

(** Modelled from the spec: the candidate list of a discovery run, numbered
    in configured order ([AltOriginManager.discoverAltOrigin] and the list it
    walks are called by the unit tests but are not among the sources). *)
Definition candidatesOf (hosts : list string) : list CandidateOrigin :=
  imap mkCandidate hosts.

(** Modelled from the spec: the candidate of highest priority, which is
    the one with the least index; between equal priorities the earlier
    one in the list. *)
Fixpoint highestPriority (cs : list CandidateOrigin) : option CandidateOrigin :=
  match cs with
  | [] => None
  | c :: rest =>
      match highestPriority rest with
      | Some d => if Nat.leb (priority c) (priority d) then Some c else Some d
      | None => Some c
      end
  end.

(** Modelled from the spec: the resolution rules of discovery (section 4.4),
    applied once all probes have settled:
    1. exactly one candidate reports subscribed=true: it wins;
    2. more than one reports true: the highest-priority one wins;
    3. none reports true (failures and timeouts included): the
       lowest-priority fallback candidate, the last one, wins. *)
Definition resolveWinner (candidates : list CandidateOrigin)
    (probe : CandidateOrigin -> ProbeOutcome) : option CandidateOrigin :=
  match List.filter (fun c => reportsTrue (probe c)) candidates with
  | [] => last candidates
  | [c] => Some c
  | subscribed => highestPriority subscribed
  end.

Definition CandidateOrigin_eqb (a b : CandidateOrigin) : bool :=
  Nat.eqb (priority a) (priority b) && String.eqb (cand_host a) (cand_host b).

(** Modelled from the spec: [discover]. The winner stays connected and is
    returned; every other candidate's controller is disposed. Zero
    candidates is the one fatal (configuration) error. *)
Definition discover (hosts : list string) (probe : CandidateOrigin -> ProbeOutcome)
  : DiscoveryError + DiscoveryResult :=
  let candidates := candidatesOf hosts in
  match resolveWinner candidates probe with
  | None => inl NoCandidates
  | Some w =>
      inr {| selected := w;
             disposed := List.filter (fun c => negb (CandidateOrigin_eqb c w)) candidates |}
  end.

End AltOriginManager.

(* ===================================================================== *)
(** * Postmam: the message channel *)
(* ===================================================================== *)

Module Postmam.

(** Serializable values carried by messages. *)
Inductive Value :=
| VUndefined
| VNull
| VBool (b : bool)
| VString (s : string)
| VArray (items : list Value)
| VObject (fields : list (string * Value)).

(** [obj.name], [undefined] when the property is missing. *)
Fixpoint getField (name : string) (fields : list (string * Value)) : Value :=
  match fields with
  | [] => VUndefined
  | (k, v) :: rest => if String.eqb k name then v else getField name rest
  end.

(** Modelled from the spec: the table [OneSignal.POSTMAM_COMMANDS] is used
    by both frame classes but is not among the sources; a command is
    represented by its name in the table, as in the command vocabulary of
    the spec (section 6). *)
Module Commands.
Definition CONNECTED := "CONNECTED".
Definition REMOTE_RETRIGGER_EVENT := "REMOTE_RETRIGGER_EVENT".
Definition REMOTE_NOTIFICATION_PERMISSION_CHANGED := "REMOTE_NOTIFICATION_PERMISSION_CHANGED".
Definition REQUEST_HOST_URL := "REQUEST_HOST_URL".
Definition SERVICEWORKER_COMMAND_REDIRECT := "SERVICEWORKER_COMMAND_REDIRECT".
Definition HTTP_PERMISSION_REQUEST_RESUBSCRIBE := "HTTP_PERMISSION_REQUEST_RESUBSCRIBE".
Definition IFRAME_POPUP_INITIALIZE := "IFRAME_POPUP_INITIALIZE".
Definition REMOTE_OPERATION_COMPLETE := "REMOTE_OPERATION_COMPLETE".
Definition REMOTE_NOTIFICATION_PERMISSION := "REMOTE_NOTIFICATION_PERMISSION".
Definition REMOTE_DATABASE_GET := "REMOTE_DATABASE_GET".
Definition REMOTE_DATABASE_PUT := "REMOTE_DATABASE_PUT".
Definition REMOTE_DATABASE_REMOVE := "REMOTE_DATABASE_REMOVE".
Definition UNSUBSCRIBE_FROM_PUSH := "UNSUBSCRIBE_FROM_PUSH".
Definition SHOW_HTTP_PERMISSION_REQUEST := "SHOW_HTTP_PERMISSION_REQUEST".
Definition IS_SHOWING_HTTP_PERMISSION_REQUEST := "IS_SHOWING_HTTP_PERMISSION_REQUEST".
Definition MARK_PROMPT_DISMISSED := "MARK_PROMPT_DISMISSED".
Definition IS_SUBSCRIBED := "IS_SUBSCRIBED".
End Commands.

(** Modelled from the spec: the Envelope of section 3 ([Postmam.ts] is
    imported by the frame classes but is not among the sources). *)
Record Envelope := mkEnvelope {
  correlationId : nat;
  command : string;
  payload : Value;
  expectsReply : bool;
  sourceOriginToken : string
}.

(** Modelled from the spec: an inbound delivery, the envelope and the
    origin the transport claims it comes from. *)
Record Inbound := mkInbound {
  claimedOrigin : string;
  envelope : Envelope
}.

(** Modelled from the spec: the lifecycle of a Channel. *)
Inductive Lifecycle := Constructed | Listening | Destroyed.

Section Channel.

(** [H] names the handlers a side can register, [K] the callbacks it can
    leave waiting for a reply. *)
Context {H K : Type}.

(** Modelled from the spec: the Channel of section 3, with its single
    trusted remote origin, its registry (one handler per command) and its
    pending replies, by correlation id. *)
Record Channel := mkChannel {
  localIdentity : string;
  remoteOrigin : string;
  registry : gmap string H;
  pendingReplies : gmap nat K;
  nextCorrelationId : nat;
  lifecycle : Lifecycle;
  sentConnected : bool;
  receivedConnected : bool
}.

(** Modelled from the spec: what the dispatch of one inbound message
    amounts to. *)
Inductive Dispatch :=
| Dropped                                   (* nothing runs *)
| FulfilReply (k : K) (reply : Envelope)    (* the pending reply's callback runs *)
| RunHandler (h : H) (message : Envelope)   (* the command's handler runs *)
| Unhandled.                                (* no handler for the command *)

(** Modelled from the spec: [open(transport, remoteOrigin, localOrigin)],
    the constructor [new Postmam(window, sendToOrigin, receiveFromOrigin)]. *)
Definition open (remote localId : string) : Channel :=
  {| localIdentity := localId; remoteOrigin := remote;
     registry := ∅; pendingReplies := ∅; nextCorrelationId := 0;
     lifecycle := Constructed; sentConnected := false; receivedConnected := false |}.

(** Modelled from the spec: [on(command, handler)]; registering a command
    again replaces the earlier handler. *)
Definition on (command : string) (handler : H) (ch : Channel) : Channel :=
  {| localIdentity := localIdentity ch; remoteOrigin := remoteOrigin ch;
     registry := <[command := handler]> (registry ch);
     pendingReplies := pendingReplies ch;
     nextCorrelationId := nextCorrelationId ch;
     lifecycle := lifecycle ch; sentConnected := sentConnected ch;
     receivedConnected := receivedConnected ch |}.

(** Modelled from the spec: [send(command, payload, expectsReply)], the
    method [message(command, data, onReply)]. A fresh correlation id is
    allocated; with a reply callback a PendingReply is recorded. The
    envelope to post is returned with the channel. *)
Definition message (command : string) (data : Value) (onReply : option K)
    (ch : Channel) : Channel * Envelope :=
  let id := nextCorrelationId ch in
  ({| localIdentity := localIdentity ch; remoteOrigin := remoteOrigin ch;
      registry := registry ch;
      pendingReplies :=
        match onReply with
        | Some k => <[id := k]> (pendingReplies ch)
        | None => pendingReplies ch
        end;
      nextCorrelationId := S id;
      lifecycle := lifecycle ch; sentConnected := sentConnected ch;
      receivedConnected := receivedConnected ch |},
   {| correlationId := id; command := command; payload := data;
      expectsReply := match onReply with Some _ => true | None => false end;
      sourceOriginToken := localIdentity ch |}).

(** Modelled from the spec: the frame side starts listening and waits for
    the handshake. *)
Definition listen (ch : Channel) : Channel :=
  {| localIdentity := localIdentity ch; remoteOrigin := remoteOrigin ch;
     registry := registry ch; pendingReplies := pendingReplies ch;
     nextCorrelationId := nextCorrelationId ch;
     lifecycle := Listening; sentConnected := sentConnected ch;
     receivedConnected := receivedConnected ch |}.

(** Modelled from the spec: the host side starts listening and sends the
    one-way [CONNECTED] command of the handshake. *)
Definition connect (ch : Channel) : Channel * Envelope :=
  let '(ch', env) := message Commands.CONNECTED VNull None (listen ch) in
  ({| localIdentity := localIdentity ch'; remoteOrigin := remoteOrigin ch';
      registry := registry ch'; pendingReplies := pendingReplies ch';
      nextCorrelationId := nextCorrelationId ch';
      lifecycle := lifecycle ch'; sentConnected := true;
      receivedConnected := receivedConnected ch' |}, env).

(** Modelled from the spec: [reply(payload)] on an inbound envelope: a
    reply envelope tagged with the original correlation id. *)
Definition reply (ch : Channel) (inbound : Envelope) (data : Value) : Envelope :=
  {| correlationId := correlationId inbound; command := command inbound;
     payload := data; expectsReply := false;
     sourceOriginToken := localIdentity ch |}.

(** Modelled from the spec: [destroy()] unregisters all handlers and
    rejects every outstanding PendingReply; the callbacks of the rejected
    replies are returned with the channel. Destroying twice changes
    nothing more. *)
Definition destroy (ch : Channel) : Channel * list K :=
  ({| localIdentity := localIdentity ch; remoteOrigin := remoteOrigin ch;
      registry := ∅; pendingReplies := ∅;
      nextCorrelationId := nextCorrelationId ch;
      lifecycle := Destroyed; sentConnected := sentConnected ch;
      receivedConnected := receivedConnected ch |},
   snd <$> map_to_list (pendingReplies ch)).

(** Modelled from the spec: the handshake records that [CONNECTED] has
    been received. *)
Definition noteConnected (ch : Channel) : Channel :=
  {| localIdentity := localIdentity ch; remoteOrigin := remoteOrigin ch;
     registry := registry ch; pendingReplies := pendingReplies ch;
     nextCorrelationId := nextCorrelationId ch;
     lifecycle := lifecycle ch; sentConnected := sentConnected ch;
     receivedConnected := true |}.

(** Modelled from the spec: a PendingReply is removed on fulfilment. *)
Definition forget (id : nat) (ch : Channel) : Channel :=
  {| localIdentity := localIdentity ch; remoteOrigin := remoteOrigin ch;
     registry := registry ch; pendingReplies := delete id (pendingReplies ch);
     nextCorrelationId := nextCorrelationId ch;
     lifecycle := lifecycle ch; sentConnected := sentConnected ch;
     receivedConnected := receivedConnected ch |}.

(** Modelled from the spec: the channel is established once [CONNECTED]
    was both sent and received. *)
Definition established (ch : Channel) : bool :=
  sentConnected ch && receivedConnected ch.

(** Modelled from the spec: inbound dispatch (section 4.1). The claimed
    origin is verified against the one trusted origin and a mismatch is
    dropped silently. A reply (its correlation id matches a PendingReply)
    fulfils that PendingReply and stops; anything else is dispatched by
    command name. A channel that is not listening dispatches nothing. *)
Definition receive (ch : Channel) (msg : Inbound) : Channel * Dispatch :=
  match lifecycle ch with
  | Listening =>
      if negb (String.eqb (claimedOrigin msg) (remoteOrigin ch)) then (ch, Dropped)
      else
        let env := envelope msg in
        match pendingReplies ch !! correlationId env with
        | Some k => (forget (correlationId env) ch, FulfilReply k env)
        | None =>
            let ch := if String.eqb (command env) Commands.CONNECTED
                      then noteConnected ch else ch in
            match registry ch !! command env with
            | Some h => (ch, RunHandler h env)
            | None => (ch, Unhandled)
            end
        end
  | _ => (ch, Dropped)
  end.

End Channel.

Arguments Channel : clear implicits.
Arguments Dispatch : clear implicits.

End Postmam.

(* ===================================================================== *)
(** * The browser around a ProxyFrameHost: document, promises, timers *)
(* ===================================================================== *)

Module Browser.

Import Postmam.

Inductive JsError :=
| TypeError (message : string)
| SyntaxError (message : string)
| TimeoutError.

Inductive PromiseState :=
| Pending
| Fulfilled (v : Value)
| Rejected (e : JsError).

(** An iframe element attached to [document.body]. *)
Record IFrame := mkIFrame {
  frameId : nat;
  src : string;
  display : string;
  sandbox : string
}.

(** A timer started by [timeoutPromise(promise, ms)]: its delay, the
    promise it guards and the promise of the race between the two. *)
Record Timer := mkTimer {
  delay : N;                 (* milliseconds *)
  watched : nat;
  race : nat
}.

(** A rejection handler attached with [.catch]. *)
Inductive Reaction :=
| WarnLoadTimedOut (url : string).

(** What a handler does to the page besides posting messages. *)
Inductive Effect :=
| TriggerEvent (eventName eventData : Value)
| TriggerNotificationPermissionChanged (forceUpdatePermission : Value)
| Navigate (href : Value)
| ShowHttpPrompt.

(** The globals of the page that the host reads and never writes. *)
Record Page := mkPage {
  windowIsTop : bool;        (* window === window.top *)
  locationHref : string;
  locationOrigin : string;
  documentTitle : string;
  config : Value;            (* OneSignal.config *)
  dbDefaultUrl : Value;      (* Database.get('Options', 'defaultUrl') *)
  dbDefaultTitle : Value     (* Database.get('Options', 'defaultTitle') *)
}.

Record World := mkWorld {
  page : Page;
  body : list IFrame;              (* the iframes of document.body, in document order *)
  nextFrameId : nat;
  promises : list PromiseState;    (* a promise is its index in this heap *)
  timers : list Timer;
  catches : list (nat * Reaction);
  warnings : list string;          (* log.warn *)
  posted : list Envelope;          (* envelopes posted to frame windows *)
  effects : list Effect
}.

Definition setBody (b : list IFrame) (n : nat) (w : World) : World :=
  mkWorld (page w) b n (promises w) (timers w) (catches w) (warnings w)
          (posted w) (effects w).

Definition setPromises (ps : list PromiseState) (w : World) : World :=
  mkWorld (page w) (body w) (nextFrameId w) ps (timers w) (catches w) (warnings w)
          (posted w) (effects w).

Definition setTimers (ts : list Timer) (w : World) : World :=
  mkWorld (page w) (body w) (nextFrameId w) (promises w) ts (catches w) (warnings w)
          (posted w) (effects w).

Definition setCatches (cs : list (nat * Reaction)) (w : World) : World :=
  mkWorld (page w) (body w) (nextFrameId w) (promises w) (timers w) cs (warnings w)
          (posted w) (effects w).

Definition warn (msg : string) (w : World) : World :=
  mkWorld (page w) (body w) (nextFrameId w) (promises w) (timers w) (catches w)
          (warnings w ++ [msg]) (posted w) (effects w).

Definition post (env : Envelope) (w : World) : World :=
  mkWorld (page w) (body w) (nextFrameId w) (promises w) (timers w) (catches w)
          (warnings w) (posted w ++ [env]) (effects w).

Definition perform (e : Effect) (w : World) : World :=
  mkWorld (page w) (body w) (nextFrameId w) (promises w) (timers w) (catches w)
          (warnings w) (posted w) (effects w ++ [e]).

(** JavaScript truthiness of a value. *)
Definition truthy (v : Value) : bool :=
  match v with
  | VUndefined | VNull => false
  | VBool b => b
  | VString s => negb (String.eqb s "")
  | VArray _ | VObject _ => true
  end.

(** ** JSON *)

(** [JSON.parse(JSON.stringify(v))], the copy that drops what cannot be
    sent in a message. [JSON.stringify(undefined)] is [undefined], not a
    text, and [JSON.parse] of it throws a SyntaxError: that is [None].
    Inside an array an [undefined] item is written as [null]; inside an
    object a property whose value is [undefined] is left out. *)
Fixpoint jsonRoundTrip (v : Value) : option Value :=
  match v with
  | VUndefined => None
  | VNull => Some VNull
  | VBool b => Some (VBool b)
  | VString s => Some (VString s)
  | VArray items =>
      Some (VArray (List.map (fun item => match jsonRoundTrip item with
                                          | Some copy => copy
                                          | None => VNull
                                          end) items))
  | VObject fields =>
      Some (VObject
        ((fix copyFields (fs : list (string * Value)) : list (string * Value) :=
            match fs with
            | [] => []
            | (k, x) :: rest =>
                match jsonRoundTrip x with
                | Some copy => (k, copy) :: copyFields rest
                | None => copyFields rest
                end
            end) fields))
  end.

(** The error [JSON.parse(undefined)] throws. *)
Definition jsonParseUndefined : JsError :=
  SyntaxError "Unexpected token u in JSON at position 0".

(** ** The document *)

(** [document.querySelector(sel)] followed by [.remove()] on the element
    found: the first element in document order that matches is taken out. *)
Fixpoint removeFirst (matches : IFrame -> bool) (frames : list IFrame) : list IFrame :=
  match frames with
  | [] => []
  | f :: rest => if matches f then rest else f :: removeFirst matches rest
  end.

(** The selector [iFrame[src='URL'] of [removeFrame]: an iframe whose
    [src] attribute is the URL. (The source leaves the bracket open; the
    end of the selector text closes it.) *)
Definition hasSrc (url : string) (f : IFrame) : bool := String.eqb (src f) url.

(** The number of attached iframes with a given [src]. *)
Definition attached (url : string) (w : World) : nat :=
  length (List.filter (hasSrc url) (body w)).

(** Handlers and timers refer to promises that have been created. *)
Definition wellFormed (w : World) : Prop :=
  Forall (fun c => fst c < length (promises w)) (catches w) /\
  Forall (fun t => watched t < length (promises w) /\ race t < length (promises w))
         (timers w).

(** A page on which nothing has happened yet. *)
Definition freshWorld (pg : Page) : World :=
  mkWorld pg [] 0 [] [] [] [] [] [].

(** ** Promises *)

(** [new Promise(...)] whose executor leaves it pending. *)
Definition newPromise (w : World) : nat * World :=
  (length (promises w), setPromises (promises w ++ [Pending]) w).

Definition loadTimedOutWarning (url origin : string) : string :=
  "OneSignal: Loading the required iFrame " +:+ url +:+
  " timed out. Check that the Site URL onesignal.com dashboard web config is " +:+
  origin +:+
  ". Only the Site URL specified there is allowed to use load the iFrame.".

(** The body of the rejection handler in [load]. *)
Definition runReaction (r : Reaction) (w : World) : World :=
  match r with
  | WarnLoadTimedOut url =>
      if windowIsTop (page w)
      then warn (loadTimedOutWarning url (locationOrigin (page w))) w
      else w
  end.

Definition runCatches (p : nat) (w : World) : World :=
  foldl (fun w '(q, r) => if Nat.eqb q p then runReaction r w else w) w (catches w).

(** Settles one promise. A promise settles at most once: settling a
    promise that is no longer pending does nothing. A rejection runs the
    handlers attached with [.catch]. *)
Definition settle1 (p : nat) (st : PromiseState) (w : World) : World :=
  match promises w !! p with
  | Some Pending =>
      let w := setPromises (<[p := st]> (promises w)) w in
      match st with
      | Rejected _ => runCatches p w
      | _ => w
      end
  | _ => w
  end.

(** Settles a promise and, with it, every race it takes part in. *)
Definition settle (p : nat) (st : PromiseState) (w : World) : World :=
  match promises w !! p with
  | Some Pending =>
      foldl (fun w t => if Nat.eqb (watched t) p then settle1 (race t) st w else w)
            (settle1 p st w) (timers w)
  | _ => w
  end.

(** Modelled from the spec: [timeoutPromise(promise, ms)] of [utils] is
    imported by [ProxyFrameHost.ts] but is not among the sources. It
    returns the race of [promise] against a timer of [ms] milliseconds that
    rejects with a Timeout error; the promise passed in is not touched. *)
Definition timeoutPromise (p : nat) (ms : N) (w : World) : nat * World :=
  let r := length (promises w) in
  let start := match promises w !! p with
               | Some st => st
               | None => Pending
               end in
  (r, setTimers (timers w ++ [mkTimer ms p r]) (setPromises (promises w ++ [start]) w)).

(** [promise.catch(handler)]; a promise that is already rejected runs the
    handler at once. *)
Definition catch_ (p : nat) (r : Reaction) (w : World) : World :=
  let w := setCatches (catches w ++ [(p, r)]) w in
  match promises w !! p with
  | Some (Rejected _) => runReaction r w
  | _ => w
  end.

(** The [k]-th pending timer elapses: the race it belongs to is rejected
    with a Timeout error, unless it has settled already. *)
Definition elapse (k : nat) (w : World) : World :=
  match timers w !! k with
  | Some t => settle1 (race t) (Rejected TimeoutError) (setTimers (delete k (timers w)) w)
  | None => w
  end.

End Browser.

(* ===================================================================== *)
(** * ProxyFrameHost *)
(* ===================================================================== *)

Module ProxyFrameHost.

Import Postmam Browser.

(** The methods registered as command handlers. *)
Inductive Handler :=
| OnMessengerConnect
| OnRemoteRetriggerEvent
| OnRemoteNotificationPermissionChanged
| OnRequestHostUrl
| OnServiceWorkerCommandRedirect
| OnHttpPermissionRequestResubscribe.

(** The reply callbacks the host passes to [messenger.message]. *)
Inductive ReplyCallback :=
| InitializeReply                  (* the callback in onMessengerConnect *)
| IsSubscribedReply (promise : nat). (* reply => resolve(reply.data) *)

(** The fields of a [ProxyFrameHost]; [None] is JavaScript's [undefined]. *)
Record Host := mkHost {
  url : Url.URL;
  element : option nat;
  messenger : option (Channel Handler ReplyCallback);
  loadPromise : option nat
}.

(** The outcome of a method that can throw, with the state it leaves. *)
Inductive Outcome :=
| Returned (h : Host) (w : World)
| Threw (e : JsError) (h : Host) (w : World).

Definition LOAD_TIMEOUT_MS : N := 15000.

Definition iframeSandbox : string :=
  "allow-popups allow-popups-to-escape-sandbox allow-same-origin allow-scripts allow-top-navigation".

(** [new ProxyFrameHost(origin)] *)
Definition new (origin : Url.URL) : Host :=
  {| url := Url.set_pathname origin "webPushIframe";
     element := None; messenger := None; loadPromise := None |}.

Definition removeFrame (h : Host) (w : World) : World :=
  setBody (removeFirst (hasSrc (Url.toString (url h))) (body w)) (nextFrameId w) w.

(** [load()]: the state it leaves and the promise it returns, which is
    [this.loadPromise.promise]. *)
Definition load (h : Host) (w : World) : Host * World * nat :=
  let w := removeFrame h w in
  let iframe := {| frameId := nextFrameId w; src := Url.toString (url h);
                   display := "none"; sandbox := iframeSandbox |} in
  let '(p, w) := newPromise w in
  let h := {| url := url h; element := element h; messenger := messenger h;
              loadPromise := Some p |} in
  let w := setBody (body w ++ [iframe]) (S (nextFrameId w)) w in
  let h := {| url := url h; element := Some (frameId iframe);
              messenger := messenger h; loadPromise := loadPromise h |} in
  let '(r, w) := timeoutPromise p LOAD_TIMEOUT_MS w in
  let w := catch_ r (WarnLoadTimedOut (Url.toString (url h))) w in
  (h, w, p).

Definition setMessenger (m : Channel Handler ReplyCallback) (h : Host) : Host :=
  {| url := url h; element := element h; messenger := Some m;
     loadPromise := loadPromise h |}.

Definition establishCrossOriginMessaging (h : Host) (w : World) : Outcome :=
  let h := match messenger h with
           | Some m => setMessenger (fst (destroy m)) h
           | None => h
           end in
  match element h with
  | None => Threw (TypeError "Cannot read property 'contentWindow' of undefined") h w
  | Some _ =>
      let m := open (Url.toString (url h)) (Url.toString (url h)) in
      let m := on Commands.CONNECTED OnMessengerConnect m in
      let m := on Commands.REMOTE_RETRIGGER_EVENT OnRemoteRetriggerEvent m in
      let m := on Commands.REMOTE_NOTIFICATION_PERMISSION_CHANGED
                  OnRemoteNotificationPermissionChanged m in
      let m := on Commands.REQUEST_HOST_URL OnRequestHostUrl m in
      let m := on Commands.SERVICEWORKER_COMMAND_REDIRECT
                  OnServiceWorkerCommandRedirect m in
      let m := on Commands.HTTP_PERMISSION_REQUEST_RESUBSCRIBE
                  OnHttpPermissionRequestResubscribe m in
      let '(m, env) := connect m in
      Returned (setMessenger m h) (post env w)
  end.

(** The registry [establishCrossOriginMessaging] installs. *)
Definition hostRegistry : gmap string Handler :=
  <[Commands.HTTP_PERMISSION_REQUEST_RESUBSCRIBE := OnHttpPermissionRequestResubscribe]>
  (<[Commands.SERVICEWORKER_COMMAND_REDIRECT := OnServiceWorkerCommandRedirect]>
  (<[Commands.REQUEST_HOST_URL := OnRequestHostUrl]>
  (<[Commands.REMOTE_NOTIFICATION_PERMISSION_CHANGED := OnRemoteNotificationPermissionChanged]>
  (<[Commands.REMOTE_RETRIGGER_EVENT := OnRemoteRetriggerEvent]>
  (<[Commands.CONNECTED := OnMessengerConnect]> ∅))))).

(** The messenger [establishCrossOriginMessaging] leaves: opened towards
    the frame's URL, the six handlers registered, listening, [CONNECTED]
    sent. *)
Definition hostChannel (u : string) : Channel Handler ReplyCallback :=
  mkChannel u u hostRegistry ∅ 1 Listening true false.

Definition onFrameLoad (h : Host) (w : World) : Outcome :=
  establishCrossOriginMessaging h w.

(** [dispose()]: [this.messenger.destroy()] on an undefined messenger
    throws a TypeError before anything else happens. *)
Definition dispose (h : Host) (w : World) : Outcome :=
  match messenger h with
  | None => Threw (TypeError "Cannot read property 'destroy' of undefined") h w
  | Some m => Returned (setMessenger (fst (destroy m)) h) (removeFrame h w)
  end.

(** [message(...args)]: the shortcut to [messenger.message]. *)
Definition message (command : string) (data : Value) (onReply : option ReplyCallback)
    (h : Host) (w : World) : Outcome :=
  match messenger h with
  | None => Threw (TypeError "Cannot read property 'message' of undefined") h w
  | Some m =>
      let '(m, env) := Postmam.message command data onReply m in
      Returned (setMessenger m h) (post env w)
  end.

(** [onMessengerConnect(e)]. The callee [this.messenger.message] is
    evaluated before the arguments, so an undefined messenger throws its
    TypeError first; then the payload is built, and
    [JSON.parse(JSON.stringify(OneSignal.config))] throws a SyntaxError
    for an undefined config before anything is posted. *)
Definition onMessengerConnect (e : Envelope) (h : Host) (w : World) : Outcome :=
  let defaultUrl := if truthy (dbDefaultUrl (page w)) then dbDefaultUrl (page w)
                    else VString (locationHref (page w)) in
  let defaultTitle := if truthy (dbDefaultTitle (page w)) then dbDefaultTitle (page w)
                      else VString (documentTitle (page w)) in
  match messenger h with
  | None => Threw (TypeError "Cannot read property 'message' of undefined") h w
  | Some _ =>
      match jsonRoundTrip (config (page w)) with
      | None => Threw jsonParseUndefined h w
      | Some hostInitOptions =>
          message Commands.IFRAME_POPUP_INITIALIZE
            (VObject [("hostInitOptions", hostInitOptions);
                      ("defaultUrl", defaultUrl);
                      ("pageUrl", VString (locationHref (page w)));
                      ("pageTitle", defaultTitle)])
            (Some InitializeReply) h w
      end
  end.

Definition onRemoteRetriggerEvent (e : Envelope) (h : Host) (w : World) : Outcome :=
  match payload e with
  | VObject fields =>
      Returned h (perform (TriggerEvent (getField "eventName" fields)
                                        (getField "eventData" fields)) w)
  | VUndefined | VNull =>
      Threw (TypeError "Cannot destructure property of undefined or null") h w
  | _ => Returned h (perform (TriggerEvent VUndefined VUndefined) w)
  end.

Definition onRemoteNotificationPermissionChanged (e : Envelope) (h : Host) (w : World)
  : Outcome :=
  match payload e with
  | VObject fields =>
      Returned h (perform (TriggerNotificationPermissionChanged
                             (getField "forceUpdatePermission" fields)) w)
  | VUndefined | VNull =>
      Threw (TypeError "Cannot destructure property of undefined or null") h w
  | _ => Returned h (perform (TriggerNotificationPermissionChanged VUndefined) w)
  end.

Definition onRequestHostUrl (e : Envelope) (h : Host) (w : World) : Outcome :=
  match messenger h with
  | Some m => Returned h (post (reply m e (VString (locationHref (page w)))) w)
  | None => Returned h w
  end.

Definition onServiceWorkerCommandRedirect (e : Envelope) (h : Host) (w : World)
  : Outcome :=
  Returned h (perform (Navigate (payload e)) w).

Definition onHttpPermissionRequestResubscribe (e : Envelope) (h : Host) (w : World)
  : Outcome :=
  Returned h (perform ShowHttpPrompt w).

Definition runHandler (hd : Handler) : Envelope -> Host -> World -> Outcome :=
  match hd with
  | OnMessengerConnect => onMessengerConnect
  | OnRemoteRetriggerEvent => onRemoteRetriggerEvent
  | OnRemoteNotificationPermissionChanged => onRemoteNotificationPermissionChanged
  | OnRequestHostUrl => onRequestHostUrl
  | OnServiceWorkerCommandRedirect => onServiceWorkerCommandRedirect
  | OnHttpPermissionRequestResubscribe => onHttpPermissionRequestResubscribe
  end.

(** The bodies of the two reply callbacks. *)
Definition runCallback (k : ReplyCallback) (reply : Envelope) (h : Host) (w : World)
  : Outcome :=
  match k with
  | InitializeReply =>
      match payload reply with
      | VString s =>
          if String.eqb s Commands.REMOTE_OPERATION_COMPLETE then
            match loadPromise h with
            | Some p => Returned h (settle p (Fulfilled VUndefined) w)
            | None => Threw (TypeError "Cannot read property 'resolver' of undefined") h w
            end
          else Returned h w
      | _ => Returned h w
      end
  | IsSubscribedReply p => Returned h (settle p (Fulfilled (payload reply)) w)
  end.

(** A message event reaches the host's window: the messenger dispatches
    it to a reply callback or to a handler. *)
Definition deliver (msg : Inbound) (h : Host) (w : World) : Outcome :=
  match messenger h with
  | None => Returned h w
  | Some m =>
      let '(m, d) := receive m msg in
      let h := setMessenger m h in
      match d with
      | Dropped | Unhandled => Returned h w
      | FulfilReply k reply => runCallback k reply h w
      | RunHandler hd e => runHandler hd e h w
      end
  end.

(** [isSubscribed()]: the state it leaves and the promise it returns. The
    executor runs at once; if it throws, the promise is rejected. *)
Definition isSubscribed (h : Host) (w : World) : Host * World * nat :=
  let '(p, w) := newPromise w in
  match message Commands.IS_SUBSCRIBED VNull (Some (IsSubscribedReply p)) h w with
  | Returned h w => (h, w, p)
  | Threw e h w => (h, settle p (Rejected e) w, p)
  end.

(** A run of [load()] calls by a list of hosts, one after the other, on
    one page. *)
Definition loads (hosts : list Host) (w : World) : World :=
  foldl (fun w h => snd (fst (load h w))) w hosts.

(** A message event from the host's frame, as the frame's window posts
    it: the claimed origin is the one the messenger was opened with. *)
Definition fromFrame (h : Host) (id : nat) (command : string) (data : Value) : Inbound :=
  {| claimedOrigin := Url.toString (url h);
     envelope := {| correlationId := id; command := command; payload := data;
                    expectsReply := false;
                    sourceOriginToken := Url.toString (url h) |} |}.

(** The state after an outcome, whether it returned or threw. *)
Definition hostAfter (o : Outcome) : Host :=
  match o with Returned h _ | Threw _ h _ => h end.

Definition worldAfter (o : Outcome) : World :=
  match o with Returned _ w | Threw _ _ w => w end.

(** A run of message events reaching the host's window, one after the
    other; an event whose handler throws does not keep the next one from
    being delivered. *)
Definition deliverAll (msgs : list Inbound) (h : Host) (w : World) : Host * World :=
  foldl (fun '(h, w) msg => let o := deliver msg h w in (hostAfter o, worldAfter o))
        (h, w) msgs.

End ProxyFrameHost.

(* ===================================================================== *)
(** * ProxyFrame *)
(* ===================================================================== *)

Module ProxyFrame.

Import Postmam Browser.

(** The methods registered as command handlers. *)
Inductive Handler :=
| OnMessengerConnect
| OnProxyFrameInitializing
| OnRemoteNotificationPermission
| OnRemoteDatabaseGet
| OnRemoteDatabasePut
| OnRemoteDatabaseRemove
| OnUnsubscribeFromPush
| OnShowHttpPermissionRequest
| OnIsShowingHttpPermissionRequest
| OnMarkPromptDismissed
| OnIsSubscribed.

(** What one run of a handler amounts to for the sender: the value passed
    to [message.reply], if it is called, and the value returned; or the
    error thrown; or nothing yet, while an awaited promise is pending. *)
Inductive HandlerResult :=
| Replied (data : Value) (returned : bool)
| Thrown (e : JsError)
| Awaiting.

(** The frame's messenger; the frame passes no reply callbacks. *)
Record Frame := mkFrame {
  originUrl : Url.URL;                  (* this.options.originUrl *)
  messenger : option (Channel Handler Empty_set)
}.

Definition establishCrossOriginMessaging (f : Frame) : Frame :=
  let m := open (Url.origin (originUrl f)) (Url.origin (originUrl f)) in
  let m := on Commands.CONNECTED OnMessengerConnect m in
  let m := on Commands.IFRAME_POPUP_INITIALIZE OnProxyFrameInitializing m in
  let m := on Commands.REMOTE_NOTIFICATION_PERMISSION OnRemoteNotificationPermission m in
  let m := on Commands.REMOTE_DATABASE_GET OnRemoteDatabaseGet m in
  let m := on Commands.REMOTE_DATABASE_PUT OnRemoteDatabasePut m in
  let m := on Commands.REMOTE_DATABASE_REMOVE OnRemoteDatabaseRemove m in
  let m := on Commands.UNSUBSCRIBE_FROM_PUSH OnUnsubscribeFromPush m in
  let m := on Commands.SHOW_HTTP_PERMISSION_REQUEST OnShowHttpPermissionRequest m in
  let m := on Commands.IS_SHOWING_HTTP_PERMISSION_REQUEST
              OnIsShowingHttpPermissionRequest m in
  let m := on Commands.MARK_PROMPT_DISMISSED OnMarkPromptDismissed m in
  let m := on Commands.IS_SUBSCRIBED OnIsSubscribed m in
  {| originUrl := originUrl f; messenger := Some (listen m) |}.

(** One fulfilment seen by [Promise.all]: the value of promise [i] is
    written to slot [i] of the result array. *)
Definition fulfil (values : list Value) (slots : list (option Value)) (i : nat)
  : list (option Value) :=
  match values !! i with
  | Some v => <[i := Some v]> slots
  | None => slots
  end.

(** [Promise.all] over promises that all fulfil. The result array has one
    slot per promise; the result is there once every slot has been written.
    [order] is the order in which the promises fulfil. *)
Definition promiseAll (values : list Value) (order : list nat) : option (list Value) :=
  mapM id (foldl (fulfil values) (replicate (length values) None) order).

Section Collaborators.

(** The value the promise of [Database.get(table, key)] resolves with
    ([undefined] when the store has no such entry); the store itself is an
    injected collaborator. *)
Variable Database_get : Value -> Value -> Value.

(** The value the promise of [OneSignal.isPushNotificationsEnabled()]
    resolves with: the current push-subscription state. *)
Variable isPushNotificationsEnabled : bool.

(** [Database.get(table, key)] for the [table] and [key] of an object. *)
Definition lookupOf (fields : list (string * Value)) : Value :=
  Database_get (getField "table" fields) (getField "key" fields).

(** [const {table, key} = retrieval; Database.get(table, key)] *)
Definition retrieve (retrieval : Value) : JsError + Value :=
  match retrieval with
  | VObject fields => inr (lookupOf fields)
  | VUndefined | VNull =>
      inl (TypeError "Cannot destructure property of undefined or null")
  | _ => inr (Database_get VUndefined VUndefined)
  end.

(** The loop [for (let retrieval of retrievals) { ...push(...) }]: the
    values of the promises pushed, in the order pushed, or the error of the
    first iteration that throws. *)
Fixpoint retrievalLoop (retrievals : list Value) (retrievalOpPromises : list Value)
  : JsError + list Value :=
  match retrievals with
  | [] => inr retrievalOpPromises
  | retrieval :: rest =>
      match retrieve retrieval with
      | inr v => retrievalLoop rest (retrievalOpPromises ++ [v])
      | inl e => inl e
      end
  end.

(** [onRemoteDatabaseGet(message)], with the order in which the promises
    of the [Database.get] calls fulfil. *)
Definition onRemoteDatabaseGet (message : Envelope) (order : list nat) : HandlerResult :=
  match payload message with
  | VArray retrievals =>
      match retrievalLoop retrievals [] with
      | inr retrievalOpPromises =>
          match promiseAll retrievalOpPromises order with
          | Some results => Replied (VArray results) false
          | None => Awaiting
          end
      | inl e => Thrown e
      end
  | VString s =>
      (* a string is iterated character by character *)
      match retrievalLoop
              (List.map (fun c => VString (String c EmptyString)) (list_ascii_of_string s))
              [] with
      | inr retrievalOpPromises =>
          match promiseAll retrievalOpPromises order with
          | Some results => Replied (VArray results) false
          | None => Awaiting
          end
      | inl e => Thrown e
      end
  | _ => Thrown (TypeError "retrievals is not iterable")
  end.

(** [onIsSubscribed(message)] *)
Definition onIsSubscribed (message : Envelope) : HandlerResult :=
  let isSubscribed := isPushNotificationsEnabled in
  Replied (VBool isSubscribed) false.

(** The envelope a handler's [message.reply(data)] posts back. *)
Definition replyEnvelope (f : Frame) (message : Envelope) (r : HandlerResult)
  : option Envelope :=
  match messenger f, r with
  | Some m, Replied data _ => Some (reply m message data)
  | _, _ => None
  end.

End Collaborators.

(** A call on the store issued by a handler: [Database.put(table, keypath)]
    or [Database.remove(table, keypath)]. *)
Inductive DatabaseCall :=
| DbPut (table keypath : Value)
| DbRemove (table keypath : Value).

(** [let {table, keypath} = insertion; Database.put(table, keypath)] *)
Definition putOf (insertion : Value) : JsError + DatabaseCall :=
  match insertion with
  | VObject fields => inr (DbPut (getField "table" fields) (getField "keypath" fields))
  | VUndefined | VNull =>
      inl (TypeError "Cannot destructure property of undefined or null")
  | _ => inr (DbPut VUndefined VUndefined)
  end.

(** [let {table, keypath} = removal; Database.remove(table, keypath)] *)
Definition removeOf (removal : Value) : JsError + DatabaseCall :=
  match removal with
  | VObject fields => inr (DbRemove (getField "table" fields) (getField "keypath" fields))
  | VUndefined | VNull =>
      inl (TypeError "Cannot destructure property of undefined or null")
  | _ => inr (DbRemove VUndefined VUndefined)
  end.

(** The loop [for (let x of xs) { ...push(Database.op(table, keypath)) }]:
    the calls issued, in the order issued, and the error of the iteration
    that throws, if one does. The calls of the iterations before it have
    been issued by then. *)
Fixpoint operationLoop (operationOf : Value -> JsError + DatabaseCall)
    (entries : list Value) (issued : list DatabaseCall)
  : list DatabaseCall * option JsError :=
  match entries with
  | [] => (issued, None)
  | entry :: rest =>
      match operationOf entry with
      | inr call => operationLoop operationOf rest (issued ++ [call])
      | inl e => (issued, Some e)
      end
  end.

(** What a JavaScript [for ... of] iterates over: the items of an array,
    the characters of a string; anything else here is not iterable. *)
Definition iterate (v : Value) : option (list Value) :=
  match v with
  | VArray items => Some items
  | VString s =>
      Some (List.map (fun c => VString (String c EmptyString)) (list_ascii_of_string s))
  | _ => None
  end.

(** The common shape of [onRemoteDatabasePut] and [onRemoteDatabaseRemove]:
    the loop, [await Promise.all(...)], then the reply
    [REMOTE_OPERATION_COMPLETE]. [order] is the order in which the store's
    promises fulfil. The result comes with the calls issued on the store. *)
Definition storeHandler (operationOf : Value -> JsError + DatabaseCall)
    (message : Envelope) (order : list nat) : HandlerResult * list DatabaseCall :=
  match iterate (payload message) with
  | Some entries =>
      match operationLoop operationOf entries [] with
      | (issued, Some e) => (Thrown e, issued)
      | (issued, None) =>
          match promiseAll (List.map (fun _ => VUndefined) issued) order with
          | Some results => (Replied (VString Commands.REMOTE_OPERATION_COMPLETE) false, issued)
          | None => (Awaiting, issued)
          end
      end
  | None => (Thrown (TypeError "object is not iterable"), [])
  end.

(** [onRemoteDatabasePut(message)] *)
Definition onRemoteDatabasePut (message : Envelope) (order : list nat)
  : HandlerResult * list DatabaseCall :=
  storeHandler putOf message order.

(** [onRemoteDatabaseRemove(message)] *)
Definition onRemoteDatabaseRemove (message : Envelope) (order : list nat)
  : HandlerResult * list DatabaseCall :=
  storeHandler removeOf message order.

(** [null] or [undefined], which cannot be destructured. *)
Definition nullish (v : Value) : Prop := v = VNull \/ v = VUndefined.

(** The call made for an object's [table] and [keypath]. *)
Definition callOfFields (callOf : Value -> Value -> DatabaseCall)
    (fields : list (string * Value)) : DatabaseCall :=
  callOf (getField "table" fields) (getField "keypath" fields).

(** An entry of the Options table, as the comment in [onRemoteDatabasePut]
    writes it. *)
Definition optionsEntry (key value : string) : list (string * Value) :=
  [("table", VString "Options");
   ("keypath", VObject [("key", VString key); ("value", VString value)])].

(** A store holding the two ids of the comment in [onRemoteDatabaseGet]. *)
Definition idsStore (table key : Value) : Value :=
  match table, key with
  | VString "Ids", VString "userId" => VString "user-1"
  | VString "Ids", VString "registrationId" => VString "reg-1"
  | _, _ => VUndefined
  end.

End ProxyFrame.

(* ===================================================================== *)
(** * A window opened at a URL *)
(* ===================================================================== *)

Module Navigation.

Import SdkEnvironment AltOriginManager.

(** The domain under which the subdomain is placed. *)
Definition domainOf (config : AppConfig) (buildEnv : BuildEnvironmentKind) : string :=
  if negb (useLegacyDomain config) && BuildEnvironmentKind_eqb buildEnv Production
  then "os.tc"
  else Url.hostname (getOneSignalApiUrl buildEnv).

(** The global [location] of a window that has loaded [u]; the URLs the
    SDK builds carry no query string. *)
Definition locationOf (u : Url.URL) : Location :=
  {| href := Url.toString u; loc_pathname := Url.pathname u; search := "";
     loc_hostname := Url.hostname u |}.

(** The last character of a string. *)
Fixpoint lastChar (s : string) : option ascii :=
  match s with
  | EmptyString => None
  | String c EmptyString => Some c
  | String _ rest => lastChar rest
  end.

End Navigation.

(* ===================================================================== *)
(** * SubscriptionModal *)
(* ===================================================================== *)

Module SubscriptionModal.

Import Postmam Browser.

(** What a property of the options object can hold. *)
Inductive Field :=
| FUndefined
| FString (s : string)
| FUuid (value : string)      (* a Uuid object *)
| FUrl (u : Url.URL).         (* a URL object *)

(** [obj[name]], [undefined] when the object has no such property. *)
Fixpoint getProp (name : string) (obj : list (string * Field)) : Field :=
  match obj with
  | [] => FUndefined
  | (k, v) :: rest => if String.eqb k name then v else getProp name rest
  end.

(** [obj[name] = v]: an existing property is overwritten in place, a new
    one is added at the end. *)
Fixpoint setProp (name : string) (v : Field) (obj : list (string * Field))
  : list (string * Field) :=
  match obj with
  | [] => [(name, v)]
  | (k, old) :: rest =>
      if String.eqb k name then (k, v) :: rest else (k, old) :: setProp name v rest
  end.

(** [x.value] *)
Definition valueOf (x : Field) : JsError + Field :=
  match x with
  | FUndefined => inl (TypeError "Cannot read property 'value' of undefined")
  | FUuid v => inr (FString v)
  | FString _ | FUrl _ => inr FUndefined
  end.

(** [x.origin] *)
Definition originOf (x : Field) : JsError + Field :=
  match x with
  | FUndefined => inl (TypeError "Cannot read property 'origin' of undefined")
  | FUrl u => inr (FString (Url.origin u))
  | FString _ | FUuid _ => inr FUndefined
  end.

(** The fields of a [SubscriptionModal]. *)
Record Modal := mkModal {
  options : list (string * Field);
  messenger : option (Channel Empty_set Empty_set)
}.

(** The globals [initialize] works on. *)
Record ModalPage := mkModalPage {
  creatorIsWindow : bool;      (* (window.opener || window.parent) == window *)
  written : list string;       (* document.write *)
  oneSignalConfig : option (list (string * Field));   (* OneSignal.config *)
  oneSignalInitialized : bool; (* OneSignal.initialized *)
  envPrefixesApplied : bool    (* ServiceWorkerHelper.applyServiceWorkerEnvPrefixes() *)
}.

Inductive Outcome :=
| Returned (m : Modal) (pg : ModalPage)
| Threw (e : JsError) (m : Modal) (pg : ModalPage).

Definition modalAfter (o : Outcome) : Modal :=
  match o with Returned m _ | Threw _ m _ => m end.

Definition pageAfter (o : Outcome) : ModalPage :=
  match o with Returned _ pg | Threw _ _ pg => pg end.

(** [new SubscriptionModal(initOptions)], for an [initOptions.origin] that
    parses as a URL. *)
Definition new (appId : string) (subdomainName : Field) (origin : Url.URL) : Modal :=
  {| options := [("appId", FUuid appId); ("subdomain", subdomainName);
                 ("originUrl", FUrl origin)];
     messenger := None |}.

Definition directlyOpenedNotice : string :=
  "<span style='font-size: 14px; color: red; font-family: sans-serif;'>OneSignal: This page cannot be directly opened, and must be opened as a result of a subscription call.</span>".

Definition establishCrossOriginMessaging (m : Modal) (pg : ModalPage) : Outcome :=
  match originOf (getProp "originUrl" (options m)) with
  | inl e => Threw e m pg
  | inr (FString o) => Returned (mkModal (options m) (Some (open o o))) pg
  | inr _ => Returned (mkModal (options m) (Some (open "undefined" "undefined"))) pg
  end.

(** [initialize()]. [objectAssign(this.options)] has no source objects and
    returns its target: [rasterizedOptions] is [this.options] itself, and
    the assignments to it are assignments to [this.options]. *)
Definition initialize (m : Modal) (pg : ModalPage) : Outcome :=
  let pg := mkModalPage (creatorIsWindow pg) (written pg) (oneSignalConfig pg)
                        (oneSignalInitialized pg) true in
  if creatorIsWindow pg then
    Returned m (mkModalPage (creatorIsWindow pg) (written pg ++ [directlyOpenedNotice])
                            (oneSignalConfig pg) (oneSignalInitialized pg)
                            (envPrefixesApplied pg))
  else
    match valueOf (getProp "appId" (options m)) with
    | inl e => Threw e m pg
    | inr appId =>
        let m := mkModal (setProp "appId" appId (options m)) (messenger m) in
        match originOf (getProp "origin" (options m)) with
        | inl e => Threw e m pg
        | inr origin =>
            let m := mkModal (setProp "origin" origin (options m)) (messenger m) in
            let pg := mkModalPage (creatorIsWindow pg) (written pg) (Some (options m))
                                  true (envPrefixesApplied pg) in
            establishCrossOriginMessaging m pg
        end
    end.

Definition dispose (m : Modal) (pg : ModalPage) : Outcome :=
  match messenger m with
  | None => Threw (TypeError "Cannot read property 'destroy' of undefined") m pg
  | Some ch => Returned (mkModal (options m) (Some (fst (destroy ch)))) pg
  end.

(** [message()]: the envelope posted, when the messenger is there. *)
Definition message (command : string) (data : Value) (m : Modal) (pg : ModalPage)
  : Outcome * option Envelope :=
  match messenger m with
  | None => (Threw (TypeError "Cannot read property 'message' of undefined") m pg, None)
  | Some ch =>
      let '(ch, env) := Postmam.message command data None ch in
      (Returned (mkModal (options m) (Some ch)) pg, Some env)
  end.

End SubscriptionModal.

(* ===================================================================== *)
(** * Launcher *)
(* ===================================================================== *)

Module Launcher.

Section CssClasses.

(** The class list of the launcher's element, with the two helpers of
    [utils] that [resize] calls; [utils] is not among the sources, so the
    helpers are parameters. *)
Context {Classes : Type}.
Variable addCssClass : string -> Classes -> Classes.
Variable removeCssClass : string -> Classes -> Classes.

Record Element := mkElement {
  classes : Classes;
  shown : bool                 (* this.shown *)
}.

Inductive ResizeResult :=
| ResolvedNow                  (* Promise.resolve(this) *)
| AfterTransitionEnd           (* resolved by the 'transitionend' listener *)
| ThrewError (message : string).

Definition sizeSm := "onesignal-bell-launcher-sm".
Definition sizeMd := "onesignal-bell-launcher-md".
Definition sizeLg := "onesignal-bell-launcher-lg".

(** [resize(size)] *)
Definition resize (size : string) (el : Element) : Element * ResizeResult :=
  let c := removeCssClass sizeSm (classes el) in
  let c := removeCssClass sizeMd c in
  let c := removeCssClass sizeLg c in
  let sized (c : Classes) :=
    (mkElement c (shown el), if negb (shown el) then ResolvedNow else AfterTransitionEnd) in
  if String.eqb size "small" then sized (addCssClass sizeSm c)
  else if String.eqb size "medium" then sized (addCssClass sizeMd c)
  else if String.eqb size "large" then sized (addCssClass sizeLg c)
  else (mkElement c (shown el), ThrewError ("Invalid OneSignal bell size " +:+ size)).

End CssClasses.

(** The three size classes. *)
Definition isSizeClass (c : string) : bool :=
  String.eqb c sizeSm || String.eqb c sizeMd || String.eqb c sizeLg.

(** The class [resize] sets for a size, if the size is a valid one. *)
Definition sizeClassOf (size : string) : option string :=
  if String.eqb size "small" then Some sizeSm
  else if String.eqb size "medium" then Some sizeMd
  else if String.eqb size "large" then Some sizeLg
  else None.

(** A class list as the list of its tokens, for running [resize]:
    adding a token that is there changes nothing, removing takes out every
    occurrence. *)
Definition hasClass (c : string) (cs : list string) : bool :=
  existsb (String.eqb c) cs.

Definition addToken (c : string) (cs : list string) : list string :=
  if hasClass c cs then cs else cs ++ [c].

Definition removeToken (c : string) (cs : list string) : list string :=
  List.filter (fun d => negb (String.eqb c d)) cs.

End Launcher.

(* ===================================================================== *)
(** * The build tool *)
(* ===================================================================== *)

Module BuildTool.

Inductive CleanOutcome :=
| Cleaned
| RefusedForSafety       (* Error('Check build path, not removing for safety reasons.') *)
| RemoveFailed (path : string).

(** The loop of [CleanModule.cleanPreviousBuildFiles] over
    [pathsToRemove]: the paths handed to [CleanModule.remove], in order,
    and how the loop ended. [removeFails] tells for which paths the removal
    rejects. *)
Fixpoint cleanLoop (removeFails : string -> bool) (pathsToRemove : list string)
    (handed : list string) : list string * CleanOutcome :=
  match pathsToRemove with
  | [] => (handed, Cleaned)
  | path :: rest =>
      if negb (JsString.endsWith path "/build") then (handed, RefusedForSafety)
      else if removeFails path then (handed ++ [path], RemoveFailed path)
      else cleanLoop removeFails rest (handed ++ [path])
  end.

(** [cleanPreviousBuildFiles(context)], for the resolved path of
    [build:tempDirectory]. *)
Definition cleanPreviousBuildFiles (removeFails : string -> bool) (tempDirectory : string)
  : list string * CleanOutcome :=
  cleanLoop removeFails [tempDirectory] [].

(** [s.lastIndexOf('/')], [None] for -1. *)
Fixpoint lastIndexOfSlash (s : string) : option nat :=
  match s with
  | EmptyString => None
  | String c rest =>
      match lastIndexOfSlash rest with
      | Some i => Some (S i)
      | None => if Ascii.eqb c "/"%char then Some 0 else None
      end
  end.

(** [s.slice(n)] *)
Fixpoint slice (n : nat) (s : string) : string :=
  match n, s with
  | 0, _ => s
  | S n, String _ rest => slice n rest
  | S _, EmptyString => EmptyString
  end.

(** Whether a string contains a slash. *)
Fixpoint hasSlash (s : string) : bool :=
  match s with
  | EmptyString => false
  | String c rest => Ascii.eqb c "/"%char || hasSlash rest
  end.

(** [file.slice(file.lastIndexOf('/') + 1)] *)
Definition fileNameOf (file : string) : string :=
  match lastIndexOfSlash file with
  | Some i => slice (i + 1) file
  | None => slice 0 file
  end.

(** The names [transformSourceMaps] hands to Sorcery: the file names of
    the walked paths, without the source maps. *)
Definition bundledFilenames (walked : list string) : list string :=
  List.filter (fun filename => negb (JsString.endsWith filename ".map"))
              (List.map fileNameOf walked).

End BuildTool.

(* ===================================================================== *)
(** * Theorems *)
(* ===================================================================== *)

(** ** The environment classifier *)

Section Classifier.

Import SdkEnvironment.

Lemma roles_complete (r : WindowEnvironmentKind) : In r roles.
Proof. destruct r; simpl; tauto. Qed.

(** The program and the function agree: on every globals the program
    completes normally, with the value of [getWindowEnv], and leaves the
    globals as they were. In particular [self.registration] is only read
    where [self] is defined, and [window.top] and [location] only where
    [window] is. *)
Lemma getWindowEnv_st_eq (globals : Context) :
  getWindowEnv_st globals = (Normal (getWindowEnv globals), globals).
Proof.
  destruct globals as [[[top loc]|] [[registration]|] dev staging].
  - (* a window *)
    unfold getWindowEnv_st, getWindowEnv, isPopupLocation, getBuildEnv, getBuildEnv_st,
      and_, or_, bind, ret, readLocation, readGlobal, typeofDefined, typeofDEV,
      typeofSTAGING.
    cbn. destruct top; cbn;
      repeat match goal with
             | |- context [if ?b then _ else _] => destruct b; cbn
             end; reflexivity.
  - unfold getWindowEnv_st, getWindowEnv, isPopupLocation, getBuildEnv, getBuildEnv_st,
      and_, or_, bind, ret, readLocation, readGlobal, typeofDefined, typeofDEV,
      typeofSTAGING.
    cbn. destruct top; cbn;
      repeat match goal with
             | |- context [if ?b then _ else _] => destruct b; cbn
             end; reflexivity.
  - (* a worker *)
    destruct registration; reflexivity.
  - (* neither *)
    reflexivity.
Qed.

Lemma roles_NoDup : NoDup roles.
Proof.
  unfold roles. repeat constructor; rewrite ?list_elem_of_In; simpl; intuition discriminate.
Qed.

(** Each call in a process is answered from the globals in force when it
    is made: nothing is remembered from earlier calls. *)
Lemma runProcess_eq (globals : Context) (steps : list ProcessStep) :
  runProcess globals steps = List.map Normal (rolesInForce globals steps).
Proof.
  revert globals. induction steps as [|[ctx|] steps IH]; intros globals; simpl.
  - reflexivity.
  - apply IH.
  - rewrite getWindowEnv_st_eq. now rewrite IH.
Qed.

(** C8: [getWindowEnv], run as a program against the globals of any
    execution context, completes normally with exactly one of the six
    roles (it never throws: what it reads is defined where it reads it),
    leaves the globals as it found them, and its role is the value
    [getWindowEnv] computes from the context alone; each of the six roles
    is the role of some context. Two calls in a row return the same role,
    and in a process that assigns its globals between calls every call
    returns the role of the globals then in force, whatever was returned
    before: nothing is cached. *)
Theorem getWindowEnv_pure_total :
  (forall globals : Context,
     exists! r, getWindowEnv_st globals = (Normal r, globals) /\ In r roles) /\
  (forall globals : Context,
     getWindowEnv_st globals = (Normal (getWindowEnv globals), globals)) /\
  NoDup roles /\
  Forall (fun r => exists ctx, getWindowEnv_st ctx = (Normal r, ctx)) roles /\
  (forall globals : Context,
     (let! first := getWindowEnv_st in
      let! second := getWindowEnv_st in
      ret (first, second)) globals
     = (Normal (getWindowEnv globals, getWindowEnv globals), globals)) /\
  (forall (globals : Context) (steps : list ProcessStep),
     runProcess globals steps = List.map Normal (rolesInForce globals steps)).
Proof.
  split; [| split; [| split; [| split; [| split]]]].
  - intros globals. exists (getWindowEnv globals). split.
    + split; [apply getWindowEnv_st_eq | apply roles_complete].
    + intros r [Hr _]. rewrite getWindowEnv_st_eq in Hr. now injection Hr.
  - apply getWindowEnv_st_eq.
  - apply roles_NoDup.
  - apply Forall_forall. intros r _. exists (contextOf r). destruct r; reflexivity.
  - intros globals. unfold bind. rewrite getWindowEnv_st_eq, getWindowEnv_st_eq.
    reflexivity.
  - apply runProcess_eq.
Qed.

(** C9: in a context that has a window, a top-most window is classified
    Host or OneSignalSubscriptionPopup, and a window that is not top-most
    OneSignalProxyFrame or CustomIframe. *)
Theorem getWindowEnv_top_partition (ctx : Context) (w : Window)
    (Hwin : window ctx = Some w) :
  (isTop w = true ->
     (getWindowEnv ctx = Host \/ getWindowEnv ctx = OneSignalSubscriptionPopup) /\
     getWindowEnv ctx <> OneSignalProxyFrame /\ getWindowEnv ctx <> CustomIframe) /\
  (isTop w = false ->
     (getWindowEnv ctx = OneSignalProxyFrame \/ getWindowEnv ctx = CustomIframe) /\
     getWindowEnv ctx <> Host /\ getWindowEnv ctx <> OneSignalSubscriptionPopup).
Proof.
  unfold getWindowEnv. rewrite Hwin. split; intros Htop; rewrite Htop.
  - destruct (isPopupLocation ctx (location w)); repeat split;
      first [now right | now left | discriminate].
  - destruct (_ || _); repeat split;
      first [now right | now left | discriminate].
Qed.

Lemma getWindowEnv_top_partition_witness :
  let w := mkWindow false
             (mkLocation "https://acme.os.tc/webPushIframe" "/webPushIframe" "" "acme.os.tc") in
  let ctx := mkContext (Some w) None false false in
  (getWindowEnv ctx = OneSignalProxyFrame \/ getWindowEnv ctx = CustomIframe) /\
  getWindowEnv ctx <> Host /\ getWindowEnv ctx <> OneSignalSubscriptionPopup.
Proof.
  intros w ctx.
  exact (proj2 (getWindowEnv_top_partition ctx w eq_refl) eq_refl).
Defined.

End Classifier.

(** ** Host strings *)

Section HostStrings.

Lemma append_cons (ch : ascii) (a b : string) :
  String ch a +:+ b = String ch (a +:+ b).
Proof. reflexivity. Qed.

Lemma append_assoc (a b c : string) : (a +:+ b) +:+ c = a +:+ (b +:+ c).
Proof.
  induction a as [|ch a IH]; [reflexivity |].
  rewrite !append_cons. f_equal. exact IH.
Qed.

Lemma join2 (sep a b : string) : JsString.join sep [a; b] = a +:+ sep +:+ b.
Proof. reflexivity. Qed.

Lemma all_app (test : ascii -> bool) (a b : string) :
  JsString.all test (a +:+ b) = JsString.all test a && JsString.all test b.
Proof.
  induction a as [|c a IH]; [reflexivity |].
  rewrite append_cons. simpl. rewrite IH. apply andb_assoc.
Qed.

Lemma all_impl (test test' : ascii -> bool) (s : string) :
  (forall c, test c = true -> test' c = true) ->
  JsString.all test s = true -> JsString.all test' s = true.
Proof.
  intros Himpl. induction s as [|c s IH]; [reflexivity |].
  simpl. intros H. apply andb_true_iff in H as [Hc Hs].
  now rewrite (Himpl c Hc), IH.
Qed.

Lemma keep_app (test : ascii -> bool) (a b : string) :
  JsString.keep test (a +:+ b) = JsString.keep test a +:+ JsString.keep test b.
Proof.
  induction a as [|c a IH]; [reflexivity |].
  rewrite append_cons. simpl. rewrite IH. now destruct (test c).
Qed.

Lemma keep_all (test : ascii -> bool) (s : string) :
  JsString.all test s = true -> JsString.keep test s = s.
Proof.
  induction s as [|c s IH]; [reflexivity |].
  simpl. intros H. apply andb_true_iff in H as [-> Hs]. now rewrite IH.
Qed.

Lemma asciiLower_app (a b : string) :
  JsString.asciiLower (a +:+ b) = JsString.asciiLower a +:+ JsString.asciiLower b.
Proof.
  induction a as [|c a IH]; [reflexivity |].
  rewrite append_cons. simpl. now rewrite IH.
Qed.

(** What the host setter does with a label character: it keeps it, goes
    on reading the host, and accepts it in a domain. *)
Lemma isLabelChar_plain (c : ascii) :
  Url.isLabelChar c = true ->
  Url.isTabOrNewline c = false /\ Ascii.eqb c ":" = false /\ Url.endsHost c = false /\
  Ascii.eqb c "[" = false /\ Ascii.eqb c "]" = false /\
  Url.forbiddenDomainCodePoint c = false.
Proof.
  destruct c as [[] [] [] [] [] [] [] []]; vm_compute; intros H;
    first [discriminate H | repeat split].
Qed.

(** A label is read by the host state as a whole. *)
Lemma hostState_label (inside : bool) (name rest : string) :
  JsString.all Url.isLabelChar name = true ->
  Url.hostState inside (name +:+ rest)
  = (name +:+ fst (Url.hostState inside rest), snd (Url.hostState inside rest)).
Proof.
  induction name as [|c name IH]; intros Hname.
  - change ("" +:+ rest) with rest. now destruct (Url.hostState inside rest).
  - simpl in Hname. apply andb_true_iff in Hname as [Hc Hname].
    destruct (isLabelChar_plain c Hc) as (_ & Hcolon & Hend & Hopen & Hclose & _).
    rewrite append_cons. simpl. rewrite Hcolon, Hend, Hopen, Hclose. simpl.
    rewrite (IH Hname). reflexivity.
Qed.

(** Assigning [name ++ rest] to [url.host], for a plain label [name]: the
    label is lower-cased and what follows is read as if it stood alone. *)
Lemma set_host_label (u : Url.URL) (name rest : string) :
  Url.plainLabel name = true ->
  Url.set_host u (name +:+ rest)
  = let '(buffer, after) :=
      Url.hostState false (JsString.keep (fun c => negb (Url.isTabOrNewline c)) rest) in
    if JsString.all (fun c => negb (Url.forbiddenDomainCodePoint c)) buffer
    then let named := Url.withHostname u
                        (JsString.asciiLower name +:+ JsString.asciiLower buffer) in
         match after with
         | Some r => Url.portState named r
         | None => named
         end
    else u.
Proof.
  unfold Url.plainLabel. intros Hplain.
  apply andb_true_iff in Hplain as [Hplain _].
  apply andb_true_iff in Hplain as [Hne Hchars].
  unfold Url.set_host. rewrite keep_app, (keep_all _ name).
  2:{ eapply all_impl; [| exact Hchars]. intros c Hc.
      now destruct (isLabelChar_plain c Hc) as (-> & _). }
  rewrite (hostState_label _ _ _ Hchars).
  destruct (Url.hostState false _) as [buffer after]. cbn [fst snd].
  unfold Url.parseHost.
  assert (String.eqb (name +:+ buffer) "" = false) as ->.
  { destruct name; [discriminate Hne | reflexivity]. }
  rewrite all_app.
  assert (JsString.all (fun c => negb (Url.forbiddenDomainCodePoint c)) name = true) as ->.
  { eapply all_impl; [| exact Hchars]. intros c Hc.
    now destruct (isLabelChar_plain c Hc) as (_ & _ & _ & _ & _ & ->). }
  cbn [andb]. rewrite asciiLower_app.
  now destruct (JsString.all _ buffer).
Qed.

End HostStrings.

(** ** AltOriginManager: the canonical subscription URL *)

Section CanonicalUrl.

Import SdkEnvironment AltOriginManager.

(** What the source computes, for every subdomain that is a plain host
    label: the host is lower-cased by the URL object, and the domain is the
    short one only for a production build with the legacy domain switched
    off, the environment's API host in every other case. *)
Lemma getCanonicalSubscriptionUrl_host (config : AppConfig)
    (buildEnv : BuildEnvironmentKind) :
  Url.plainLabel (subdomain config) = true ->
  Url.host (getCanonicalSubscriptionUrl config buildEnv)
  = JsString.asciiLower (subdomain config) +:+ "." +:+
    (if negb (useLegacyDomain config) && BuildEnvironmentKind_eqb buildEnv Production
     then "os.tc"
     else Url.host (getOneSignalApiUrl buildEnv)).
Proof.
  intros Hplain. unfold getCanonicalSubscriptionUrl.
  rewrite !join2.
  destruct (useLegacyDomain config), buildEnv; simpl negb; simpl andb; cbv iota;
    rewrite !(set_host_label _ _ _ Hplain); try reflexivity.
  all: change (Url.host (Url.mkURL "https:"
                           (JsString.asciiLower (subdomain config) +:+ ".localhost")
                           "3001" "/")
              = JsString.asciiLower (subdomain config) +:+ ".localhost:3001");
    unfold Url.host; cbn [Url.port Url.hostname];
    change (String.eqb "3001" "") with false; cbv iota;
    rewrite append_assoc; reflexivity.
Qed.

(** The source derives one candidate, whatever the configuration. *)
Lemma candidateHosts_length (config : AppConfig) (buildEnv : BuildEnvironmentKind) :
  length (candidateHosts config buildEnv) = 1.
Proof. reflexivity. Qed.

(** C1, evaluated on the source: with the legacy domain enabled the
    derivation yields the legacy host alone, with no short-domain fallback
    behind it (production, staging and development alike); with the legacy
    domain disabled it yields the short domain in production only, and the
    environment's API host in staging and development. The derivation the
    claim describes gives other lists at these inputs. *)
Theorem getCanonicalSubscriptionUrl_diverges :
  candidateHosts (mkAppConfig "test" true) Production = ["test.onesignal.com"] /\
  candidateHosts_spec (mkAppConfig "test" true) Production
    = ["test.onesignal.com"; "test.os.tc"] /\
  candidateHosts (mkAppConfig "test" true) Staging = ["test.onesignal-staging.pw"] /\
  candidateHosts_spec (mkAppConfig "test" true) Staging
    = ["test.onesignal-staging.pw"; "test.os.tc"] /\
  candidateHosts (mkAppConfig "test" false) Staging = ["test.onesignal-staging.pw"] /\
  candidateHosts_spec (mkAppConfig "test" false) Staging = ["test.os.tc"] /\
  candidateHosts (mkAppConfig "test" false) Development = ["test.localhost:3001"] /\
  candidateHosts_spec (mkAppConfig "test" false) Development = ["test.os.tc:3001"] /\
  candidateHosts (mkAppConfig "test" false) Production = ["test.os.tc"] /\
  candidateHosts_spec (mkAppConfig "test" false) Production = ["test.os.tc"].
Proof. repeat split. Qed.

(** The derivation in the spec's words gives the hosts that the unit test
    "should get correct canonical subscription URL" expects, in all six of
    its cases. *)
Example candidateHosts_spec_unit_test :
  candidateHosts_spec (mkAppConfig "test" true) Development
    = ["test.localhost:3001"; "test.os.tc:3001"] /\
  candidateHosts_spec (mkAppConfig "test" true) Staging
    = ["test.onesignal-staging.pw"; "test.os.tc"] /\
  candidateHosts_spec (mkAppConfig "test" true) Production
    = ["test.onesignal.com"; "test.os.tc"] /\
  candidateHosts_spec (mkAppConfig "test" false) Development = ["test.os.tc:3001"] /\
  candidateHosts_spec (mkAppConfig "test" false) Staging = ["test.os.tc"] /\
  candidateHosts_spec (mkAppConfig "test" false) Production = ["test.os.tc"].
Proof. repeat split. Qed.

End CanonicalUrl.

(** ** AltOriginManager: discovery *)

Section Discovery.

Import AltOriginManager.

Lemma candidatesOf_lookup (hosts : list string) (i : nat) (c : CandidateOrigin) :
  candidatesOf hosts !! i = Some c <->
  hosts !! i = Some (cand_host c) /\ priority c = i.
Proof.
  unfold candidatesOf. rewrite list_lookup_imap.
  destruct (hosts !! i) as [h|]; simpl; split.
  - intros [= <-]. now split.
  - intros [[= ->] <-]. now destruct c.
  - discriminate.
  - now intros [? _].
Qed.

Lemma candidatesOf_In (hosts : list string) (c : CandidateOrigin) :
  In c (candidatesOf hosts) <-> hosts !! priority c = Some (cand_host c).
Proof.
  rewrite <- list_elem_of_In, list_elem_of_lookup. split.
  - intros [i Hi]. apply candidatesOf_lookup in Hi as [Hh <-]. exact Hh.
  - intros Hh. exists (priority c). now apply candidatesOf_lookup.
Qed.

Lemma candidatesOf_length (hosts : list string) :
  length (candidatesOf hosts) = length hosts.
Proof. apply length_imap. Qed.

(** [highestPriority] picks a member of least priority. *)
Lemma highestPriority_least (cs : list CandidateOrigin) :
  cs <> [] ->
  exists w, highestPriority cs = Some w /\ In w cs /\
            forall d, In d cs -> priority w <= priority d.
Proof.
  induction cs as [|c rest IH]; [congruence | intros _].
  simpl. destruct rest as [|c' rest'].
  - exists c. simpl. split; [reflexivity | split; [now left |]].
    intros d [<- | []]. lia.
  - destruct IH as (d & -> & Hin & Hmin); [discriminate |].
    destruct (Nat.leb_spec (priority c) (priority d)) as [Hle | Hlt].
    + exists c. split; [reflexivity | split; [now left |]].
      intros e [<- | He]; [lia |]. specialize (Hmin e He). lia.
    + exists d. split; [reflexivity | split; [now right |]].
      intros e [<- | He]; [lia |]. now apply Hmin.
Qed.

(** The three resolution rules in one statement. *)
Lemma resolveWinner_spec (cs : list CandidateOrigin)
    (probe : CandidateOrigin -> ProbeOutcome) :
  cs <> [] ->
  exists w, resolveWinner cs probe = Some w /\ In w cs /\
    ((exists c, In c cs /\ reportsTrue (probe c) = true) ->
       reportsTrue (probe w) = true /\
       forall c, In c cs -> reportsTrue (probe c) = true -> priority w <= priority c) /\
    ((forall c, In c cs -> reportsTrue (probe c) = false) -> last cs = Some w).
Proof.
  intros Hne. unfold resolveWinner.
  set (keep := fun c => reportsTrue (probe c)).
  destruct (List.filter keep cs) as [|s1 [|s2 more]] eqn:Hf.
  - (* rule 3 *)
    destruct (last cs) as [w|] eqn:Hlast.
    2:{ apply last_None in Hlast. contradiction. }
    exists w. split; [reflexivity |]. split.
    { apply list_elem_of_In.
      rewrite last_lookup in Hlast. eapply list_elem_of_lookup_2; eauto. }
    split; [| reflexivity].
    intros (c & Hc & Ht).
    assert (In c (List.filter keep cs)) as Hin by (apply filter_In; now split).
    rewrite Hf in Hin. destruct Hin.
  - (* rule 1 *)
    assert (In s1 (List.filter keep cs)) as Hs by (rewrite Hf; now left).
    apply filter_In in Hs as [Hs1 Hk1].
    exists s1. split; [reflexivity |]. split; [exact Hs1 |]. split.
    + intros _. split; [exact Hk1 |]. intros c Hc Ht.
      assert (In c (List.filter keep cs)) as Hin by (apply filter_In; now split).
      rewrite Hf in Hin. destruct Hin as [<- | []]. lia.
    + intros Hnone. specialize (Hnone s1 Hs1). unfold keep in Hk1. congruence.
  - (* rule 2 *)
    destruct (highestPriority_least (s1 :: s2 :: more)) as (w & Hw & Hin & Hmin);
      [discriminate |].
    rewrite <- Hf in Hin, Hmin.
    apply filter_In in Hin as [Hwcs Hwk].
    exists w. split; [exact Hw |]. split; [exact Hwcs |]. split.
    + intros _. split; [exact Hwk |]. intros c Hc Ht.
      apply Hmin. apply filter_In. now split.
    + intros Hnone. specialize (Hnone w Hwcs). unfold keep in Hwk. congruence.
Qed.

(** C2: once all probes have settled, discovery over a non-empty ordered
    candidate list returns a winner from the list; if any candidate reports
    subscribed=true the winner reports true and has the lowest index among
    those that do; if none reports true (rejected and timed-out probes
    included) the winner is the last candidate, the short-domain fallback.
    With candidates acme.onesignal.com and acme.os.tc both reporting true,
    the winner is acme.onesignal.com and acme.os.tc is disposed. *)
Theorem discover_resolution :
  (forall (hosts : list string) (probe : CandidateOrigin -> ProbeOutcome),
     hosts <> [] ->
     exists r, discover hosts probe = inr r /\
       hosts !! priority (selected r) = Some (cand_host (selected r)) /\
       (forall i h, hosts !! i = Some h ->
          reportsTrue (probe (mkCandidate i h)) = true ->
          reportsTrue (probe (selected r)) = true /\ priority (selected r) <= i) /\
       ((forall i h, hosts !! i = Some h ->
           reportsTrue (probe (mkCandidate i h)) = false) ->
        priority (selected r) = length hosts - 1 /\
        last hosts = Some (cand_host (selected r)))) /\
  (forall probe : CandidateOrigin -> ProbeOutcome,
     probe (mkCandidate 0 "acme.onesignal.com") = Reported true ->
     probe (mkCandidate 1 "acme.os.tc") = Reported true ->
     discover ["acme.onesignal.com"; "acme.os.tc"] probe
     = inr (mkDiscoveryResult (mkCandidate 0 "acme.onesignal.com")
                              [mkCandidate 1 "acme.os.tc"])).
Proof.
  split.
  - intros hosts probe Hne.
    assert (candidatesOf hosts <> []) as Hcs.
    { intros Heq. apply (f_equal length) in Heq.
      rewrite candidatesOf_length in Heq. destruct hosts; [congruence | discriminate]. }
    destruct (resolveWinner_spec _ probe Hcs) as (w & Hw & Hin & Hsome & Hnone).
    unfold discover. rewrite Hw. eexists. split; [reflexivity |]. simpl.
    split; [now apply candidatesOf_In |]. split.
    + intros i h Hi Ht.
      assert (In (mkCandidate i h) (candidatesOf hosts)) as Hc
        by now apply candidatesOf_In.
      destruct Hsome as [Hwt Hmin]; [eauto |].
      split; [exact Hwt |]. exact (Hmin _ Hc Ht).
    + intros Hall.
      assert (last (candidatesOf hosts) = Some w) as Hlast.
      { apply Hnone. intros c Hc. apply candidatesOf_In in Hc.
        specialize (Hall _ _ Hc). now destruct c. }
      rewrite last_lookup, candidatesOf_length in Hlast.
      apply candidatesOf_lookup in Hlast as [Hh Hp].
      split; [lia |]. rewrite last_lookup. exact Hh.
  - intros probe H0 H1. unfold discover, resolveWinner. simpl.
    rewrite H0, H1. reflexivity.
Qed.

Lemma discover_resolution_witness :
  let probe := fun c : CandidateOrigin =>
    if String.eqb (cand_host c) "acme.os.tc" then ProbeTimedOut else ProbeRejected in
  exists r, discover ["acme.onesignal.com"; "acme.os.tc"] probe = inr r /\
            cand_host (selected r) = "acme.os.tc".
Proof.
  intros probe.
  destruct (proj1 discover_resolution ["acme.onesignal.com"; "acme.os.tc"] probe)
    as (r & Hr & _ & _ & Hnone); [discriminate |].
  exists r. split; [exact Hr |].
  destruct Hnone as [_ Hlast].
  - intros i h Hi. destruct i as [|[|i]]; simpl in Hi; [| | discriminate];
      injection Hi as <-; reflexivity.
  - simpl in Hlast. congruence.
Defined.

(** The three unit tests of [discoverAltOrigin]: subscribed on
    onesignal.com only, on os.tc only, on neither. *)
Example discover_unit_tests :
  let hosts := ["test.onesignal.com"; "test.os.tc"] in
  let subscribedTo (host : string) (c : CandidateOrigin) :=
    Reported (String.eqb (cand_host c) host) in
  discover hosts (subscribedTo "test.onesignal.com")
    = inr (mkDiscoveryResult (mkCandidate 0 "test.onesignal.com")
                             [mkCandidate 1 "test.os.tc"]) /\
  discover hosts (subscribedTo "test.os.tc")
    = inr (mkDiscoveryResult (mkCandidate 1 "test.os.tc")
                             [mkCandidate 0 "test.onesignal.com"]) /\
  discover hosts (fun _ => Reported false)
    = inr (mkDiscoveryResult (mkCandidate 1 "test.os.tc")
                             [mkCandidate 0 "test.onesignal.com"]) /\
  discover [] (fun _ => Reported true) = inl NoCandidates.
Proof. repeat split. Qed.

End Discovery.

(** ** The channel: origin filtering *)

Section ChannelOrigin.

Import Postmam.

Lemma eqb_neq_false (a b : string) : a <> b -> String.eqb a b = false.
Proof. intros Hne. now apply String.eqb_neq. Qed.

(** C5: an inbound message whose claimed origin differs from the channel's
    remote origin is dropped: the dispatch is [Dropped] (no handler and no
    reply callback runs, and dispatch has no failing outcome), and the
    channel is left exactly as it was; in particular a PendingReply whose
    correlation id the message carries is still pending afterwards and its
    callback has not been given the message. *)
Theorem receive_origin_mismatch_dropped {H K : Type} (ch : Channel H K) (msg : Inbound)
    (Horigin : claimedOrigin msg <> remoteOrigin ch) :
  receive ch msg = (ch, Dropped) /\
  (forall h e, snd (receive ch msg) <> RunHandler h e) /\
  (forall k, pendingReplies ch !! correlationId (envelope msg) = Some k ->
     pendingReplies (fst (receive ch msg)) !! correlationId (envelope msg) = Some k /\
     forall reply, snd (receive ch msg) <> FulfilReply k reply).
Proof.
  assert (receive ch msg = (ch, Dropped)) as Hdrop.
  { unfold receive. destruct (lifecycle ch); try reflexivity.
    now rewrite (eqb_neq_false _ _ Horigin). }
  rewrite Hdrop. simpl. split; [reflexivity |]. split.
  - discriminate.
  - intros k Hk. split; [exact Hk | discriminate].
Qed.

Lemma receive_origin_mismatch_dropped_witness :
  let ch : Channel nat nat :=
    listen (fst (message Commands.IS_SUBSCRIBED VNull (Some 7)
                   (open "https://acme.os.tc" "https://acme.os.tc"))) in
  let msg := mkInbound "https://evil.example"
               (mkEnvelope 0 Commands.IS_SUBSCRIBED (VBool true) false "https://acme.os.tc") in
  pendingReplies ch !! 0 = Some 7 /\
  receive ch msg = (ch, Dropped) /\
  pendingReplies (fst (receive ch msg)) !! 0 = Some 7.
Proof.
  intros ch msg.
  assert (claimedOrigin msg <> remoteOrigin ch) as Hne by discriminate.
  assert (pendingReplies ch !! 0 = Some 7) as Hp by (vm_compute; reflexivity).
  destruct (receive_origin_mismatch_dropped ch msg Hne) as (Hd & _ & Hk).
  split; [exact Hp |]. split; [exact Hd |].
  exact (proj1 (Hk 7 Hp)).
Defined.

(** The same message from the trusted origin does fulfil the pending
    reply: the drop above is due to the origin alone. *)
Lemma receive_reply_fulfils {H K : Type} (ch : Channel H K) (msg : Inbound) (k : K) :
  lifecycle ch = Listening ->
  claimedOrigin msg = remoteOrigin ch ->
  pendingReplies ch !! correlationId (envelope msg) = Some k ->
  receive ch msg = (forget (correlationId (envelope msg)) ch, FulfilReply k (envelope msg)).
Proof.
  intros Hl Ho Hk. unfold receive. rewrite Hl, Ho, String.eqb_refl. simpl.
  now rewrite Hk.
Qed.

End ChannelOrigin.

(** ** The document: one frame per URL *)

Section Frames.

Import Postmam Browser ProxyFrameHost.

Lemma filter_removeFirst_other (keep matches : IFrame -> bool) (frames : list IFrame) :
  (forall f, matches f = true -> keep f = false) ->
  List.filter keep (removeFirst matches frames) = List.filter keep frames.
Proof.
  intros Hdisj. induction frames as [|f rest IH]; [reflexivity |].
  simpl. destruct (matches f) eqn:Hm.
  - now rewrite (Hdisj f Hm).
  - simpl. now rewrite IH.
Qed.

Lemma filter_removeFirst_same (matches : IFrame -> bool) (frames : list IFrame) :
  length (List.filter matches (removeFirst matches frames))
  = pred (length (List.filter matches frames)).
Proof.
  induction frames as [|f rest IH]; [reflexivity |].
  simpl. destruct (matches f) eqn:Hm; simpl.
  - reflexivity.
  - now rewrite Hm.
Qed.

Lemma hasSrc_other (u u' : string) (f : IFrame) :
  u' <> u -> hasSrc u f = true -> hasSrc u' f = false.
Proof.
  unfold hasSrc. intros Hne Hu. apply String.eqb_eq in Hu.
  apply String.eqb_neq. congruence.
Qed.

Lemma attached_removeFrame_same (h : Host) (w : World) :
  attached (Url.toString (url h)) (removeFrame h w)
  = pred (attached (Url.toString (url h)) w).
Proof. unfold attached, removeFrame. simpl. apply filter_removeFirst_same. Qed.

Lemma attached_removeFrame_other (h : Host) (w : World) (u' : string) :
  u' <> Url.toString (url h) ->
  attached u' (removeFrame h w) = attached u' w.
Proof.
  intros Hne. unfold attached, removeFrame. simpl. f_equal.
  apply filter_removeFirst_other. intros f. now apply hasSrc_other.
Qed.

(** The document after [load()]: the frames left by [removeFrame], then
    the new frame. *)
Lemma body_load (h : Host) (w : World) :
  body (snd (fst (load h w)))
  = body (removeFrame h w)
    ++ [mkIFrame (nextFrameId w) (Url.toString (url h)) "none" iframeSandbox].
Proof.
  unfold load, catch_, timeoutPromise, newPromise. simpl.
  match goal with |- context [match ?x with _ => _ end] => destruct x as [[]|] end;
    try reflexivity.
  unfold runReaction. destruct (windowIsTop _); reflexivity.
Qed.

Lemma attached_app (u : string) (w : World) (frames : list IFrame) (f : IFrame) :
  body w = frames ++ [f] ->
  attached u w = length (List.filter (hasSrc u) frames) + (if hasSrc u f then 1 else 0).
Proof.
  intros Hb. unfold attached. rewrite Hb, List.filter_app, length_app. simpl.
  now destruct (hasSrc u f).
Qed.

Lemma attached_load_same (h : Host) (w : World) :
  attached (Url.toString (url h)) (snd (fst (load h w)))
  = S (pred (attached (Url.toString (url h)) w)).
Proof.
  rewrite (attached_app _ _ _ _ (body_load h w)).
  fold (attached (Url.toString (url h)) (removeFrame h w)).
  rewrite attached_removeFrame_same. unfold hasSrc. simpl.
  rewrite String.eqb_refl. lia.
Qed.

Lemma attached_load_other (h : Host) (w : World) (u' : string) :
  u' <> Url.toString (url h) ->
  attached u' (snd (fst (load h w))) = attached u' w.
Proof.
  intros Hne. rewrite (attached_app _ _ _ _ (body_load h w)).
  fold (attached u' (removeFrame h w)).
  rewrite (attached_removeFrame_other _ _ _ Hne). unfold hasSrc. simpl.
  assert (String.eqb (Url.toString (url h)) u' = false) as ->
    by (apply String.eqb_neq; congruence).
  lia.
Qed.

(** One [load()] keeps the invariant "at most one attached frame per URL". *)
Lemma load_preserves_single (h : Host) (w : World) :
  (forall u, attached u w <= 1) ->
  forall u, attached u (snd (fst (load h w))) <= 1.
Proof.
  intros Hinv u. destruct (String.eqb_spec u (Url.toString (url h))) as [-> | Hne].
  - rewrite attached_load_same. specialize (Hinv (Url.toString (url h))). lia.
  - rewrite (attached_load_other _ _ _ Hne). apply Hinv.
Qed.

Lemma loads_preserves_single (hosts : list Host) (w : World) :
  (forall u, attached u w <= 1) ->
  forall u, attached u (loads hosts w) <= 1.
Proof.
  revert w. induction hosts as [|h rest IH]; intros w Hinv; [exact Hinv |].
  unfold loads. simpl. apply IH. now apply load_preserves_single.
Qed.

(** C4: when [load()] runs while at most one frame with the host's URL is
    attached, [removeFrame] first leaves no frame with that URL (an
    existing one is removed), the new frame is then appended to what
    [removeFrame] left, and exactly one frame with that URL is attached
    afterwards, frames of other URLs being untouched; and through any
    sequence of [load()] calls, by any hosts, a document with at most one
    frame per URL keeps at most one frame per URL. *)
Theorem load_replaces_existing_frame :
  (forall (h : Host) (w : World),
     attached (Url.toString (url h)) w <= 1 ->
     attached (Url.toString (url h)) (removeFrame h w) = 0 /\
     body (snd (fst (load h w)))
     = body (removeFrame h w)
       ++ [mkIFrame (nextFrameId w) (Url.toString (url h)) "none" iframeSandbox] /\
     attached (Url.toString (url h)) (snd (fst (load h w))) = 1 /\
     (forall u', u' <> Url.toString (url h) ->
        attached u' (snd (fst (load h w))) = attached u' w)) /\
  (forall (hosts : list Host) (w : World),
     (forall u, attached u w <= 1) ->
     forall u, attached u (loads hosts w) <= 1).
Proof.
  split.
  - intros h w Hone. split; [| split; [| split]].
    + rewrite attached_removeFrame_same. lia.
    + apply body_load.
    + rewrite attached_load_same. lia.
    + intros u' Hne. now apply attached_load_other.
  - apply loads_preserves_single.
Qed.

(** The page of the unit tests: nothing attached, nothing pending. *)
Lemma load_replaces_existing_frame_witness :
  let page := mkPage true "http://localhost/" "http://localhost" "Site" VNull
                     VUndefined VUndefined in
  let w0 := mkWorld page [] 0 [] [] [] [] [] [] in
  let h := new (Url.mkURL "https:" "acme.os.tc" "" "/") in
  let w1 := snd (fst (load h w0)) in
  attached "https://acme.os.tc/webPushIframe" w1 = 1 /\
  attached "https://acme.os.tc/webPushIframe" (removeFrame h w1) = 0 /\
  attached "https://acme.os.tc/webPushIframe" (snd (fst (load h w1))) = 1 /\
  List.map frameId (body (snd (fst (load h w1)))) = [1].
Proof.
  intros page w0 h w1.
  assert (attached (Url.toString (url h)) w1 <= 1) as Hone by (vm_compute; lia).
  destruct (proj1 load_replaces_existing_frame h w1 Hone) as (Hrm & _ & Hload & _).
  split; [reflexivity |]. split; [exact Hrm |]. split; [exact Hload | reflexivity].
Defined.

End Frames.

(** ** dispose() without a messenger *)

Section Dispose.

Import Postmam Browser ProxyFrameHost.

Lemma messenger_load (h : Host) (w : World) :
  messenger (fst (fst (load h w))) = messenger h.
Proof. reflexivity. Qed.

(** C10: on a host whose messenger is undefined, [dispose()] throws a
    TypeError and changes nothing (the frame, if any, stays attached); this
    is the case of a host just constructed and of a host whose [load()] has
    run but whose frame's load event has not fired. *)
Theorem dispose_without_messenger_throws (h : Host) (w : World)
    (Hundefined : messenger h = None) :
  dispose h w = Threw (TypeError "Cannot read property 'destroy' of undefined") h w /\
  (forall h' w', dispose h w <> Returned h' w') /\
  (forall origin, messenger (new origin) = None) /\
  messenger (fst (fst (load h w))) = None.
Proof.
  split; [| split; [| split]].
  - unfold dispose. now rewrite Hundefined.
  - intros h' w'. unfold dispose. rewrite Hundefined. discriminate.
  - reflexivity.
  - now rewrite messenger_load.
Qed.

Lemma dispose_without_messenger_throws_witness :
  let page := mkPage true "http://localhost/" "http://localhost" "Site" VNull
                     VUndefined VUndefined in
  let w0 := mkWorld page [] 0 [] [] [] [] [] [] in
  let h0 := new (Url.mkURL "https:" "acme.os.tc" "" "/") in
  let h1 := fst (fst (load h0 w0)) in
  let w1 := snd (fst (load h0 w0)) in
  dispose h0 w0 = Threw (TypeError "Cannot read property 'destroy' of undefined") h0 w0 /\
  dispose h1 w1 = Threw (TypeError "Cannot read property 'destroy' of undefined") h1 w1 /\
  attached "https://acme.os.tc/webPushIframe" w1 = 1.
Proof.
  intros page w0 h0 h1 w1.
  split; [exact (proj1 (dispose_without_messenger_throws h0 w0 eq_refl)) |].
  split; [exact (proj1 (dispose_without_messenger_throws h1 w1 eq_refl)) |].
  reflexivity.
Defined.

End Dispose.

(** ** ProxyFrame: remote database reads *)

Section RemoteDatabaseGet.

Import Postmam Browser ProxyFrame.

Variable Database_get : Value -> Value -> Value.

(** The loop pushes one promise per retrieval, in the order of the
    retrievals. *)
Lemma retrievalLoop_objects (retrievals : list (list (string * Value)))
    (pushed : list Value) :
  retrievalLoop Database_get (VObject <$> retrievals) pushed
  = inr (pushed ++ (lookupOf Database_get <$> retrievals)).
Proof.
  revert pushed. induction retrievals as [|fields rest IH]; intros pushed; simpl.
  - now rewrite app_nil_r.
  - rewrite IH, <- app_assoc. reflexivity.
Qed.

Lemma fulfil_length (values : list Value) (slots : list (option Value)) (i : nat) :
  length (fulfil values slots i) = length slots.
Proof. unfold fulfil. destruct (values !! i); [apply length_insert | reflexivity]. Qed.

Lemma foldl_fulfil_length (values : list Value) (order : list nat)
    (slots : list (option Value)) :
  length (foldl (fulfil values) slots order) = length slots.
Proof.
  revert slots. induction order as [|j rest IH]; intros slots; simpl; [reflexivity |].
  now rewrite IH, fulfil_length.
Qed.

(** A slot that holds its promise's value keeps it. *)
Lemma foldl_fulfil_written (values : list Value) (order : list nat)
    (slots : list (option Value)) (i : nat) :
  slots !! i = Some (values !! i) ->
  foldl (fulfil values) slots order !! i = Some (values !! i).
Proof.
  revert slots. induction order as [|j rest IH]; intros slots Hi; simpl; [exact Hi |].
  apply IH. unfold fulfil. destruct (values !! j) as [v|] eqn:Hj; [| exact Hi].
  destruct (decide (j = i)) as [-> | Hne].
  - rewrite list_lookup_insert_eq by (eapply lookup_lt_Some; eauto).
    now rewrite Hj.
  - now rewrite list_lookup_insert_ne.
Qed.

(** A promise that fulfils has its value in its slot at the end. *)
Lemma foldl_fulfil_lookup (values : list Value) (order : list nat)
    (slots : list (option Value)) (i : nat) :
  length slots = length values ->
  i ∈ order -> i < length values ->
  foldl (fulfil values) slots order !! i = Some (values !! i).
Proof.
  revert slots. induction order as [|j rest IH]; intros slots Hlen Hin Hlt.
  - inversion Hin.
  - simpl. destruct (decide (i = j)) as [-> | Hne].
    + apply foldl_fulfil_written. unfold fulfil.
      destruct (lookup_lt_is_Some_2 values j Hlt) as [v Hv]. rewrite Hv.
      apply list_lookup_insert_eq. lia.
    + apply IH; [now rewrite fulfil_length | | exact Hlt].
      apply elem_of_cons in Hin as [? | ?]; [contradiction | assumption].
Qed.

(** [Promise.all] gives the values in the order of the promises, whatever
    the order in which they fulfil. *)
Lemma promiseAll_any_order (values : list Value) (order : list nat) :
  order ≡ₚ seq 0 (length values) ->
  promiseAll values order = Some values.
Proof.
  intros Hperm. unfold promiseAll.
  assert (foldl (fulfil values) (replicate (length values) None) order
          = Some <$> values) as ->.
  { apply list_eq. intros i. rewrite list_lookup_fmap.
    destruct (decide (i < length values)) as [Hlt | Hge].
    - rewrite foldl_fulfil_lookup; [| apply length_replicate | | exact Hlt].
      + destruct (lookup_lt_is_Some_2 values i Hlt) as [v ->]. reflexivity.
      + rewrite Hperm. apply elem_of_seq. lia.
    - rewrite (lookup_ge_None_2 values) by lia.
      apply lookup_ge_None_2. rewrite foldl_fulfil_length, length_replicate. lia. }
  apply mapM_fmap_Some. reflexivity.
Qed.

(** C7: for an ordered list of [{table, key}] retrievals delivered with
    REMOTE_DATABASE_GET, and whatever the order in which the reads
    complete, the handler replies with a list of the same length whose
    i-th element is the store's [get] result for the i-th retrieval's table
    and key. *)
Theorem onRemoteDatabaseGet_aligned (message : Envelope)
    (retrievals : list (list (string * Value))) (order : list nat)
    (Hdata : payload message = VArray (VObject <$> retrievals))
    (Hall : order ≡ₚ seq 0 (length retrievals)) :
  exists results,
    onRemoteDatabaseGet Database_get message order = Replied (VArray results) false /\
    length results = length retrievals /\
    forall i fields, retrievals !! i = Some fields ->
      results !! i
      = Some (Database_get (getField "table" fields) (getField "key" fields)).
Proof.
  exists (lookupOf Database_get <$> retrievals). split; [| split].
  - unfold onRemoteDatabaseGet. rewrite Hdata, retrievalLoop_objects. simpl.
    rewrite promiseAll_any_order; [reflexivity |]. now rewrite length_fmap.
  - apply length_fmap.
  - intros i fields Hi. rewrite list_lookup_fmap, Hi. reflexivity.
Qed.

End RemoteDatabaseGet.

Section RemoteDatabaseGetExample.

Import Postmam Browser ProxyFrame.

Lemma onRemoteDatabaseGet_aligned_witness :
  let retrievals :=
    [[("table", VString "Ids"); ("key", VString "userId")];
     [("table", VString "Ids"); ("key", VString "registrationId")];
     [("table", VString "Options"); ("key", VString "defaultUrl")]] in
  let message := mkEnvelope 4 Commands.REMOTE_DATABASE_GET
                            (VArray (VObject <$> retrievals)) true "https://acme.os.tc" in
  exists results,
    onRemoteDatabaseGet idsStore message [2; 0; 1] = Replied (VArray results) false /\
    results = [VString "user-1"; VString "reg-1"; VUndefined].
Proof.
  intros retrievals message.
  destruct (onRemoteDatabaseGet_aligned idsStore message retrievals [2; 0; 1] eq_refl)
    as (results & Hreply & Hlen & Hnth).
  { apply (Permutation_cons_app [0; 1] [] 2). reflexivity. }
  exists results. split; [exact Hreply |].
  pose proof (Hnth 0 _ eq_refl) as H0.
  pose proof (Hnth 1 _ eq_refl) as H1.
  pose proof (Hnth 2 _ eq_refl) as H2.
  destruct results as [|r0 [|r1 [|r2 [|]]]]; try discriminate.
  simpl in H0, H1, H2. congruence.
Defined.

End RemoteDatabaseGetExample.

(** ** Promises and timers *)

Section Promises.

Import Postmam Browser.

Lemma runReaction_promises (r : Reaction) (w : World) :
  promises (runReaction r w) = promises w.
Proof. destruct r. unfold runReaction. now destruct (windowIsTop (page w)). Qed.

Lemma runReaction_body (r : Reaction) (w : World) :
  body (runReaction r w) = body w.
Proof. destruct r. unfold runReaction. now destruct (windowIsTop (page w)). Qed.

Lemma foldl_invariant {A B C : Type} (proj : A -> C) (f : A -> B -> A) (l : list B) (a : A) :
  (forall a b, proj (f a b) = proj a) -> proj (foldl f a l) = proj a.
Proof.
  intros Hf. revert a. induction l as [|b l IH]; intros a; simpl; [reflexivity |].
  now rewrite IH, Hf.
Qed.

Lemma runCatches_promises (p : nat) (w : World) :
  promises (runCatches p w) = promises w.
Proof.
  unfold runCatches. apply (foldl_invariant promises).
  intros a [q r]. destruct (Nat.eqb q p); [apply runReaction_promises | reflexivity].
Qed.

Lemma runCatches_body (p : nat) (w : World) :
  body (runCatches p w) = body w.
Proof.
  unfold runCatches. apply (foldl_invariant body).
  intros a [q r]. destruct (Nat.eqb q p); [apply runReaction_body | reflexivity].
Qed.

(** No handler is attached to [p]: nothing runs. *)
Lemma runCatches_none (p : nat) (w : World) :
  Forall (fun c => fst c <> p) (catches w) -> runCatches p w = w.
Proof.
  unfold runCatches. generalize (catches w) as cs. intros cs. revert w.
  induction cs as [|[q r] cs IH]; intros w Hcs; simpl; [reflexivity |].
  apply Forall_cons in Hcs as [Hq Hcs]. simpl in Hq.
  apply Nat.eqb_neq in Hq. rewrite Hq. now apply IH.
Qed.

Lemma settle1_promises (q : nat) (st : PromiseState) (w : World) :
  promises (settle1 q st w)
  = match promises w !! q with
    | Some Pending => <[q := st]> (promises w)
    | _ => promises w
    end.
Proof.
  unfold settle1. destruct (promises w !! q) as [[]|]; try reflexivity.
  destruct st; try reflexivity. now rewrite runCatches_promises.
Qed.

Lemma settle1_body (q : nat) (st : PromiseState) (w : World) :
  body (settle1 q st w) = body w.
Proof.
  unfold settle1. destruct (promises w !! q) as [[]|]; try reflexivity.
  destruct st; try reflexivity. now rewrite runCatches_body.
Qed.

(** A settled promise stays as it is, whatever is settled later. *)
Lemma settle1_keeps (p q : nat) (st s : PromiseState) (w : World) :
  promises w !! p = Some s -> s <> Pending ->
  promises (settle1 q st w) !! p = Some s.
Proof.
  intros Hp Hs. rewrite settle1_promises.
  destruct (promises w !! q) as [[]|] eqn:Hq; try exact Hp.
  rewrite list_lookup_insert_ne; [exact Hp |]. congruence.
Qed.

(** Settling a pending promise gives it its state, and its races cannot
    take it back. *)
Lemma settle_pending (p : nat) (st : PromiseState) (w : World) :
  promises w !! p = Some Pending -> st <> Pending ->
  promises (settle p st w) !! p = Some st.
Proof.
  intros Hp Hst. unfold settle. rewrite Hp.
  assert (promises (settle1 p st w) !! p = Some st) as Hone.
  { rewrite settle1_promises, Hp. apply list_lookup_insert_eq.
    eapply lookup_lt_Some; eauto. }
  revert Hone. generalize (settle1 p st w) as w1. generalize (timers w) as ts.
  induction ts as [|t ts IH]; intros w1 Hone; simpl; [exact Hone |].
  apply IH. destruct (Nat.eqb (watched t) p); [| exact Hone].
  now apply settle1_keeps.
Qed.

End Promises.

(** ** isSubscribed: host and frame *)

Section IsSubscribed.

Import Postmam Browser.

(** After [establishCrossOriginMessaging], the frame's messenger has
    [onIsSubscribed] registered for IS_SUBSCRIBED and is listening. *)
Lemma frame_handles_IS_SUBSCRIBED (f : ProxyFrame.Frame) :
  exists fm,
    ProxyFrame.messenger (ProxyFrame.establishCrossOriginMessaging f) = Some fm /\
    registry fm !! Commands.IS_SUBSCRIBED = Some ProxyFrame.OnIsSubscribed /\
    lifecycle fm = Listening.
Proof.
  eexists. split; [reflexivity |]. split; [| reflexivity].
  vm_compute. reflexivity.
Qed.

(** C6: on a host whose messenger is listening, [isSubscribed()] posts one
    envelope, with command IS_SUBSCRIBED, payload [null] and a reply
    expected, and returns a promise that is pending; the frame's
    [onIsSubscribed] answers that envelope with exactly the current
    push-subscription state as a boolean; and when this reply reaches the
    host from the frame's origin, the promise is fulfilled with that
    boolean. *)
Theorem isSubscribed_roundtrip (h : ProxyFrameHost.Host) (w : World)
    (m : Channel ProxyFrameHost.Handler ProxyFrameHost.ReplyCallback)
    (f : ProxyFrame.Frame) (fm : Channel ProxyFrame.Handler Empty_set)
    (pushEnabled : bool)
    (Hmessenger : ProxyFrameHost.messenger h = Some m)
    (Hlistening : lifecycle m = Listening)
    (Hframe : ProxyFrame.messenger f = Some fm) :
  let h1 := fst (fst (ProxyFrameHost.isSubscribed h w)) in
  let w1 := snd (fst (ProxyFrameHost.isSubscribed h w)) in
  let p := snd (ProxyFrameHost.isSubscribed h w) in
  exists request response,
    posted w1 = posted w ++ [request] /\
    command request = Commands.IS_SUBSCRIBED /\
    payload request = VNull /\
    expectsReply request = true /\
    promises w1 !! p = Some Pending /\
    ProxyFrame.onIsSubscribed pushEnabled request = ProxyFrame.Replied (VBool pushEnabled) false /\
    ProxyFrame.replyEnvelope f request (ProxyFrame.onIsSubscribed pushEnabled request)
      = Some response /\
    payload response = VBool pushEnabled /\
    correlationId response = correlationId request /\
    exists h2 w2,
      ProxyFrameHost.deliver (mkInbound (remoteOrigin m) response) h1 w1
        = ProxyFrameHost.Returned h2 w2 /\
      promises w2 !! p = Some (Fulfilled (VBool pushEnabled)).
Proof.
  unfold ProxyFrameHost.isSubscribed, ProxyFrameHost.message, newPromise.
  cbn [ProxyFrameHost.messenger]. rewrite Hmessenger.
  cbn -[Postmam.message lookup insert]. unfold Postmam.message.
  cbn -[lookup insert].
  eexists. eexists.
  split; [reflexivity |]. split; [reflexivity |]. split; [reflexivity |].
  split; [reflexivity |].
  split; [apply list_lookup_middle; reflexivity |].
  split; [reflexivity |].
  split; [unfold ProxyFrame.replyEnvelope; rewrite Hframe; reflexivity |].
  split; [reflexivity |]. split; [reflexivity |].
  unfold ProxyFrameHost.deliver, receive. cbn -[lookup insert delete].
  rewrite Hlistening, String.eqb_refl. cbn -[lookup insert delete].
  rewrite lookup_insert_eq. cbn -[lookup insert delete].
  eexists. eexists. split; [reflexivity |].
  apply settle_pending; [| discriminate].
  cbn. apply list_lookup_middle. reflexivity.
Qed.

Lemma isSubscribed_roundtrip_witness :
  let pg := mkPage true "http://localhost/" "http://localhost" "Site" VNull
                   VUndefined VUndefined in
  let w0 := snd (fst (ProxyFrameHost.load (ProxyFrameHost.new
                        (Url.mkURL "https:" "acme.os.tc" "" "/")) (freshWorld pg))) in
  let h0 := fst (fst (ProxyFrameHost.load (ProxyFrameHost.new
                        (Url.mkURL "https:" "acme.os.tc" "" "/")) (freshWorld pg))) in
  let h := ProxyFrameHost.hostAfter (ProxyFrameHost.onFrameLoad h0 w0) in
  let w := ProxyFrameHost.worldAfter (ProxyFrameHost.onFrameLoad h0 w0) in
  let f := ProxyFrame.establishCrossOriginMessaging
             (ProxyFrame.mkFrame (Url.mkURL "http:" "localhost" "" "/") None) in
  exists request response h2 w2,
    posted (snd (fst (ProxyFrameHost.isSubscribed h w))) = posted w ++ [request] /\
    command request = Commands.IS_SUBSCRIBED /\
    payload response = VBool true /\
    ProxyFrameHost.deliver (mkInbound "https://acme.os.tc/webPushIframe" response)
      (fst (fst (ProxyFrameHost.isSubscribed h w)))
      (snd (fst (ProxyFrameHost.isSubscribed h w)))
      = ProxyFrameHost.Returned h2 w2 /\
    promises w2 !! snd (ProxyFrameHost.isSubscribed h w) = Some (Fulfilled (VBool true)).
Proof.
  intros pg w0 h0 h w f.
  destruct (ProxyFrameHost.messenger h) as [m|] eqn:Hm; [| discriminate].
  destruct (ProxyFrame.messenger f) as [fm|] eqn:Hfm; [| discriminate].
  assert (lifecycle m = Listening) as Hl by (injection Hm as <-; reflexivity).
  assert (remoteOrigin m = "https://acme.os.tc/webPushIframe") as Ho
    by (injection Hm as <-; reflexivity).
  destruct (isSubscribed_roundtrip h w m f fm true Hm Hl Hfm)
    as (request & response & Hposted & Hcmd & _ & _ & _ & _ & _ & Hpayload & _ &
        h2 & w2 & Hdeliver & Hp).
  rewrite Ho in Hdeliver.
  exists request, response, h2, w2. repeat split; assumption.
Defined.

End IsSubscribed.

(** ** load(): the timeout *)

Section LoadTimeout.

Import Postmam Browser ProxyFrameHost.

Lemma foldl_catches_none (p : nat) (cs : list (nat * Reaction)) (w : World) :
  Forall (fun c => fst c <> p) cs ->
  foldl (fun w '(q, r) => if Nat.eqb q p then runReaction r w else w) w cs = w.
Proof.
  revert w. induction cs as [|[q r] cs IH]; intros w Hcs; simpl; [reflexivity |].
  apply Forall_cons in Hcs as [Hq Hcs]. simpl in Hq.
  apply Nat.eqb_neq in Hq. rewrite Hq. now apply IH.
Qed.

Lemma lookup_snoc2_first {A : Type} (l : list A) (x y : A) :
  ((l ++ [x]) ++ [y]) !! length l = Some x.
Proof. rewrite <- app_assoc. apply list_lookup_middle. reflexivity. Qed.

Lemma lookup_snoc2_second {A : Type} (l : list A) (x y : A) :
  ((l ++ [x]) ++ [y]) !! S (length l) = Some y.
Proof. apply list_lookup_middle. rewrite length_app. simpl. lia. Qed.

(** [load()] spelled out: the host and the page it leaves, and the promise
    it returns. *)
Lemma load_eq (h : Host) (w : World) :
  load h w
  = (mkHost (url h) (Some (nextFrameId w)) (messenger h) (Some (length (promises w))),
     mkWorld (page w)
       (removeFirst (hasSrc (Url.toString (url h))) (body w)
        ++ [mkIFrame (nextFrameId w) (Url.toString (url h)) "none" iframeSandbox])
       (S (nextFrameId w))
       ((promises w ++ [Pending]) ++ [Pending])
       (timers w ++ [mkTimer LOAD_TIMEOUT_MS (length (promises w))
                             (S (length (promises w)))])
       (catches w ++ [(S (length (promises w)), WarnLoadTimedOut (Url.toString (url h)))])
       (warnings w) (posted w) (effects w),
     length (promises w)).
Proof.
  unfold load, timeoutPromise, catch_, newPromise, removeFrame.
  cbn -[lookup].
  rewrite !(list_lookup_middle (promises w) [] Pending (length (promises w)) eq_refl).
  rewrite length_app, Nat.add_1_r, lookup_snoc2_second. reflexivity.
Qed.

(** The page after the timer started by [load()] has elapsed, the frame
    not having loaded: only the race is rejected, and the warning is
    logged in a top window. *)
Lemma elapse_after_load (h : Host) (w : World) :
  wellFormed w ->
  elapse (length (timers w)) (snd (fst (load h w)))
  = mkWorld (page w)
      (removeFirst (hasSrc (Url.toString (url h))) (body w)
       ++ [mkIFrame (nextFrameId w) (Url.toString (url h)) "none" iframeSandbox])
      (S (nextFrameId w))
      ((promises w ++ [Pending]) ++ [Rejected TimeoutError])
      (timers w)
      (catches w ++ [(S (length (promises w)), WarnLoadTimedOut (Url.toString (url h)))])
      (warnings w ++
       (if windowIsTop (page w)
        then [loadTimedOutWarning (Url.toString (url h)) (locationOrigin (page w))]
        else []))
      (posted w) (effects w).
Proof.
  intros [Hcatches _]. rewrite load_eq. unfold elapse. cbn -[lookup delete].
  rewrite list_lookup_middle by reflexivity.
  unfold settle1. cbn -[lookup delete insert].
  rewrite lookup_snoc2_second. cbn -[lookup delete insert].
  unfold runCatches. cbn -[lookup delete insert].
  rewrite foldl_app, (foldl_catches_none _ (catches w)).
  2:{ eapply Forall_impl; [exact Hcatches |]. intros [q r] Hq. simpl in *. lia. }
  cbn -[lookup delete insert]. rewrite Nat.eqb_refl.
  assert (delete (length (timers w))
            (timers w ++ [mkTimer LOAD_TIMEOUT_MS (length (promises w))
                                  (S (length (promises w)))]) = timers w) as ->.
  { induction (timers w) as [|t ts IH]; [reflexivity |]. simpl. now rewrite IH. }
  assert (<[S (length (promises w)) := Rejected TimeoutError]>
            ((promises w ++ [Pending]) ++ [Pending])
          = (promises w ++ [Pending]) ++ [Rejected TimeoutError]) as ->.
  { rewrite insert_app_r_alt by (rewrite length_app; simpl; lia).
    rewrite length_app. simpl.
    replace (S (length (promises w)) - (length (promises w) + 1)) with 0 by lia.
    reflexivity. }
  unfold runReaction. cbn. destruct (windowIsTop (page w)); cbn.
  - reflexivity.
  - now rewrite app_nil_r.
Qed.

Lemma hostRegistry_CONNECTED :
  hostRegistry !! Commands.CONNECTED = Some OnMessengerConnect.
Proof. vm_compute. reflexivity. Qed.

(** [establishCrossOriginMessaging] on a host that has its element. *)
Lemma establish_eq (h : Host) (w : World) (e : nat) :
  element h = Some e ->
  establishCrossOriginMessaging h w
  = Returned (mkHost (url h) (element h) (Some (hostChannel (Url.toString (url h))))
                     (loadPromise h))
             (post (mkEnvelope 0 Commands.CONNECTED VNull false (Url.toString (url h))) w).
Proof.
  destruct h as [u el [m|] lp]; cbn [element]; intros ->; reflexivity.
Qed.

(** The JSON copy fails on [undefined] and on nothing else. *)
Lemma jsonRoundTrip_defined (v : Value) :
  v <> VUndefined -> exists copy, jsonRoundTrip v = Some copy.
Proof. destruct v; intros Hv; [congruence | eexists; reflexivity ..]. Qed.

Lemma jsonRoundTrip_undefined (v : Value) :
  jsonRoundTrip v = None <-> v = VUndefined.
Proof. destruct v; split; intros H; try discriminate; reflexivity. Qed.

(** The frame's [CONNECTED] reaches a host whose messenger has just been
    established, on a page whose [OneSignal.config] is not undefined:
    [onMessengerConnect] posts IFRAME_POPUP_INITIALIZE and leaves its
    callback waiting under correlation id 1. *)
Lemma deliver_connected (h : Host) (w : World) :
  messenger h = Some (hostChannel (Url.toString (url h))) ->
  config (page w) <> VUndefined ->
  exists m' env,
    deliver (fromFrame h 0 Commands.CONNECTED VNull) h w
    = Returned (mkHost (url h) (element h) (Some m') (loadPromise h)) (post env w) /\
    lifecycle m' = Listening /\
    remoteOrigin m' = Url.toString (url h) /\
    pendingReplies m' !! 1 = Some InitializeReply /\
    command env = Commands.IFRAME_POPUP_INITIALIZE.
Proof.
  intros Hm Hconfig. destruct (jsonRoundTrip_defined _ Hconfig) as [copy Hcopy].
  unfold deliver, receive. rewrite Hm.
  cbn -[lookup insert delete hostRegistry]. rewrite String.eqb_refl.
  cbn -[lookup insert delete hostRegistry]. rewrite lookup_empty.
  cbn -[lookup insert delete hostRegistry]. rewrite hostRegistry_CONNECTED.
  cbn -[lookup insert delete hostRegistry jsonRoundTrip].
  unfold onMessengerConnect, message.
  cbn -[lookup insert delete hostRegistry jsonRoundTrip]. rewrite Hcopy.
  eexists. eexists. split; [reflexivity |].
  split; [reflexivity |]. split; [reflexivity |].
  split; [apply lookup_insert_eq | reflexivity].
Qed.

(** With [OneSignal.config] undefined the handler throws instead: nothing
    is posted and no callback is left waiting. *)
Lemma deliver_connected_undefined (h : Host) (w : World) :
  messenger h = Some (hostChannel (Url.toString (url h))) ->
  config (page w) = VUndefined ->
  deliver (fromFrame h 0 Commands.CONNECTED VNull) h w
  = Threw jsonParseUndefined
          (mkHost (url h) (element h)
                  (Some (noteConnected (hostChannel (Url.toString (url h)))))
                  (loadPromise h)) w.
Proof.
  intros Hm Hconfig. unfold deliver, receive. rewrite Hm.
  cbn -[lookup insert delete hostRegistry]. rewrite String.eqb_refl.
  cbn -[lookup insert delete hostRegistry]. rewrite lookup_empty.
  cbn -[lookup insert delete hostRegistry]. rewrite hostRegistry_CONNECTED.
  cbn -[lookup insert delete hostRegistry jsonRoundTrip].
  unfold onMessengerConnect.
  cbn -[lookup insert delete hostRegistry jsonRoundTrip]. rewrite Hconfig.
  reflexivity.
Qed.

(** The frame's answer to IFRAME_POPUP_INITIALIZE reaches the host: the
    callback resolves the load promise. *)
Lemma deliver_initialized (h : Host) (w : World)
    (m : Channel Handler ReplyCallback) (p : nat) :
  messenger h = Some m ->
  lifecycle m = Listening ->
  remoteOrigin m = Url.toString (url h) ->
  pendingReplies m !! 1 = Some InitializeReply ->
  loadPromise h = Some p ->
  promises w !! p = Some Pending ->
  exists h' w',
    deliver (fromFrame h 1 Commands.IFRAME_POPUP_INITIALIZE
               (VString Commands.REMOTE_OPERATION_COMPLETE)) h w
    = Returned h' w' /\
    promises w' !! p = Some (Fulfilled VUndefined).
Proof.
  intros Hm Hl Ho Hk Hp Hpending. unfold deliver, receive. rewrite Hm.
  cbn -[lookup insert delete]. rewrite Hl, Ho, String.eqb_refl.
  cbn -[lookup insert delete]. rewrite Hk.
  cbn -[lookup insert delete]. rewrite Hp.
  eexists. eexists. split; [reflexivity |].
  apply settle_pending; [exact Hpending | discriminate].
Qed.

(** C3, evaluated on the source: [load()] starts a 15000 ms timer that
    guards the promise it returns. When the timer elapses before the frame
    has loaded, the promise returned by [load()] is still pending: it is not
    settled with a Timeout error. What is rejected with the Timeout error
    is the race made by [timeoutPromise], whose rejection is caught and, in
    a top window, logged as a warning. The frame stays attached, and if it
    loads and initializes afterwards the promise is resolved, provided
    [OneSignal.config] is not undefined (with an undefined config
    [onMessengerConnect] throws and never asks the frame to initialize). *)
Theorem load_timeout_leaves_promise_pending (h : Host) (w : World)
    (Hwf : wellFormed w) :
  let h1 := fst (fst (load h w)) in
  let w1 := snd (fst (load h w)) in
  let p := snd (load h w) in
  let w2 := elapse (length (timers w)) w1 in
  let o3 := onFrameLoad h1 w2 in
  let o4 := deliver (fromFrame h1 0 Commands.CONNECTED VNull)
                    (hostAfter o3) (worldAfter o3) in
  let o5 := deliver (fromFrame h1 1 Commands.IFRAME_POPUP_INITIALIZE
                       (VString Commands.REMOTE_OPERATION_COMPLETE))
                    (hostAfter o4) (worldAfter o4) in
  timers w1 = timers w ++ [mkTimer 15000 p (S p)] /\
  promises w1 !! p = Some Pending /\
  promises w2 !! p = Some Pending /\
  promises w2 !! p <> Some (Rejected TimeoutError) /\
  promises w2 !! S p = Some (Rejected TimeoutError) /\
  warnings w2
  = warnings w ++
    (if windowIsTop (page w)
     then [loadTimedOutWarning (Url.toString (url h)) (locationOrigin (page w))]
     else []) /\
  body w2 = body w1 /\
  In (mkIFrame (nextFrameId w) (Url.toString (url h)) "none" iframeSandbox) (body w2) /\
  (config (page w) <> VUndefined ->
   promises (worldAfter o5) !! p = Some (Fulfilled VUndefined)).
Proof.
  intros h1 w1 p w2 o3 o4 o5.
  assert (w2 = elapse (length (timers w)) (snd (fst (load h w)))) as Hw2 by reflexivity.
  rewrite (elapse_after_load h w Hwf) in Hw2.
  assert (promises w2 !! p = Some Pending) as Hpending.
  { rewrite Hw2. unfold p. rewrite load_eq. apply lookup_snoc2_first. }
  split; [unfold w1, p; rewrite load_eq; reflexivity |].
  split; [unfold w1, p; rewrite load_eq; apply lookup_snoc2_first |].
  split; [exact Hpending |].
  split; [rewrite Hpending; discriminate |].
  split; [rewrite Hw2; unfold p; rewrite load_eq; apply lookup_snoc2_second |].
  split; [rewrite Hw2; reflexivity |].
  split; [rewrite Hw2; unfold w1; rewrite load_eq; reflexivity |].
  split; [rewrite Hw2; cbn; apply in_or_app; right; now left |].
  (* the frame loads after all *)
  intros Hconfig.
  assert (o3 = Returned
                 (mkHost (url h) (element h1)
                         (Some (hostChannel (Url.toString (url h)))) (Some p))
                 (post (mkEnvelope 0 Commands.CONNECTED VNull false
                                   (Url.toString (url h))) w2)) as Ho3.
  { unfold o3, onFrameLoad.
    rewrite (establish_eq h1 w2 (nextFrameId w)) by (unfold h1; now rewrite load_eq).
    unfold h1, p. rewrite load_eq. reflexivity. }
  set (h3 := mkHost (url h) (element h1)
                    (Some (hostChannel (Url.toString (url h)))) (Some p)) in *.
  set (w3 := post _ w2) in Ho3.
  assert (config (page w3) <> VUndefined) as Hconfig3
    by (unfold w3; cbn [page post]; rewrite Hw2; exact Hconfig).
  destruct (deliver_connected h3 w3 eq_refl Hconfig3)
    as (m4 & env & Ho4 & Hl & Hr & Hk & _).
  assert (fromFrame h1 0 Commands.CONNECTED VNull
          = fromFrame h3 0 Commands.CONNECTED VNull) as Hf0
    by (unfold fromFrame, h1; rewrite load_eq; reflexivity).
  assert (o4 = Returned (mkHost (url h3) (element h3) (Some m4) (loadPromise h3))
                        (post env w3)) as Ho4'.
  { unfold o4. rewrite Ho3, Hf0. exact Ho4. }
  set (h4 := mkHost (url h3) (element h3) (Some m4) (loadPromise h3)) in *.
  destruct (deliver_initialized h4 (post env w3) m4 p eq_refl Hl Hr Hk eq_refl Hpending)
    as (h5 & w5 & Ho5 & Hdone).
  assert (fromFrame h1 1 Commands.IFRAME_POPUP_INITIALIZE
            (VString Commands.REMOTE_OPERATION_COMPLETE)
          = fromFrame h4 1 Commands.IFRAME_POPUP_INITIALIZE
              (VString Commands.REMOTE_OPERATION_COMPLETE)) as Hf1
    by (unfold fromFrame, h1; rewrite load_eq; reflexivity).
  unfold o5. rewrite Ho4', Hf1. cbn [hostAfter worldAfter]. rewrite Ho5. exact Hdone.
Qed.

Lemma load_timeout_leaves_promise_pending_witness :
  let pg := mkPage true "http://localhost/" "http://localhost" "Site" VNull
                   VUndefined VUndefined in
  let h := new (Url.mkURL "https:" "acme.os.tc" "" "/") in
  let h1 := fst (fst (load h (freshWorld pg))) in
  let w1 := snd (fst (load h (freshWorld pg))) in
  let w2 := elapse 0 w1 in
  let o3 := onFrameLoad h1 w2 in
  let o4 := deliver (fromFrame h1 0 Commands.CONNECTED VNull)
                    (hostAfter o3) (worldAfter o3) in
  let o5 := deliver (fromFrame h1 1 Commands.IFRAME_POPUP_INITIALIZE
                       (VString Commands.REMOTE_OPERATION_COMPLETE))
                    (hostAfter o4) (worldAfter o4) in
  snd (load h (freshWorld pg)) = 0 /\
  timers w1 = [mkTimer 15000 0 1] /\
  promises w2 = [Pending; Rejected TimeoutError] /\
  List.map src (body w2) = ["https://acme.os.tc/webPushIframe"] /\
  length (warnings w2) = 1 /\
  promises (worldAfter o5) !! 0 = Some (Fulfilled VUndefined).
Proof.
  intros pg h h1 w1 w2 o3 o4 o5.
  assert (wellFormed (freshWorld pg)) as Hwf by (split; constructor).
  destruct (load_timeout_leaves_promise_pending h (freshWorld pg) Hwf)
    as (Htimers & _ & Hp & _ & Hr & Hwarn & _ & _ & Hlater).
  split; [reflexivity |]. split; [exact Htimers |].
  split; [reflexivity |]. split; [reflexivity |].
  split.
  - change (length (warnings (elapse 0 (snd (fst (load h (freshWorld pg)))))) = 1).
    cbn [timers freshWorld length] in Hwarn. rewrite Hwarn. reflexivity.
  - apply Hlater. discriminate.
Defined.

End LoadTimeout.

(** ** More on strings *)

Section StringFacts.

Import Navigation.

Lemma endsWith_cons (c : ascii) (s suffix : string) :
  JsString.endsWith (String c s) suffix
  = String.eqb (String c s) suffix || JsString.endsWith s suffix.
Proof. reflexivity. Qed.

Lemma endsWith_app (a suffix : string) : JsString.endsWith (a +:+ suffix) suffix = true.
Proof.
  induction a as [|c a IH].
  - change ("" +:+ suffix) with suffix. destruct suffix as [|d suffix].
    + reflexivity.
    + rewrite endsWith_cons, String.eqb_refl. reflexivity.
  - rewrite append_cons, endsWith_cons, IH. apply orb_true_r.
Qed.

(** [endsWith] is what its name says. *)
Lemma endsWith_iff (s suffix : string) :
  JsString.endsWith s suffix = true <-> exists pre, s = pre +:+ suffix.
Proof.
  split.
  - induction s as [|c s IH].
    + destruct suffix; [| discriminate]. intros _. exists "". reflexivity.
    + rewrite endsWith_cons. intros H. apply orb_true_iff in H as [H | H].
      * apply String.eqb_eq in H. exists "". now rewrite H.
      * destruct (IH H) as [pre ->]. exists (String c pre). reflexivity.
  - intros [pre ->]. apply endsWith_app.
Qed.

Lemma includes_unfold (sub s : string) :
  JsString.includes sub s
  = String.prefix sub s ||
    match s with
    | EmptyString => false
    | String _ rest => JsString.includes sub rest
    end.
Proof. destruct s; reflexivity. Qed.

Lemma includes_app (sub pre s : string) :
  String.prefix sub s = true -> JsString.includes sub (pre +:+ s) = true.
Proof.
  intros Hp. induction pre as [|c pre IH].
  - change ("" +:+ s) with s. rewrite includes_unfold, Hp. reflexivity.
  - rewrite append_cons, includes_unfold, IH. apply orb_true_r.
Qed.

Lemma lastChar_app (a b : string) :
  b <> "" -> lastChar (a +:+ b) = lastChar b.
Proof.
  intros Hb. induction a as [|c a IH]; [reflexivity |].
  rewrite append_cons. simpl. rewrite IH.
  destruct (a +:+ b) eqn:Hab; [| reflexivity].
  destruct a; [change ("" +:+ b) with b in Hab; contradiction | discriminate].
Qed.

Lemma endsWith_lastChar (s suffix : string) :
  suffix <> "" -> JsString.endsWith s suffix = true -> lastChar s = lastChar suffix.
Proof.
  intros Hne H. apply endsWith_iff in H as [pre ->]. now apply lastChar_app.
Qed.

Lemma prefix_all (test : ascii -> bool) (sub s : string) :
  String.prefix sub s = true -> JsString.all test s = true -> JsString.all test sub = true.
Proof.
  revert s. induction sub as [|c sub IH]; intros s Hp Hs; [reflexivity |].
  destruct s as [|d s]; [discriminate |]. simpl in Hp, Hs |- *.
  destruct (ascii_dec c d) as [-> | Hne]; [| discriminate].
  apply andb_true_iff in Hs as [-> Hs]. now apply (IH s).
Qed.

(** A text that occurs in a string passes every test the string's
    characters pass. *)
Lemma includes_all (test : ascii -> bool) (sub s : string) :
  JsString.includes sub s = true -> JsString.all test s = true ->
  JsString.all test sub = true.
Proof.
  induction s as [|c s IH]; rewrite includes_unfold; intros H Hs.
  - rewrite orb_false_r in H. now apply (prefix_all test sub "").
  - apply orb_true_iff in H as [H | H].
    + now apply (prefix_all test sub (String c s)).
    + simpl in Hs. apply andb_true_iff in Hs as [_ Hs]. now apply IH.
Qed.

Lemma lowerChar_not_upper (c : ascii) :
  JsString.isUpper (JsString.lowerChar c) = false.
Proof. destruct c as [[] [] [] [] [] [] [] []]; vm_compute; reflexivity. Qed.

(** Lower-casing leaves no capital letter. *)
Lemma asciiLower_no_upper (s : string) :
  JsString.all (fun c => negb (JsString.isUpper c)) (JsString.asciiLower s) = true.
Proof.
  induction s as [|c s IH]; [reflexivity |].
  simpl. now rewrite lowerChar_not_upper, IH.
Qed.

(** Lower-casing changes nothing in a string without capital letters. *)
Lemma asciiLower_id (s : string) :
  JsString.all (fun c => negb (JsString.isUpper c)) s = true -> JsString.asciiLower s = s.
Proof.
  induction s as [|c s IH]; [reflexivity |].
  simpl. intros H. apply andb_true_iff in H as [Hc Hs].
  unfold JsString.lowerChar. apply negb_true_iff in Hc. now rewrite Hc, IH.
Qed.

End StringFacts.

(** ** The URLs of the proxy frame and of the popup *)

Section SdkUrls.

Import SdkEnvironment AltOriginManager Navigation.

Lemma getCanonicalSubscriptionUrl_eq (config : AppConfig)
    (buildEnv : BuildEnvironmentKind) :
  Url.plainLabel (subdomain config) = true ->
  getCanonicalSubscriptionUrl config buildEnv
  = Url.mkURL "https:"
      (JsString.asciiLower (subdomain config) +:+ "." +:+ domainOf config buildEnv)
      (Url.port (getOneSignalApiUrl buildEnv)) "/".
Proof.
  intros Hplain. unfold getCanonicalSubscriptionUrl, domainOf.
  rewrite !join2.
  destruct (useLegacyDomain config), buildEnv; simpl negb; simpl andb; cbv iota;
    rewrite !(set_host_label _ _ _ Hplain); reflexivity.
Qed.

(** X1: for every subdomain that is a plain host label (letters, digits
    and hyphens, not starting with [xn--]), the canonical subscription URL
    is [https://{subdomain}.{domain}[:port]/] with the subdomain in lower
    case, where the domain is [os.tc] exactly for a production build with
    the legacy domain off and the API host of the build environment
    otherwise, and the port is the API URL's. A subdomain without capital
    letters appears as it is. *)
Theorem getCanonicalSubscriptionUrl_closed_form (config : AppConfig)
    (buildEnv : BuildEnvironmentKind)
    (Hplain : Url.plainLabel (subdomain config) = true) :
  getCanonicalSubscriptionUrl config buildEnv
  = Url.mkURL "https:"
      (JsString.asciiLower (subdomain config) +:+ "." +:+ domainOf config buildEnv)
      (Url.port (getOneSignalApiUrl buildEnv)) "/" /\
  (domainOf config buildEnv = "os.tc" <->
   useLegacyDomain config = false /\ buildEnv = Production) /\
  (JsString.all (fun c => negb (JsString.isUpper c)) (subdomain config) = true ->
   JsString.asciiLower (subdomain config) = subdomain config).
Proof.
  split; [now apply getCanonicalSubscriptionUrl_eq |].
  split; [| apply asciiLower_id].
  unfold domainOf. destruct (useLegacyDomain config), buildEnv; simpl;
    split; try discriminate; try (intros [? ?]; discriminate); auto.
Qed.

Lemma getCanonicalSubscriptionUrl_closed_form_witness :
  getCanonicalSubscriptionUrl (mkAppConfig "ACME" false) Development
  = Url.mkURL "https:" "acme.localhost" "3001" "/" /\
  getCanonicalSubscriptionUrl (mkAppConfig "acme" true) Production
  = Url.mkURL "https:" "acme.onesignal.com" "" "/".
Proof.
  split.
  - exact (proj1 (getCanonicalSubscriptionUrl_closed_form
                    (mkAppConfig "ACME" false) Development eq_refl)).
  - exact (proj1 (getCanonicalSubscriptionUrl_closed_form
                    (mkAppConfig "acme" true) Production eq_refl)).
Defined.






(** The address of a URL whose path has been set to [webPushIframe]. *)
Lemma toString_webPushIframe (u : Url.URL) :
  Url.toString (Url.set_pathname u "webPushIframe") = Url.origin u +:+ "/webPushIframe".
Proof.
  unfold Url.toString, Url.origin, Url.set_pathname, Url.host.
  cbn [Url.protocol Url.hostname Url.port Url.pathname].
  change (String.prefix "/" "webPushIframe") with false. cbv iota.
  change ("/" +:+ "webPushIframe") with "/webPushIframe".
  now rewrite !append_assoc.
Qed.

(** X2: the proxy frame URL and the popup URL of a configuration have the
    origin of the canonical URL; a host constructed from the proxy frame
    URL, or from the canonical URL itself, keeps that URL with the path
    [/webPushIframe], and the iframe its [load()] attaches has it as [src]. *)
Theorem proxy_frame_url_of_config (ctx : Context) (config : AppConfig)
    (w : Browser.World)
    (Hfree : JsString.colonFree (subdomain config) = true) :
  let canonical := getCanonicalSubscriptionUrl_default ctx config in
  let u := getOneSignalProxyIframeUrl ctx config in
  Url.origin u = Url.origin canonical /\
  Url.origin (getOneSignalSubscriptionPopupUrl ctx config) = Url.origin canonical /\
  ProxyFrameHost.url (ProxyFrameHost.new u) = u /\
  ProxyFrameHost.new canonical = ProxyFrameHost.new u /\
  Url.toString u = Url.origin canonical +:+ "/webPushIframe" /\
  last (Browser.body (snd (fst (ProxyFrameHost.load (ProxyFrameHost.new u) w))))
  = Some (Browser.mkIFrame (Browser.nextFrameId w)
            (Url.origin canonical +:+ "/webPushIframe") "none"
            ProxyFrameHost.iframeSandbox).
Proof.
  intros canonical u.
  assert (Url.toString u = Url.origin canonical +:+ "/webPushIframe") as Hstr
    by apply toString_webPushIframe.
  split; [reflexivity |]. split; [reflexivity |].
  split; [reflexivity |]. split; [reflexivity |]. split; [exact Hstr |].
  rewrite body_load, last_snoc. cbn [ProxyFrameHost.url ProxyFrameHost.new].
  change (Url.set_pathname u "webPushIframe") with u. now rewrite Hstr.
Qed.

Lemma proxy_frame_url_of_config_witness :
  let ctx := mkContext None None false false in
  let w := Browser.freshWorld
             (Browser.mkPage true "http://localhost/" "http://localhost" "Site"
                Postmam.VNull Postmam.VUndefined Postmam.VUndefined) in
  last (Browser.body (snd (fst (ProxyFrameHost.load
       (ProxyFrameHost.new (getOneSignalProxyIframeUrl ctx (mkAppConfig "acme" false))) w))))
  = Some (Browser.mkIFrame 0 "https://acme.os.tc/webPushIframe" "none"
            ProxyFrameHost.iframeSandbox).
Proof.
  intros ctx w.
  pose proof (proxy_frame_url_of_config ctx (mkAppConfig "acme" false) w eq_refl)
    as (_ & _ & _ & _ & _ & Hlast).
  rewrite Hlast. reflexivity.
Defined.

End SdkUrls.

(** ** The SDK's own pages, classified *)

Section OwnPages.

Import SdkEnvironment AltOriginManager Navigation.

(** X3: a window that is not top-most and has loaded the URL of a
    [ProxyFrameHost] (whatever origin the host was constructed with) is
    classified OneSignalProxyFrame. *)
Theorem proxy_frame_page_classified (ctx : Context) (w : Window) (origin : Url.URL)
    (Hwin : window ctx = Some w)
    (Hframe : isTop w = false)
    (Hloc : location w = locationOf (ProxyFrameHost.url (ProxyFrameHost.new origin))) :
  getWindowEnv ctx = OneSignalProxyFrame.
Proof.
  unfold getWindowEnv. rewrite Hwin, Hframe, Hloc. reflexivity.
Qed.

Lemma proxy_frame_page_classified_witness :
  let origin := getCanonicalSubscriptionUrl (mkAppConfig "acme" true) Staging in
  let w := mkWindow false (locationOf (ProxyFrameHost.url (ProxyFrameHost.new origin))) in
  loc_pathname (location w) = "/webPushIframe" /\
  loc_hostname (location w) = "acme.onesignal-staging.pw" /\
  getWindowEnv (mkContext (Some w) None false true) = OneSignalProxyFrame.
Proof.
  intros origin w. split; [reflexivity |]. split; [reflexivity |].
  exact (proxy_frame_page_classified (mkContext (Some w) None false true) w origin
           eq_refl eq_refl eq_refl).
Defined.

(** X4: a top-most window that has loaded the subscription popup URL of a
    configuration (whose subdomain is a plain host label) is classified
    OneSignalSubscriptionPopup in a production and in a development build;
    in a staging build it is classified Host: its host ends in neither
    [.onesignal.com] nor [.os.tc], and its address, the subdomain in it
    being in lower case, cannot contain "initOneSignal". *)
Theorem popup_page_classified (ctx : Context) (w : Window) (config : AppConfig)
    (Hplain : Url.plainLabel (subdomain config) = true)
    (Hwin : window ctx = Some w)
    (Htop : isTop w = true)
    (Hloc : location w = locationOf (getOneSignalSubscriptionPopupUrl ctx config)) :
  (getBuildEnv ctx <> Staging -> getWindowEnv ctx = OneSignalSubscriptionPopup) /\
  (getBuildEnv ctx = Staging -> getWindowEnv ctx = Host).
Proof.
  unfold getWindowEnv, isPopupLocation. rewrite Hwin, Htop, Hloc.
  unfold getOneSignalSubscriptionPopupUrl, getCanonicalSubscriptionUrl_default.
  rewrite (getCanonicalSubscriptionUrl_eq _ _ Hplain).
  cbn [locationOf href loc_pathname search loc_hostname Url.set_pathname
       Url.pathname Url.hostname Url.protocol Url.port].
  change (String.prefix "/" "subscribe") with false. cbv iota.
  change (String.eqb ("/" +:+ "subscribe") "/subscribe") with true.
  change (String.eqb "" "") with true. cbn [andb].
  unfold domainOf.
  set (sub := JsString.asciiLower (subdomain config)).
  split.
  - intros Hns.
    destruct (getBuildEnv ctx) eqn:Henv; [| congruence |].
    + (* development *)
      rewrite andb_false_r. cbn [getOneSignalApiUrl Url.hostname].
      change ("." +:+ "localhost") with ".localhost".
      rewrite (includes_app ".localhost" sub (".localhost")) by reflexivity.
      cbn. rewrite !orb_true_r. reflexivity.
    + (* production *)
      destruct (useLegacyDomain config); cbn [negb andb BuildEnvironmentKind_eqb
        getOneSignalApiUrl Url.hostname].
      * change ("." +:+ "onesignal.com") with ".onesignal.com".
        rewrite (endsWith_app sub ".onesignal.com").
        cbn. rewrite orb_true_r. reflexivity.
      * change ("." +:+ "os.tc") with ".os.tc".
        rewrite (endsWith_app sub ".os.tc").
        cbn. rewrite !orb_true_r. reflexivity.
  - intros ->. rewrite andb_false_r. cbn [getOneSignalApiUrl Url.hostname
      BuildEnvironmentKind_eqb andb].
    rewrite andb_false_r, orb_false_r.
    assert (JsString.endsWith (sub +:+ "." +:+ "onesignal-staging.pw")
                              ".onesignal.com" = false) as ->.
    { apply not_true_is_false. intros H.
      apply endsWith_lastChar in H; [| discriminate].
      rewrite lastChar_app in H by discriminate. discriminate. }
    assert (JsString.endsWith (sub +:+ "." +:+ "onesignal-staging.pw")
                              ".os.tc" = false) as ->.
    { apply not_true_is_false. intros H.
      apply endsWith_lastChar in H; [| discriminate].
      rewrite lastChar_app in H by discriminate. discriminate. }
    cbn [orb]. rewrite orb_false_r.
    match goal with
    | |- (if JsString.includes "initOneSignal" ?address then _ else _) = _ =>
        assert (JsString.includes "initOneSignal" address = false) as ->;
          [| reflexivity]
    end.
    apply not_true_is_false. intros H.
    apply (includes_all (fun c => negb (JsString.isUpper c))) in H; [discriminate H |].
    unfold Url.toString, Url.host, Url.set_pathname.
    cbn [Url.protocol Url.hostname Url.port Url.pathname].
    change (String.eqb "" "") with true. cbv iota.
    rewrite !all_app. unfold sub. rewrite asciiLower_no_upper. reflexivity.
Qed.

Lemma popup_page_classified_witness :
  let ctx := mkContext
    (Some (mkWindow true
       (locationOf (getOneSignalSubscriptionPopupUrl (mkContext None None false true)
                      (mkAppConfig "initOneSignal" true)))))
    None false true in
  getBuildEnv ctx = Staging /\
  href (locationOf (getOneSignalSubscriptionPopupUrl ctx (mkAppConfig "initOneSignal" true)))
  = "https://initonesignal.onesignal-staging.pw/subscribe" /\
  getWindowEnv ctx = Host.
Proof.
  intros ctx. split; [reflexivity |]. split; [reflexivity |].
  exact (proj2 (popup_page_classified ctx
                  (mkWindow true
                     (locationOf (getOneSignalSubscriptionPopupUrl ctx
                                    (mkAppConfig "initOneSignal" true))))
                  (mkAppConfig "initOneSignal" true) eq_refl eq_refl eq_refl eq_refl)
               eq_refl).
Defined.

End OwnPages.

(** ** More on promises *)

Section MorePromises.

Import Postmam Browser.

Lemma runReaction_posted (r : Reaction) (w : World) : posted (runReaction r w) = posted w.
Proof. destruct r. unfold runReaction. now destruct (windowIsTop (page w)). Qed.

Lemma runReaction_timers (r : Reaction) (w : World) : timers (runReaction r w) = timers w.
Proof. destruct r. unfold runReaction. now destruct (windowIsTop (page w)). Qed.

Lemma runCatches_posted (p : nat) (w : World) : posted (runCatches p w) = posted w.
Proof.
  unfold runCatches. apply (foldl_invariant posted).
  intros a [q r]. destruct (Nat.eqb q p); [apply runReaction_posted | reflexivity].
Qed.

Lemma runCatches_timers (p : nat) (w : World) : timers (runCatches p w) = timers w.
Proof.
  unfold runCatches. apply (foldl_invariant timers).
  intros a [q r]. destruct (Nat.eqb q p); [apply runReaction_timers | reflexivity].
Qed.

Lemma settle1_posted (q : nat) (st : PromiseState) (w : World) :
  posted (settle1 q st w) = posted w.
Proof.
  unfold settle1. destruct (promises w !! q) as [[]|]; try reflexivity.
  destruct st; try reflexivity. now rewrite runCatches_posted.
Qed.

Lemma settle1_timers (q : nat) (st : PromiseState) (w : World) :
  timers (settle1 q st w) = timers w.
Proof.
  unfold settle1. destruct (promises w !! q) as [[]|]; try reflexivity.
  destruct st; try reflexivity. now rewrite runCatches_timers.
Qed.

Lemma settle1_fulfilled_warnings (q : nat) (v : Value) (w : World) :
  warnings (settle1 q (Fulfilled v) w) = warnings w.
Proof. unfold settle1. now destruct (promises w !! q) as [[]|]. Qed.

(** The projections that settling a promise leaves alone. *)
Lemma settle_keeps {C : Type} (proj : World -> C) (p : nat) (st : PromiseState)
    (w : World) :
  (forall q w, proj (settle1 q st w) = proj w) ->
  proj (settle p st w) = proj w.
Proof.
  intros Hone. unfold settle. destruct (promises w !! p) as [[]|]; try reflexivity.
  rewrite (foldl_invariant proj).
  - apply Hone.
  - intros a t. destruct (Nat.eqb (watched t) p); [apply Hone | reflexivity].
Qed.

Lemma settle_posted (p : nat) (st : PromiseState) (w : World) :
  posted (settle p st w) = posted w.
Proof. apply (settle_keeps posted). intros. apply settle1_posted. Qed.

Lemma settle_timers (p : nat) (st : PromiseState) (w : World) :
  timers (settle p st w) = timers w.
Proof. apply (settle_keeps timers). intros. apply settle1_timers. Qed.

Lemma settle_body (p : nat) (st : PromiseState) (w : World) :
  body (settle p st w) = body w.
Proof. apply (settle_keeps body). intros. apply settle1_body. Qed.

Lemma settle_fulfilled_warnings (p : nat) (v : Value) (w : World) :
  warnings (settle p (Fulfilled v) w) = warnings w.
Proof. apply (settle_keeps warnings). intros. apply settle1_fulfilled_warnings. Qed.

Lemma settle1_lookup_ne (q r : nat) (st : PromiseState) (w : World) :
  r <> q -> promises (settle1 r st w) !! q = promises w !! q.
Proof.
  intros Hne. rewrite settle1_promises.
  destruct (promises w !! r) as [[]|]; try reflexivity.
  now apply list_lookup_insert_ne.
Qed.

(** Settling [p] leaves alone every promise that is neither [p] nor a race
    that [p] takes part in. *)
Lemma settle_other (p q : nat) (st : PromiseState) (w : World) :
  q <> p ->
  Forall (fun t => watched t = p -> race t <> q) (timers w) ->
  promises (settle p st w) !! q = promises w !! q.
Proof.
  intros Hne Hts. unfold settle. destruct (promises w !! p) as [[]|]; try reflexivity.
  assert (promises (settle1 p st w) !! q = promises w !! q) as <-
    by (apply settle1_lookup_ne; congruence).
  generalize (settle1 p st w) as w1. induction Hts as [|t ts Ht _ IH]; intros w1.
  - reflexivity.
  - simpl. rewrite IH. destruct (Nat.eqb_spec (watched t) p) as [Hw | _]; [| reflexivity].
    apply settle1_lookup_ne. now apply Ht.
Qed.

(** Settling [p] settles, in the same way, the race of every timer that
    guards it. *)
Lemma settle_race (p r : nat) (st : PromiseState) (w : World) (t : Timer) :
  promises w !! p = Some Pending ->
  promises w !! r = Some Pending ->
  r <> p -> st <> Pending ->
  t ∈ timers w -> watched t = p -> race t = r ->
  promises (settle p st w) !! r = Some st.
Proof.
  intros Hp Hr Hne Hst Hin Hwatched Hrace. unfold settle. rewrite Hp.
  assert (promises (settle1 p st w) !! r = Some Pending) as Hr1
    by (rewrite settle1_lookup_ne by congruence; exact Hr).
  revert Hr1 Hin. generalize (settle1 p st w) as w1. generalize (timers w) as ts.
  induction ts as [|u ts IH]; intros w1 Hr1 Hin; [inversion Hin |].
  simpl. apply elem_of_cons in Hin as [<- | Hin].
  - rewrite Hwatched, Nat.eqb_refl, Hrace.
    assert (promises (settle1 r st w1) !! r = Some st) as Hdone.
    { rewrite settle1_promises, Hr1. apply list_lookup_insert_eq.
      eapply lookup_lt_Some; eauto. }
    revert Hdone. generalize (settle1 r st w1) as w2. clear -Hst.
    induction ts as [|u ts IH]; intros w2 Hdone; simpl; [exact Hdone |].
    apply IH. destruct (Nat.eqb (watched u) p); [| exact Hdone].
    now apply settle1_keeps.
  - destruct (Nat.eqb (watched u) p) eqn:Hu; [| now apply IH].
    destruct (decide (race u = r)) as [-> | Hother].
    + assert (promises (settle1 r st w1) !! r = Some st) as Hdone.
      { rewrite settle1_promises, Hr1. apply list_lookup_insert_eq.
        eapply lookup_lt_Some; eauto. }
      revert Hdone. generalize (settle1 r st w1) as w2. clear -Hst.
      induction ts as [|v ts IH]; intros w2 Hdone; simpl; [exact Hdone |].
      apply IH. destruct (Nat.eqb (watched v) p); [| exact Hdone].
      now apply settle1_keeps.
    + apply IH; [| exact Hin]. rewrite settle1_lookup_ne by exact Hother. exact Hr1.
Qed.

(** A timer that elapses after its race has settled does nothing but
    leave the list of timers. *)
Lemma elapse_settled (k : nat) (w : World) (t : Timer) (s : PromiseState) :
  timers w !! k = Some t ->
  promises w !! race t = Some s -> s <> Pending ->
  promises (elapse k w) = promises w /\ warnings (elapse k w) = warnings w /\
  body (elapse k w) = body w /\ posted (elapse k w) = posted w.
Proof.
  intros Hk Hs Hne. unfold elapse, settle1. rewrite Hk. cbn [promises setTimers].
  rewrite Hs. destruct s; [congruence | |]; repeat split; reflexivity.
Qed.

End MorePromises.

(** ** ProxyFrameHost: before, during and after a connection *)

Section HostLifecycle.

Import Postmam Browser ProxyFrameHost.

Lemma setMessenger_same (h : Host) (m : Channel Handler ReplyCallback) :
  messenger h = Some m -> setMessenger m h = h.
Proof. destruct h as [u el mm lp]. simpl. now intros ->. Qed.

(** X5: on a host whose messenger is undefined, [message()] throws a
    TypeError, while [isSubscribed()] does not throw: it returns a promise
    that is already rejected with that TypeError, posts nothing and leaves
    the host as it was. *)
Theorem isSubscribed_without_messenger (h : Host) (w : World)
    (Hundefined : messenger h = None) :
  (forall command data onReply,
     message command data onReply h w
     = Threw (TypeError "Cannot read property 'message' of undefined") h w) /\
  fst (fst (isSubscribed h w)) = h /\
  posted (snd (fst (isSubscribed h w))) = posted w /\
  body (snd (fst (isSubscribed h w))) = body w /\
  promises (snd (fst (isSubscribed h w))) !! snd (isSubscribed h w)
  = Some (Rejected (TypeError "Cannot read property 'message' of undefined")).
Proof.
  assert (forall command data onReply w',
            message command data onReply h w'
            = Threw (TypeError "Cannot read property 'message' of undefined") h w') as Hmsg.
  { intros. unfold message. now rewrite Hundefined. }
  split; [intros; apply Hmsg |].
  unfold isSubscribed, newPromise. rewrite Hmsg. cbn [fst snd].
  split; [reflexivity |].
  split; [now rewrite settle_posted |].
  split; [now rewrite settle_body |].
  apply settle_pending; [| discriminate].
  cbn. apply list_lookup_middle. reflexivity.
Qed.

Lemma isSubscribed_without_messenger_witness :
  let pg := mkPage true "http://localhost/" "http://localhost" "Site" VNull
                   VUndefined VUndefined in
  let h := new (Url.mkURL "https:" "acme.os.tc" "" "/") in
  promises (snd (fst (isSubscribed h (freshWorld pg)))) !! 0
  = Some (Rejected (TypeError "Cannot read property 'message' of undefined")) /\
  posted (snd (fst (isSubscribed h (freshWorld pg)))) = [].
Proof.
  intros pg h.
  destruct (isSubscribed_without_messenger h (freshWorld pg) eq_refl)
    as (_ & _ & Hposted & _ & Hp).
  split; [exact Hp | exact Hposted].
Defined.

Lemma removeFirst_none (matches : IFrame -> bool) (frames : list IFrame) :
  List.filter matches frames = [] -> removeFirst matches frames = frames.
Proof.
  induction frames as [|f rest IH]; [reflexivity |].
  simpl. destruct (matches f); [discriminate |]. intros H. now rewrite IH.
Qed.

(** X6: once the messenger exists, and with at most one frame of the
    host's URL attached, [dispose()] returns: the frame is detached and the
    messenger is destroyed, with no handler and no pending reply left.
    After that every message delivered to the host is dropped and changes
    nothing, and disposing again changes nothing either. *)
Theorem dispose_established (h : Host) (w : World)
    (m : Channel Handler ReplyCallback)
    (Hmessenger : messenger h = Some m)
    (Hone : attached (Url.toString (url h)) w <= 1) :
  let h' := setMessenger (fst (destroy m)) h in
  let w' := removeFrame h w in
  dispose h w = Returned h' w' /\
  attached (Url.toString (url h)) w' = 0 /\
  (exists m', messenger h' = Some m' /\ lifecycle m' = Destroyed /\
              registry m' = ∅ /\ pendingReplies m' = ∅) /\
  (forall msg, deliver msg h' w' = Returned h' w') /\
  dispose h' w' = Returned h' w'.
Proof.
  intros h' w'.
  assert (attached (Url.toString (url h)) w' = 0) as Hzero
    by (unfold w'; rewrite attached_removeFrame_same; lia).
  split; [unfold dispose; now rewrite Hmessenger |].
  split; [exact Hzero |].
  split; [eexists; repeat split |].
  split.
  - intros msg. unfold deliver. cbn. reflexivity.
  - unfold dispose. cbn [h' messenger setMessenger]. f_equal.
    unfold removeFrame. cbn [url h' setMessenger].
    rewrite removeFirst_none.
    + unfold w', removeFrame. reflexivity.
    + unfold attached in Hzero. now apply length_zero_iff_nil in Hzero.
Qed.

Lemma dispose_established_witness :
  let pg := mkPage true "http://localhost/" "http://localhost" "Site" VNull
                   VUndefined VUndefined in
  let h0 := new (Url.mkURL "https:" "acme.os.tc" "" "/") in
  let h1 := fst (fst (load h0 (freshWorld pg))) in
  let w1 := snd (fst (load h0 (freshWorld pg))) in
  let h := hostAfter (onFrameLoad h1 w1) in
  let w := worldAfter (onFrameLoad h1 w1) in
  attached "https://acme.os.tc/webPushIframe" w = 1 /\
  exists h' w', dispose h w = Returned h' w' /\ body w' = [] /\
    deliver (fromFrame h 0 Commands.CONNECTED VNull) h' w' = Returned h' w'.
Proof.
  intros pg h0 h1 w1 h w.
  destruct (messenger h) as [m|] eqn:Hm; [| discriminate].
  assert (attached (Url.toString (url h)) w <= 1) as Hone by (vm_compute; lia).
  destruct (dispose_established h w m Hm Hone) as (Hd & _ & _ & Hdrop & _).
  split; [reflexivity |].
  eexists. eexists. split; [exact Hd |]. split; [reflexivity |]. apply Hdrop.
Defined.

(** The handshake and the initialization as the frame drives them, on a
    host that has its element and a pending load promise, on a page whose
    [OneSignal.config] is not undefined. *)
Lemma connect_sequence (h : Host) (w : World) (e p : nat) :
  element h = Some e -> loadPromise h = Some p ->
  promises w !! p = Some Pending ->
  config (page w) <> VUndefined ->
  let o3 := onFrameLoad h w in
  let o4 := deliver (fromFrame h 0 Commands.CONNECTED VNull)
                    (hostAfter o3) (worldAfter o3) in
  let o5 := deliver (fromFrame h 1 Commands.IFRAME_POPUP_INITIALIZE
                       (VString Commands.REMOTE_OPERATION_COMPLETE))
                    (hostAfter o4) (worldAfter o4) in
  exists env1 env2,
    worldAfter o5 = settle p (Fulfilled VUndefined) (post env2 (post env1 w)).
Proof.
  intros He Hp Hpending Hconfig o3 o4 o5.
  set (h3 := mkHost (url h) (element h)
                    (Some (hostChannel (Url.toString (url h)))) (loadPromise h)).
  assert (o3 = Returned h3 (post (mkEnvelope 0 Commands.CONNECTED VNull false
                                     (Url.toString (url h))) w)) as Ho3
    by (unfold o3, onFrameLoad; now rewrite (establish_eq h w e He)).
  set (w3 := post _ w) in Ho3.
  destruct (deliver_connected h3 w3 eq_refl Hconfig)
    as (m4 & env & Ho4 & Hl & Hr & Hk & _).
  change (fromFrame h3 0 Commands.CONNECTED VNull)
    with (fromFrame h 0 Commands.CONNECTED VNull) in Ho4.
  set (h4 := mkHost (url h3) (element h3) (Some m4) (loadPromise h3)) in *.
  assert (o4 = Returned h4 (post env w3)) as Ho4'
    by (unfold o4; rewrite Ho3; exact Ho4).
  exists (mkEnvelope 0 Commands.CONNECTED VNull false (Url.toString (url h))), env.
  unfold o5. rewrite Ho4'. cbn [hostAfter worldAfter].
  change (fromFrame h 1 Commands.IFRAME_POPUP_INITIALIZE
            (VString Commands.REMOTE_OPERATION_COMPLETE))
    with (fromFrame h4 1 Commands.IFRAME_POPUP_INITIALIZE
            (VString Commands.REMOTE_OPERATION_COMPLETE)).
  unfold deliver, receive. cbn -[lookup insert delete].
  rewrite Hl, Hr, String.eqb_refl. cbn -[lookup insert delete]. rewrite Hk.
  cbn -[lookup insert delete]. rewrite Hp. reflexivity.
Qed.

(** X7: on a page whose [OneSignal.config] is not undefined, when the
    frame loads and initializes before the 15000 ms timer elapses, the
    promise returned by [load()] is resolved, the race made by
    [timeoutPromise] is resolved with it, and the timer elapsing afterwards
    changes nothing: no warning is logged. *)
Theorem load_in_time_no_warning (h : Host) (w : World)
    (Hconfig : config (page w) <> VUndefined) :
  let h1 := fst (fst (load h w)) in
  let w1 := snd (fst (load h w)) in
  let p := snd (load h w) in
  let o3 := onFrameLoad h1 w1 in
  let o4 := deliver (fromFrame h1 0 Commands.CONNECTED VNull)
                    (hostAfter o3) (worldAfter o3) in
  let o5 := deliver (fromFrame h1 1 Commands.IFRAME_POPUP_INITIALIZE
                       (VString Commands.REMOTE_OPERATION_COMPLETE))
                    (hostAfter o4) (worldAfter o4) in
  let w6 := elapse (length (timers w)) (worldAfter o5) in
  promises (worldAfter o5) !! p = Some (Fulfilled VUndefined) /\
  promises (worldAfter o5) !! S p = Some (Fulfilled VUndefined) /\
  promises w6 = promises (worldAfter o5) /\
  warnings w6 = warnings w.
Proof.
  intros h1 w1 p o3 o4 o5 w6.
  assert (p = length (promises w)) as Hp by (unfold p; now rewrite load_eq).
  assert (promises w1 !! p = Some Pending) as Hpending
    by (unfold w1; rewrite Hp, load_eq; apply lookup_snoc2_first).
  assert (promises w1 !! S p = Some Pending) as Hrace
    by (unfold w1; rewrite Hp, load_eq; apply lookup_snoc2_second).
  assert (timers w1 !! length (timers w) = Some (mkTimer LOAD_TIMEOUT_MS p (S p))) as Ht
    by (unfold w1; rewrite Hp, load_eq; now apply list_lookup_middle).
  destruct (connect_sequence h1 w1 (nextFrameId w) p) as (env1 & env2 & Hw5);
    [unfold h1; now rewrite load_eq | unfold h1; rewrite Hp; now rewrite load_eq
    | exact Hpending | unfold w1; now rewrite load_eq |].
  fold o3 o4 o5 in Hw5.
  set (w4 := post env2 (post env1 w1)) in Hw5.
  assert (promises (worldAfter o5) !! p = Some (Fulfilled VUndefined)) as Hdone
    by (rewrite Hw5; apply settle_pending; [exact Hpending | discriminate]).
  assert (promises (worldAfter o5) !! S p = Some (Fulfilled VUndefined)) as Hrdone.
  { rewrite Hw5.
    apply (settle_race p (S p) _ w4 (mkTimer LOAD_TIMEOUT_MS p (S p)));
      try reflexivity; try assumption; try discriminate; [lia |].
    eapply list_elem_of_lookup_2. exact Ht. }
  assert (timers (worldAfter o5) !! length (timers w)
          = Some (mkTimer LOAD_TIMEOUT_MS p (S p))) as Ht5
    by (rewrite Hw5, settle_timers; exact Ht).
  destruct (elapse_settled _ _ _ _ Ht5 Hrdone) as (Hps & Hws & _); [discriminate |].
  split; [exact Hdone |]. split; [exact Hrdone |]. split; [exact Hps |].
  unfold w6. rewrite Hws, Hw5, settle_fulfilled_warnings.
  unfold w4, w1. rewrite load_eq. reflexivity.
Qed.

Lemma load_in_time_no_warning_witness :
  let pg := mkPage true "http://localhost/" "http://localhost" "Site"
                   (VObject [("appId", VString "app"); ("path", VUndefined)])
                   VUndefined VUndefined in
  let h := new (Url.mkURL "https:" "acme.os.tc" "" "/") in
  let h1 := fst (fst (load h (freshWorld pg))) in
  let w1 := snd (fst (load h (freshWorld pg))) in
  let o3 := onFrameLoad h1 w1 in
  let o4 := deliver (fromFrame h1 0 Commands.CONNECTED VNull)
                    (hostAfter o3) (worldAfter o3) in
  let o5 := deliver (fromFrame h1 1 Commands.IFRAME_POPUP_INITIALIZE
                       (VString Commands.REMOTE_OPERATION_COMPLETE))
                    (hostAfter o4) (worldAfter o4) in
  promises (worldAfter o5) = [Fulfilled VUndefined; Fulfilled VUndefined] /\
  warnings (elapse 0 (worldAfter o5)) = [].
Proof.
  intros pg h h1 w1 o3 o4 o5.
  assert (config (page (freshWorld pg)) <> VUndefined) as Hconfig by discriminate.
  destruct (load_in_time_no_warning h (freshWorld pg) Hconfig) as (_ & _ & _ & Hwarn).
  split; [reflexivity | exact Hwarn].
Defined.

(** X8: when [load()] is called a second time on a host, the promise the
    first call returned is abandoned: the frame's initialization (on a page
    whose [OneSignal.config] is not undefined) resolves the promise of the
    second call and leaves the first one pending. *)
Theorem load_twice_orphans_first_promise (h : Host) (w : World)
    (Hwf : wellFormed w)
    (Hconfig : config (page w) <> VUndefined) :
  let h1 := fst (fst (load h w)) in
  let w1 := snd (fst (load h w)) in
  let p1 := snd (load h w) in
  let h2 := fst (fst (load h1 w1)) in
  let w2 := snd (fst (load h1 w1)) in
  let p2 := snd (load h1 w1) in
  let o3 := onFrameLoad h2 w2 in
  let o4 := deliver (fromFrame h2 0 Commands.CONNECTED VNull)
                    (hostAfter o3) (worldAfter o3) in
  let o5 := deliver (fromFrame h2 1 Commands.IFRAME_POPUP_INITIALIZE
                       (VString Commands.REMOTE_OPERATION_COMPLETE))
                    (hostAfter o4) (worldAfter o4) in
  p1 <> p2 /\
  loadPromise h2 = Some p2 /\
  promises (worldAfter o5) !! p2 = Some (Fulfilled VUndefined) /\
  promises (worldAfter o5) !! p1 = Some Pending.
Proof.
  intros h1 w1 p1 h2 w2 p2 o3 o4 o5.
  destruct Hwf as [_ Htimers].
  assert (p1 = length (promises w)) as Hp1 by (unfold p1; now rewrite load_eq).
  assert (p2 = S (S p1)) as Hp2.
  { unfold p2, w1. rewrite (load_eq h1), (load_eq h w). cbn [promises fst snd].
    rewrite !length_app. simpl. lia. }
  assert (promises w2 !! p2 = Some Pending) as Hp2pending.
  { unfold w2, p2. rewrite (load_eq h1 w1). apply lookup_snoc2_first. }
  assert (promises w2 !! p1 = Some Pending) as Hp1pending.
  { unfold w2. rewrite (load_eq h1 w1). cbn [promises fst snd].
    rewrite <- app_assoc. rewrite lookup_app_l.
    - unfold w1. rewrite Hp1, load_eq. apply lookup_snoc2_first.
    - unfold w1. rewrite Hp1, load_eq. cbn [promises fst snd]. rewrite !length_app. simpl. lia. }
  destruct (connect_sequence h2 w2 (nextFrameId w1) p2) as (env1 & env2 & Hw5);
    [unfold h2; now rewrite load_eq | unfold h2, p2; now rewrite load_eq
    | exact Hp2pending
    | unfold w2, w1; rewrite (load_eq h1), (load_eq h w); exact Hconfig |].
  fold o3 o4 o5 in Hw5.
  split; [lia |].
  split; [unfold h2, p2; now rewrite load_eq |].
  split; [rewrite Hw5; apply settle_pending; [exact Hp2pending | discriminate] |].
  rewrite Hw5, settle_other; [exact Hp1pending | lia |].
  assert (timers (post env2 (post env1 w2))
          = (timers w ++ [mkTimer LOAD_TIMEOUT_MS p1 (S p1)])
            ++ [mkTimer LOAD_TIMEOUT_MS p2 (S p2)]) as ->.
  { cbn [timers post]. unfold w2, p2. rewrite (load_eq h1 w1). cbn [timers fst snd].
    unfold w1, p1. rewrite (load_eq h w). reflexivity. }
  rewrite !Forall_app. repeat split.
  - eapply Forall_impl; [exact Htimers |]. intros t [_ Hr] _. rewrite Hp1. lia.
  - constructor; [| constructor]. cbn [watched race]. intros _. lia.
  - constructor; [| constructor]. cbn [watched race]. intros _. rewrite Hp2. lia.
Qed.

Lemma load_twice_orphans_first_promise_witness :
  let pg := mkPage true "http://localhost/" "http://localhost" "Site" VNull
                   VUndefined VUndefined in
  let h := new (Url.mkURL "https:" "acme.os.tc" "" "/") in
  let h1 := fst (fst (load h (freshWorld pg))) in
  let w1 := snd (fst (load h (freshWorld pg))) in
  snd (load h (freshWorld pg)) = 0 /\ snd (load h1 w1) = 2 /\
  loadPromise (fst (fst (load h1 w1))) = Some 2.
Proof.
  intros pg h h1 w1.
  assert (wellFormed (freshWorld pg)) as Hwf by (split; constructor).
  assert (config (page (freshWorld pg)) <> VUndefined) as Hconfig by discriminate.
  destruct (load_twice_orphans_first_promise h (freshWorld pg) Hwf Hconfig)
    as (_ & Hlp & _).
  split; [reflexivity |]. split; [reflexivity | exact Hlp].
Defined.

(** X18: [load()] removes at most one existing frame. With [n >= 1]
    frames of the host's URL attached (more than one can only come from
    outside the host), [n] are attached after [load()]: the first in
    document order is replaced by the new frame, appended last, and the
    others stay. *)
Theorem load_removes_one_frame_only (h : Host) (w : World)
    (Hsome : 1 <= attached (Url.toString (url h)) w) :
  attached (Url.toString (url h)) (removeFrame h w)
  = attached (Url.toString (url h)) w - 1 /\
  attached (Url.toString (url h)) (snd (fst (load h w)))
  = attached (Url.toString (url h)) w /\
  last (body (snd (fst (load h w))))
  = Some (mkIFrame (nextFrameId w) (Url.toString (url h)) "none" iframeSandbox).
Proof.
  split; [rewrite attached_removeFrame_same; lia |].
  split; [rewrite attached_load_same; lia |].
  rewrite body_load. apply last_snoc.
Qed.

Lemma load_removes_one_frame_only_witness :
  let pg := mkPage true "http://localhost/" "http://localhost" "Site" VNull
                   VUndefined VUndefined in
  let u := "https://acme.os.tc/webPushIframe" in
  let w := mkWorld pg [mkIFrame 0 u "none" ""; mkIFrame 1 u "none" ""] 2 [] [] [] [] [] [] in
  let h := new (Url.mkURL "https:" "acme.os.tc" "" "/") in
  List.map frameId (body (snd (fst (load h w)))) = [1; 2] /\
  attached u (snd (fst (load h w))) = 2.
Proof.
  intros pg u w h.
  assert (1 <= attached (Url.toString (url h)) w) as Hsome by (vm_compute; lia).
  destruct (load_removes_one_frame_only h w Hsome) as (_ & Hsame & _).
  split; [reflexivity | exact Hsame].
Defined.

(** X19: when the frame's CONNECTED arrives at a host that has its
    messenger, [onMessengerConnect] throws a SyntaxError if
    [OneSignal.config] is undefined, posting nothing and leaving no
    callback; otherwise it posts one IFRAME_POPUP_INITIALIZE expecting a
    reply, whose [hostInitOptions] is the JSON copy of the config, whose
    [pageUrl] is the page's address and whose [defaultUrl] and [pageTitle]
    are the stored defaults when these are truthy and the page's address
    and title otherwise: a stored [undefined], [null], [false] or empty
    string never reaches the frame as [defaultUrl] (the page's address
    being non-empty). *)
Theorem onMessengerConnect_defaults (e : Envelope) (h : Host) (w : World)
    (m : Channel Handler ReplyCallback)
    (Hmessenger : messenger h = Some m) :
  (config (page w) = VUndefined ->
   onMessengerConnect e h w
   = Threw (SyntaxError "Unexpected token u in JSON at position 0") h w) /\
  (config (page w) <> VUndefined ->
   exists h' env fields,
    onMessengerConnect e h w = Returned h' (post env w) /\
    command env = Commands.IFRAME_POPUP_INITIALIZE /\
    expectsReply env = true /\
    payload env = VObject fields /\
    jsonRoundTrip (config (page w)) = Some (getField "hostInitOptions" fields) /\
    getField "pageUrl" fields = VString (locationHref (page w)) /\
    getField "defaultUrl" fields
    = (if truthy (dbDefaultUrl (page w)) then dbDefaultUrl (page w)
       else VString (locationHref (page w))) /\
    getField "pageTitle" fields
    = (if truthy (dbDefaultTitle (page w)) then dbDefaultTitle (page w)
       else VString (documentTitle (page w))) /\
    (locationHref (page w) <> "" -> truthy (getField "defaultUrl" fields) = true) /\
    exists m', messenger h' = Some m' /\
               pendingReplies m' !! correlationId env = Some InitializeReply).
Proof.
  unfold onMessengerConnect, message. rewrite Hmessenger. split.
  - intros ->. reflexivity.
  - intros Hconfig. destruct (jsonRoundTrip_defined _ Hconfig) as [copy Hcopy].
    rewrite Hcopy. cbn -[lookup insert jsonRoundTrip].
    eexists. eexists. eexists. split; [reflexivity |].
    split; [reflexivity |]. split; [reflexivity |]. split; [reflexivity |].
    split; [reflexivity |]. split; [reflexivity |]. split; [reflexivity |].
    split; [reflexivity |]. split.
    + intros Hhref. cbn. destruct (truthy (dbDefaultUrl (page w))) eqn:Ht; [exact Ht |].
      cbn. apply negb_true_iff. now apply String.eqb_neq.
    + eexists. split; [reflexivity |]. cbn -[lookup insert]. apply lookup_insert_eq.
Qed.

Lemma onMessengerConnect_defaults_witness :
  let pg := mkPage true "http://localhost/page" "http://localhost" "Site"
                   (VObject [("appId", VString "app"); ("path", VUndefined)])
                   (VString "") VNull in
  let h0 := new (Url.mkURL "https:" "acme.os.tc" "" "/") in
  let h1 := fst (fst (load h0 (freshWorld pg))) in
  let w1 := snd (fst (load h0 (freshWorld pg))) in
  let h := hostAfter (onFrameLoad h1 w1) in
  let w := worldAfter (onFrameLoad h1 w1) in
  exists h' env fields,
    onMessengerConnect (envelope (fromFrame h 0 Commands.CONNECTED VNull)) h w
    = Returned h' (post env w) /\
    payload env = VObject fields /\
    getField "hostInitOptions" fields = VObject [("appId", VString "app")] /\
    getField "defaultUrl" fields = VString "http://localhost/page".
Proof.
  intros pg h0 h1 w1 h w.
  destruct (messenger h) as [m|] eqn:Hm; [| discriminate].
  assert (config (page w) <> VUndefined) as Hconfig by discriminate.
  destruct (proj2 (onMessengerConnect_defaults
              (envelope (fromFrame h 0 Commands.CONNECTED VNull)) h w m Hm) Hconfig)
    as (h' & env & fields & Hr & _ & _ & Hpayload & Hoptions & _ & Hdefault & _).
  exists h', env, fields. split; [exact Hr |]. split; [exact Hpayload |].
  split; [| rewrite Hdefault; reflexivity].
  change (jsonRoundTrip (config (page w)))
    with (Some (VObject [("appId", VString "app")])) in Hoptions.
  now injection Hoptions.
Defined.

(** On a page whose [OneSignal.config] is undefined, a host whose
    messenger has no reply pending stays that way under any message event,
    and no promise is settled. *)
Lemma deliver_config_undefined (msg : Inbound) (h : Host) (w : World)
    (m : Channel Handler ReplyCallback) :
  messenger h = Some m -> pendingReplies m = ∅ -> config (page w) = VUndefined ->
  let o := deliver msg h w in
  (exists m', messenger (hostAfter o) = Some m' /\ pendingReplies m' = ∅) /\
  config (page (worldAfter o)) = VUndefined /\
  promises (worldAfter o) = promises w.
Proof.
  intros Hm Hempty Hconfig. unfold deliver, receive. rewrite Hm.
  destruct (lifecycle m); try (cbn; eauto).
  destruct (negb _); [cbn; eauto |].
  rewrite Hempty, lookup_empty.
  set (m1 := if String.eqb _ _ then noteConnected m else m).
  assert (pendingReplies m1 = ∅) as Hempty1 by (unfold m1; now destruct (String.eqb _ _)).
  destruct (registry m1 !! command (envelope msg)) as [hd|]; [| cbn; eauto].
  cbn [hostAfter worldAfter].
  destruct hd; cbn [runHandler].
  - unfold onMessengerConnect. cbn [messenger setMessenger page]. rewrite Hconfig.
    cbn. eauto.
  - unfold onRemoteRetriggerEvent. destruct (payload (envelope msg)); cbn; eauto.
  - unfold onRemoteNotificationPermissionChanged.
    destruct (payload (envelope msg)); cbn; eauto.
  - unfold onRequestHostUrl. cbn. eauto.
  - cbn. eauto.
  - cbn. eauto.
Qed.

Lemma deliverAll_config_undefined (msgs : list Inbound) (h : Host) (w : World)
    (m : Channel Handler ReplyCallback) :
  messenger h = Some m -> pendingReplies m = ∅ -> config (page w) = VUndefined ->
  promises (snd (deliverAll msgs h w)) = promises w.
Proof.
  unfold deliverAll. revert h w m.
  induction msgs as [|msg msgs IH]; intros h w m Hm Hempty Hconfig; [reflexivity |].
  cbn [foldl].
  destruct (deliver_config_undefined msg h w m Hm Hempty Hconfig)
    as ((m' & Hm' & Hempty') & Hconfig' & Hpromises).
  rewrite (IH _ _ m' Hm' Hempty' Hconfig'). exact Hpromises.
Qed.

(** X21: on a page whose [OneSignal.config] is undefined the promise
    returned by [load()] is never resolved. The frame loads and the
    handshake is sent, but when the frame's CONNECTED arrives
    [onMessengerConnect] throws a SyntaxError: IFRAME_POPUP_INITIALIZE is
    not posted and no reply callback is left waiting, so whatever message
    events follow, the promise stays pending. *)
Theorem load_without_config_never_resolves (h : Host) (w : World)
    (msgs : list Inbound)
    (Hconfig : config (page w) = VUndefined) :
  let h1 := fst (fst (load h w)) in
  let w1 := snd (fst (load h w)) in
  let p := snd (load h w) in
  let o3 := onFrameLoad h1 w1 in
  let o4 := deliver (fromFrame h1 0 Commands.CONNECTED VNull)
                    (hostAfter o3) (worldAfter o3) in
  o4 = Threw (SyntaxError "Unexpected token u in JSON at position 0")
             (hostAfter o4) (worldAfter o3) /\
  posted (worldAfter o4)
  = posted w ++ [mkEnvelope 0 Commands.CONNECTED VNull false (Url.toString (url h))] /\
  promises (snd (deliverAll msgs (hostAfter o4) (worldAfter o4))) !! p = Some Pending.
Proof.
  intros h1 w1 p o3 o4.
  set (h3 := mkHost (url h) (element h1)
                    (Some (hostChannel (Url.toString (url h)))) (loadPromise h1)).
  set (w3 := post (mkEnvelope 0 Commands.CONNECTED VNull false (Url.toString (url h))) w1).
  assert (o3 = Returned h3 w3) as Ho3.
  { unfold o3, onFrameLoad.
    rewrite (establish_eq h1 w1 (nextFrameId w)) by (unfold h1; now rewrite load_eq).
    unfold h3, w3, h1. rewrite load_eq. reflexivity. }
  assert (config (page w3) = VUndefined) as Hconfig3
    by (unfold w3, w1; rewrite load_eq; exact Hconfig).
  assert (fromFrame h1 0 Commands.CONNECTED VNull
          = fromFrame h3 0 Commands.CONNECTED VNull) as Hf0
    by (unfold fromFrame, h3, h1; rewrite load_eq; reflexivity).
  assert (o4 = Threw jsonParseUndefined
                 (mkHost (url h3) (element h3)
                    (Some (noteConnected (hostChannel (Url.toString (url h3)))))
                    (loadPromise h3)) w3) as Ho4.
  { unfold o4. rewrite Ho3, Hf0. cbn [hostAfter worldAfter].
    now apply deliver_connected_undefined. }
  assert (promises w3 !! p = Some Pending) as Hpending
    by (unfold w3, w1, p; rewrite load_eq; apply lookup_snoc2_first).
  split; [rewrite Ho4, Ho3; reflexivity |].
  split; [rewrite Ho4; unfold w3, w1; rewrite load_eq; reflexivity |].
  rewrite Ho4. cbn [hostAfter worldAfter].
  erewrite deliverAll_config_undefined; [exact Hpending | reflexivity | reflexivity
                                         | exact Hconfig3].
Qed.

Lemma load_without_config_never_resolves_witness :
  let pg := mkPage true "http://localhost/" "http://localhost" "Site" VUndefined
                   VUndefined VUndefined in
  let h := new (Url.mkURL "https:" "acme.os.tc" "" "/") in
  let h1 := fst (fst (load h (freshWorld pg))) in
  let w1 := snd (fst (load h (freshWorld pg))) in
  let o3 := onFrameLoad h1 w1 in
  let o4 := deliver (fromFrame h1 0 Commands.CONNECTED VNull)
                    (hostAfter o3) (worldAfter o3) in
  let reply := fromFrame h1 1 Commands.IFRAME_POPUP_INITIALIZE
                 (VString Commands.REMOTE_OPERATION_COMPLETE) in
  List.map command (posted (worldAfter o4)) = [Commands.CONNECTED] /\
  promises (snd (deliverAll [reply] (hostAfter o4) (worldAfter o4))) !! 0 = Some Pending.
Proof.
  intros pg h h1 w1 o3 o4 reply.
  destruct (load_without_config_never_resolves h (freshWorld pg) [reply] eq_refl)
    as (_ & Hposted & Hpending).
  split; [| exact Hpending].
  change (List.map command (posted (worldAfter o4)) = [Commands.CONNECTED]).
  unfold o4, o3, w1, h1. rewrite Hposted. reflexivity.
Defined.

End HostLifecycle.

(** ** ProxyFrame: the store handlers at their edges *)

Section StoreHandlers.

Import Postmam Browser ProxyFrame.

Variable Database_get : Value -> Value -> Value.

Lemma retrieve_nullish (v : Value) :
  nullish v -> exists e, retrieve Database_get v = inl e.
Proof. intros [-> | ->]; eexists; reflexivity. Qed.

Lemma retrievalLoop_nullish (retrievals pushed : list Value) :
  Exists nullish retrievals ->
  exists e, retrievalLoop Database_get retrievals pushed = inl e.
Proof.
  intros Hex. revert pushed. induction Hex as [v rest Hv | v rest _ IH]; intros pushed.
  - destruct (retrieve_nullish v Hv) as [e He]. exists e. simpl. now rewrite He.
  - simpl. destruct (retrieve Database_get v) as [e | x]; [now exists e | apply IH].
Qed.

(** X9: if any entry of the list delivered with REMOTE_DATABASE_GET is
    [null] or [undefined], the handler throws while destructuring it and
    sends no reply at all, whatever the other entries are. *)
Theorem onRemoteDatabaseGet_nullish_entry (message : Envelope)
    (retrievals : list Value) (order : list nat)
    (Hdata : payload message = VArray retrievals)
    (Hbad : Exists nullish retrievals) :
  exists e, onRemoteDatabaseGet Database_get message order = Thrown e /\
    forall f, replyEnvelope f message (onRemoteDatabaseGet Database_get message order) = None.
Proof.
  destruct (retrievalLoop_nullish retrievals [] Hbad) as [e He].
  exists e. unfold onRemoteDatabaseGet. rewrite Hdata, He. split; [reflexivity |].
  intros f. unfold replyEnvelope. now destruct (messenger f).
Qed.

(** A promise that has not fulfilled leaves its slot empty. *)
Lemma foldl_fulfil_untouched (values : list Value) (order : list nat)
    (slots : list (option Value)) (i : nat) :
  i ∉ order -> foldl (fulfil values) slots order !! i = slots !! i.
Proof.
  revert slots. induction order as [|j rest IH]; intros slots Hnot; [reflexivity |].
  apply not_elem_of_cons in Hnot as [Hne Hrest]. simpl. rewrite (IH _ Hrest).
  unfold fulfil. destruct (values !! j); [| reflexivity].
  now apply list_lookup_insert_ne.
Qed.

Lemma promiseAll_pending (values : list Value) (order : list nat) (i : nat) :
  i < length values -> i ∉ order -> promiseAll values order = None.
Proof.
  intros Hlt Hnot. unfold promiseAll. apply mapM_None_2, Exists_exists.
  exists None. split; [| reflexivity].
  eapply list_elem_of_lookup_2. rewrite foldl_fulfil_untouched by exact Hnot.
  now apply lookup_replicate_2.
Qed.

(** X10: as long as one of the reads of a REMOTE_DATABASE_GET request has
    not completed, the handler is still waiting and has sent no reply: no
    partial list is ever sent. *)
Theorem onRemoteDatabaseGet_waits_for_all (message : Envelope)
    (retrievals : list (list (string * Value))) (order : list nat) (i : nat)
    (Hdata : payload message = VArray (VObject <$> retrievals))
    (Hi : i < length retrievals)
    (Hpending : i ∉ order) :
  onRemoteDatabaseGet Database_get message order = Awaiting /\
  forall f, replyEnvelope f message (onRemoteDatabaseGet Database_get message order) = None.
Proof.
  assert (onRemoteDatabaseGet Database_get message order = Awaiting) as Hw.
  { unfold onRemoteDatabaseGet. rewrite Hdata, retrievalLoop_objects. simpl.
    rewrite (promiseAll_pending _ order i); [reflexivity | | exact Hpending].
    now rewrite length_fmap. }
  split; [exact Hw |]. intros f. rewrite Hw. unfold replyEnvelope.
  now destruct (messenger f).
Qed.

End StoreHandlers.

Section StoreHandlerExamples.

Import Postmam Browser ProxyFrame.

Lemma onRemoteDatabaseGet_nullish_entry_witness :
  let message := mkEnvelope 2 Commands.REMOTE_DATABASE_GET
    (VArray [VObject [("table", VString "Ids"); ("key", VString "userId")]; VNull])
    true "https://acme.os.tc" in
  onRemoteDatabaseGet idsStore message [0; 1]
  = Thrown (TypeError "Cannot destructure property of undefined or null").
Proof.
  intros message.
  destruct (onRemoteDatabaseGet_nullish_entry idsStore message
              [VObject [("table", VString "Ids"); ("key", VString "userId")]; VNull]
              [0; 1] eq_refl) as (e & He & _).
  { right. left. left. reflexivity. }
  reflexivity.
Defined.

Lemma onRemoteDatabaseGet_waits_for_all_witness :
  let retrievals := [[("table", VString "Ids"); ("key", VString "userId")];
                     [("table", VString "Ids"); ("key", VString "registrationId")]] in
  let message := mkEnvelope 2 Commands.REMOTE_DATABASE_GET
                            (VArray (VObject <$> retrievals)) true "https://acme.os.tc" in
  onRemoteDatabaseGet idsStore message [1] = Awaiting.
Proof.
  intros retrievals message.
  refine (proj1 (onRemoteDatabaseGet_waits_for_all idsStore message retrievals [1] 0
                   eq_refl _ _)).
  - simpl. lia.
  - intros H. apply list_elem_of_singleton in H. discriminate.
Defined.

End StoreHandlerExamples.

(** ** ProxyFrame: writes and removals *)

Section StoreWrites.

Import Postmam Browser ProxyFrame.

(** An operation that reads [table] and [keypath] off an object and
    throws on [null] and [undefined], as both handlers' loops do. *)
Variable operationOf : Value -> JsError + DatabaseCall.
Variable callOf : Value -> Value -> DatabaseCall.
Hypothesis operationOf_object : forall fields,
  operationOf (VObject fields) = inr (callOf (getField "table" fields)
                                             (getField "keypath" fields)).
Hypothesis operationOf_nullish : forall v, v = VNull \/ v = VUndefined ->
  operationOf v = inl (TypeError "Cannot destructure property of undefined or null").

Lemma operationLoop_objects (entries : list (list (string * Value)))
    (rest : list Value) (issued : list DatabaseCall) :
  operationLoop operationOf ((VObject <$> entries) ++ rest) issued
  = operationLoop operationOf rest (issued ++ (callOfFields callOf <$> entries)).
Proof.
  revert issued. induction entries as [|fields entries IH]; intros issued; simpl.
  - now rewrite app_nil_r.
  - rewrite operationOf_object, IH, <- app_assoc. reflexivity.
Qed.

Lemma storeHandler_complete (message : Envelope)
    (entries : list (list (string * Value))) (order : list nat) :
  payload message = VArray (VObject <$> entries) ->
  order ≡ₚ seq 0 (length entries) ->
  storeHandler operationOf message order
  = (Replied (VString Commands.REMOTE_OPERATION_COMPLETE) false, callOfFields callOf <$> entries).
Proof.
  intros Hdata Hperm. unfold storeHandler. rewrite Hdata. cbn [iterate].
  rewrite <- (app_nil_r (VObject <$> entries)), operationLoop_objects. cbn.
  rewrite promiseAll_any_order; [reflexivity |].
  now rewrite length_map, length_fmap.
Qed.

Lemma storeHandler_partial (message : Envelope)
    (before : list (list (string * Value))) (bad : Value) (after : list Value)
    (order : list nat) :
  payload message = VArray ((VObject <$> before) ++ bad :: after) ->
  bad = VNull \/ bad = VUndefined ->
  storeHandler operationOf message order
  = (Thrown (TypeError "Cannot destructure property of undefined or null"),
     callOfFields callOf <$> before).
Proof.
  intros Hdata Hbad. unfold storeHandler. rewrite Hdata. cbn [iterate].
  rewrite operationLoop_objects. cbn. now rewrite (operationOf_nullish bad Hbad).
Qed.

End StoreWrites.

Section StoreWritesOfSource.

Import Postmam Browser ProxyFrame.

(** X11: for a list of [{table, keypath}] objects delivered with
    REMOTE_DATABASE_PUT, the handler issues exactly one [Database.put] per
    entry, in the order of the list, and, once all of them have completed
    (in whatever order), replies REMOTE_OPERATION_COMPLETE. *)
Theorem onRemoteDatabasePut_in_order (message : Envelope)
    (insertions : list (list (string * Value))) (order : list nat)
    (Hdata : payload message = VArray (VObject <$> insertions))
    (Hall : order ≡ₚ seq 0 (length insertions)) :
  onRemoteDatabasePut message order
  = (Replied (VString Commands.REMOTE_OPERATION_COMPLETE) false,
     (fun fields => DbPut (getField "table" fields) (getField "keypath" fields))
       <$> insertions).
Proof.
  apply (storeHandler_complete putOf DbPut); try assumption. reflexivity.
Qed.

(** X12: if an entry of a REMOTE_DATABASE_PUT list is [null] or
    [undefined], the handler throws at that entry and never replies, but
    the [Database.put] calls for the entries before it have already been
    issued; none is issued for the entries after it. *)
Theorem onRemoteDatabasePut_partial (message : Envelope)
    (before : list (list (string * Value))) (bad : Value) (after : list Value)
    (order : list nat)
    (Hdata : payload message = VArray ((VObject <$> before) ++ bad :: after))
    (Hbad : bad = VNull \/ bad = VUndefined) :
  onRemoteDatabasePut message order
  = (Thrown (TypeError "Cannot destructure property of undefined or null"),
     (fun fields => DbPut (getField "table" fields) (getField "keypath" fields))
       <$> before).
Proof.
  apply (storeHandler_partial putOf DbPut) with (bad := bad) (after := after);
    try assumption; [reflexivity |].
  intros v [-> | ->]; reflexivity.
Qed.

(** X13: [onRemoteDatabaseRemove] behaves in the same two ways: one
    [Database.remove] per object, in order, then the reply
    REMOTE_OPERATION_COMPLETE; and at a [null] or [undefined] entry it
    throws without replying, the removals before that entry having been
    issued. *)
Theorem onRemoteDatabaseRemove_in_order_or_partial (message : Envelope)
    (removals : list (list (string * Value))) (bad : Value) (after : list Value)
    (order : list nat)
    (Hbad : bad = VNull \/ bad = VUndefined) :
  (payload message = VArray (VObject <$> removals) ->
   order ≡ₚ seq 0 (length removals) ->
   onRemoteDatabaseRemove message order
   = (Replied (VString Commands.REMOTE_OPERATION_COMPLETE) false,
      (fun fields => DbRemove (getField "table" fields) (getField "keypath" fields))
        <$> removals)) /\
  (payload message = VArray ((VObject <$> removals) ++ bad :: after) ->
   onRemoteDatabaseRemove message order
   = (Thrown (TypeError "Cannot destructure property of undefined or null"),
      (fun fields => DbRemove (getField "table" fields) (getField "keypath" fields))
        <$> removals)).
Proof.
  split.
  - intros Hdata Hall. apply (storeHandler_complete removeOf DbRemove); try assumption.
    reflexivity.
  - intros Hdata.
    apply (storeHandler_partial removeOf DbRemove) with (bad := bad) (after := after);
      try assumption; [reflexivity |].
    intros v [-> | ->]; reflexivity.
Qed.

Lemma onRemoteDatabasePut_in_order_witness :
  let insertions := [optionsEntry "defaultUrl" "https://example.com";
                     optionsEntry "defaultTitle" "Example"] in
  let message := mkEnvelope 3 Commands.REMOTE_DATABASE_PUT
                            (VArray (VObject <$> insertions)) true "https://acme.os.tc" in
  exists calls,
    onRemoteDatabasePut message [1; 0]
    = (Replied (VString Commands.REMOTE_OPERATION_COMPLETE) false, calls) /\
    length calls = 2.
Proof.
  intros insertions message. eexists. split.
  - apply (onRemoteDatabasePut_in_order message insertions [1; 0] eq_refl).
    apply (Permutation_cons_app [0] [] 1). reflexivity.
  - reflexivity.
Defined.

Lemma onRemoteDatabasePut_partial_witness :
  let message := mkEnvelope 3 Commands.REMOTE_DATABASE_PUT
    (VArray [VObject (optionsEntry "defaultUrl" "https://example.com"); VNull;
             VObject (optionsEntry "defaultTitle" "Example")])
    true "https://acme.os.tc" in
  exists calls,
    onRemoteDatabasePut message [0; 1; 2]
    = (Thrown (TypeError "Cannot destructure property of undefined or null"), calls) /\
    length calls = 1.
Proof.
  intros message. eexists. split.
  - apply (onRemoteDatabasePut_partial message
             [optionsEntry "defaultUrl" "https://example.com"] VNull
             [VObject (optionsEntry "defaultTitle" "Example")] [0; 1; 2] eq_refl).
    now left.
  - reflexivity.
Defined.

Lemma onRemoteDatabaseRemove_in_order_or_partial_witness :
  let removals := [[("table", VString "Ids"); ("keypath", VString "userId")]] in
  let message := mkEnvelope 5 Commands.REMOTE_DATABASE_REMOVE
                            (VArray (VObject <$> removals)) true "https://acme.os.tc" in
  onRemoteDatabaseRemove message [0]
  = (Replied (VString Commands.REMOTE_OPERATION_COMPLETE) false,
     [DbRemove (VString "Ids") (VString "userId")]).
Proof.
  intros removals message.
  refine (proj1 (onRemoteDatabaseRemove_in_order_or_partial message removals VNull []
                   [0] _) eq_refl _).
  - now left.
  - reflexivity.
Defined.

End StoreWritesOfSource.

(** ** SubscriptionModal *)

Section Modal.

Import Postmam Browser SubscriptionModal.

(** X14: [initialize()] of a modal made by the constructor never reaches
    [establishCrossOriginMessaging]. Opened directly it writes the notice
    and returns. Otherwise it throws a TypeError when it reads
    [rasterizedOptions.origin.origin], the options having no [origin]
    property; by then [options.appId] has been replaced by the Uuid's
    string value, the options object being the one that is rasterized.
    Either way the messenger stays undefined, [OneSignal.config] and
    [OneSignal.initialized] are not assigned, and [dispose()] and
    [message()] throw afterwards. *)
Theorem initialize_never_connects (appId : string) (subdomainName : Field)
    (origin : Url.URL) (pg : ModalPage) :
  let m := new appId subdomainName origin in
  let o := initialize m pg in
  messenger (modalAfter o) = None /\
  oneSignalConfig (pageAfter o) = oneSignalConfig pg /\
  oneSignalInitialized (pageAfter o) = oneSignalInitialized pg /\
  (creatorIsWindow pg = true ->
   modalAfter o = m /\ written (pageAfter o) = written pg ++ [directlyOpenedNotice] /\
   o = Returned (modalAfter o) (pageAfter o)) /\
  (creatorIsWindow pg = false ->
   o = Threw (TypeError "Cannot read property 'origin' of undefined")
             (modalAfter o) (pageAfter o) /\
   options (modalAfter o)
   = [("appId", FString appId); ("subdomain", subdomainName); ("originUrl", FUrl origin)] /\
   written (pageAfter o) = written pg) /\
  dispose (modalAfter o) (pageAfter o)
  = Threw (TypeError "Cannot read property 'destroy' of undefined")
          (modalAfter o) (pageAfter o) /\
  (forall command data,
     message command data (modalAfter o) (pageAfter o)
     = (Threw (TypeError "Cannot read property 'message' of undefined")
              (modalAfter o) (pageAfter o), None)).
Proof.
  intros m o. unfold o, initialize, m, new.
  destruct (creatorIsWindow pg) eqn:Hcreator; cbn.
  - repeat split; intros; try discriminate; reflexivity.
  - repeat split; intros; try discriminate; reflexivity.
Qed.

End Modal.

(** ** Launcher: the size classes *)

Section LauncherResize.

Import Launcher.

Context {Classes : Type}.
Variable addCssClass removeCssClass : string -> Classes -> Classes.

(** Membership in a class list, and what the two helpers do to it. *)
Variable has : string -> Classes -> bool.
Hypothesis has_add : forall c d cs,
  has c (addCssClass d cs) = String.eqb c d || has c cs.
Hypothesis has_remove : forall c d cs,
  has c (removeCssClass d cs) = negb (String.eqb c d) && has c cs.

(** X15: after [resize(size)] the element carries no size class other
    than the one of [size] and every other class is as before: for
    'small', 'medium' and 'large' exactly that size's class is set, and the
    promise is resolved at once when the launcher is not shown; for any
    other size the call throws 'Invalid OneSignal bell size', and it does
    so after all three size classes have been removed. *)
Theorem resize_size_classes (size : string) (el : Element) :
  let el' := fst (resize addCssClass removeCssClass size el) in
  let r := snd (resize addCssClass removeCssClass size el) in
  shown el' = shown el /\
  (forall c, isSizeClass c = false -> has c (classes el') = has c (classes el)) /\
  match sizeClassOf size with
  | Some cls =>
      (forall c, isSizeClass c = true -> has c (classes el') = String.eqb c cls) /\
      r = (if shown el then AfterTransitionEnd else ResolvedNow)
  | None =>
      (forall c, isSizeClass c = true -> has c (classes el') = false) /\
      r = ThrewError ("Invalid OneSignal bell size " +:+ size)
  end.
Proof.
  set (stripped := removeCssClass sizeLg
                     (removeCssClass sizeMd (removeCssClass sizeSm (classes el)))).
  assert (forall c, isSizeClass c = false -> has c stripped = has c (classes el)) as Hkeep.
  { intros c Hc. unfold isSizeClass in Hc.
    apply orb_false_iff in Hc as [Hc Hlg]. apply orb_false_iff in Hc as [Hsm Hmd].
    unfold stripped. now rewrite !has_remove, Hsm, Hmd, Hlg. }
  assert (forall c, isSizeClass c = true -> has c stripped = false) as Hstrip.
  { intros c Hc. unfold isSizeClass in Hc. unfold stripped. rewrite !has_remove.
    destruct (String.eqb c sizeLg); [reflexivity |].
    destruct (String.eqb c sizeMd); [reflexivity |].
    destruct (String.eqb c sizeSm); [reflexivity | discriminate]. }
  assert (forall cls c, isSizeClass cls = true ->
            (isSizeClass c = false -> has c (addCssClass cls stripped) = has c (classes el)) /\
            (isSizeClass c = true -> has c (addCssClass cls stripped) = String.eqb c cls))
    as Hadd.
  { intros cls c Hcls. rewrite has_add. split; intros Hc.
    - rewrite (Hkeep c Hc).
      destruct (String.eqb_spec c cls) as [-> | _]; [congruence | reflexivity].
    - rewrite (Hstrip c Hc). apply orb_false_r. }
  unfold resize, sizeClassOf. fold stripped.
  destruct (String.eqb size "small"); [| destruct (String.eqb size "medium");
    [| destruct (String.eqb size "large")]]; cbn [fst snd classes shown].
  - split; [reflexivity |]. split; [intros c; now apply Hadd |].
    split; [intros c; now apply Hadd | now destruct (shown el)].
  - split; [reflexivity |]. split; [intros c; now apply Hadd |].
    split; [intros c; now apply Hadd | now destruct (shown el)].
  - split; [reflexivity |]. split; [intros c; now apply Hadd |].
    split; [intros c; now apply Hadd | now destruct (shown el)].
  - split; [reflexivity |]. split; [exact Hkeep |]. split; [exact Hstrip | reflexivity].
Qed.

End LauncherResize.

Section LauncherResizeExample.

Import Launcher.

Lemma hasClass_addToken (c d : string) (cs : list string) :
  hasClass c (addToken d cs) = String.eqb c d || hasClass c cs.
Proof.
  unfold addToken, hasClass. destruct (existsb (String.eqb d) cs) eqn:Hd.
  - destruct (String.eqb_spec c d) as [-> | _]; [now rewrite Hd | reflexivity].
  - rewrite existsb_app. simpl. rewrite orb_false_r. apply orb_comm.
Qed.

Lemma hasClass_removeToken (c d : string) (cs : list string) :
  hasClass c (removeToken d cs) = negb (String.eqb c d) && hasClass c cs.
Proof.
  unfold removeToken, hasClass. induction cs as [|x cs IH]; simpl.
  - now rewrite andb_false_r.
  - destruct (String.eqb_spec d x) as [-> | Hdx]; simpl.
    + rewrite IH. destruct (String.eqb_spec c x); simpl; [reflexivity | reflexivity].
    + rewrite IH. destruct (String.eqb_spec c x) as [-> | _]; simpl.
      * assert (String.eqb x d = false) as -> by (apply String.eqb_neq; congruence).
        reflexivity.
      * reflexivity.
Qed.

Lemma resize_size_classes_witness :
  let el := mkElement ["onesignal-bell-launcher"; "onesignal-bell-launcher-lg"] false in
  let el' := fst (resize addToken removeToken "giant" el) in
  snd (resize addToken removeToken "giant" el)
  = ThrewError "Invalid OneSignal bell size giant" /\
  hasClass "onesignal-bell-launcher-lg" (classes el') = false /\
  hasClass "onesignal-bell-launcher" (classes el') = true.
Proof.
  intros el el'.
  destruct (resize_size_classes addToken removeToken hasClass
              hasClass_addToken hasClass_removeToken "giant" el)
    as (_ & Hother & Hsize & Hr).
  split; [exact Hr |]. split.
  - apply Hsize. reflexivity.
  - rewrite Hother; reflexivity.
Defined.

End LauncherResizeExample.

(** ** The build tool: cleaning and file names *)

Section BuildToolFacts.

Import BuildTool.

Lemma cleanLoop_handed (removeFails : string -> bool) (paths handed : list string) :
  exists more,
    fst (cleanLoop removeFails paths handed) = handed ++ more /\
    more `prefix_of` paths /\
    Forall (fun p => JsString.endsWith p "/build" = true) more /\
    (snd (cleanLoop removeFails paths handed) = Cleaned -> more = paths) /\
    (snd (cleanLoop removeFails paths handed) = RefusedForSafety ->
     exists bad rest, paths = more ++ bad :: rest /\
                      JsString.endsWith bad "/build" = false).
Proof.
  revert handed. induction paths as [|p rest IH]; intros handed.
  - exists []. simpl. rewrite app_nil_r. repeat split; try constructor.
    + apply prefix_nil.
    + discriminate.
  - simpl. destruct (JsString.endsWith p "/build") eqn:Hp; simpl.
    + destruct (removeFails p) eqn:Hfail.
      * exists [p]. simpl. repeat split; try discriminate.
        -- apply prefix_cons, prefix_nil.
        -- constructor; [exact Hp | constructor].
      * destruct (IH (handed ++ [p])) as (more & Hfst & Hpre & Hall & Hclean & Hrefused).
        exists (p :: more). rewrite Hfst, <- app_assoc. simpl.
        split; [reflexivity |]. split; [now apply prefix_cons |].
        split; [constructor; assumption |]. split.
        -- intros Hc. now rewrite (Hclean Hc).
        -- intros Hr. destruct (Hrefused Hr) as (bad & rest' & -> & Hbad).
           exists bad, rest'. split; [reflexivity | exact Hbad].
    + exists []. simpl. rewrite app_nil_r. repeat split; try constructor.
      * apply prefix_nil.
      * discriminate.
      * intros _. exists p, rest. split; [reflexivity | exact Hp].
Qed.

(** X16: [cleanPreviousBuildFiles] hands to [CleanModule.remove] only paths
    that end in [/build], and only a leading part of the list, in order;
    at the first path that does not end in [/build] it refuses with the
    safety error and removes nothing from there on. In particular a temp
    directory that does not end in [/build] is never removed. *)
Theorem clean_removes_only_build_paths (removeFails : string -> bool)
    (pathsToRemove : list string) (tempDirectory : string) :
  let handed := fst (cleanLoop removeFails pathsToRemove []) in
  handed `prefix_of` pathsToRemove /\
  Forall (fun p => exists pre, p = pre +:+ "/build") handed /\
  (snd (cleanLoop removeFails pathsToRemove []) = RefusedForSafety ->
   exists bad rest, pathsToRemove = handed ++ bad :: rest /\
                    ~ (exists pre, bad = pre +:+ "/build")) /\
  ((~ exists pre, tempDirectory = pre +:+ "/build") ->
   cleanPreviousBuildFiles removeFails tempDirectory = ([], RefusedForSafety)).
Proof.
  intros handed.
  destruct (cleanLoop_handed removeFails pathsToRemove [])
    as (more & Hfst & Hpre & Hall & _ & Hrefused).
  simpl in Hfst. fold handed in Hfst. subst more.
  split; [exact Hpre |]. split.
  { eapply Forall_impl; [exact Hall |]. intros p Hp. now apply endsWith_iff. }
  split.
  - intros Hr. destruct (Hrefused Hr) as (bad & rest & Hpaths & Hbad).
    exists bad, rest. split; [exact Hpaths |].
    intros Hex. apply endsWith_iff in Hex. congruence.
  - intros Hnot. unfold cleanPreviousBuildFiles. simpl.
    destruct (JsString.endsWith tempDirectory "/build") eqn:He; [| reflexivity].
    exfalso. apply Hnot. now apply endsWith_iff.
Qed.

(** What [lastIndexOf('/')] finds: nothing, in a string without a slash;
    otherwise the position of a slash after which no slash follows. *)
Lemma lastIndexOfSlash_spec (s : string) :
  match lastIndexOfSlash s with
  | None => hasSlash s = false
  | Some i => exists dir name,
      s = dir +:+ "/" +:+ name /\ String.length dir = i /\
      hasSlash name = false /\ slice (i + 1) s = name
  end.
Proof.
  induction s as [|c s IH]; [reflexivity |].
  simpl. destruct (lastIndexOfSlash s) as [i|].
  - destruct IH as (dir & name & -> & Hlen & Hno & Hslice).
    exists (String c dir), name. repeat split; simpl; try assumption.
    now rewrite Hlen.
  - destruct (Ascii.eqb_spec c "/"%char) as [-> | Hc].
    + exists "", s. repeat split. exact IH.
    + simpl. exact IH.
Qed.

(** X17: the file name [transformSourceMaps] cuts out of a walked path
    contains no slash and is what follows the directory part, which is
    empty or ends with a slash; and no name that ends in [.map] is handed
    to Sorcery. *)
Theorem fileNameOf_is_last_segment (file : string) (walked : list string) :
  hasSlash (fileNameOf file) = false /\
  (exists dir, file = dir +:+ fileNameOf file /\
               (dir = "" \/ JsString.endsWith dir "/" = true)) /\
  Forall (fun name => hasSlash name = false /\ JsString.endsWith name ".map" = false /\
                      exists path, In path walked /\ name = fileNameOf path)
         (bundledFilenames walked).
Proof.
  assert (forall f, hasSlash (fileNameOf f) = false) as Hno.
  { intros f. unfold fileNameOf. pose proof (lastIndexOfSlash_spec f) as Hs.
    destruct (lastIndexOfSlash f) as [i|].
    - destruct Hs as (dir & name & _ & _ & Hn & ->). exact Hn.
    - exact Hs. }
  split; [apply Hno |]. split.
  - unfold fileNameOf. pose proof (lastIndexOfSlash_spec file) as Hs.
    destruct (lastIndexOfSlash file) as [i|].
    + destruct Hs as (dir & name & Hfile & _ & _ & ->).
      exists (dir +:+ "/"). split.
      * now rewrite append_assoc.
      * right. apply endsWith_app.
    + exists "". split; [reflexivity | now left].
  - unfold bundledFilenames. apply Forall_forall. intros name Hin.
    apply list_elem_of_In, filter_In in Hin as [Hin Hmap]. apply in_map_iff in Hin as (path & <- & Hpath).
    split; [apply Hno |]. split; [now apply negb_true_iff in Hmap |].
    exists path. now split.
Qed.

End BuildToolFacts.
